(** * calcmetric: a shallow embedding of [cmd/calcmetric] and [time.go]

    The program computes one metric (the rows of an SQL query) for one
    project and one time range and upserts it into a PostgreSQL table.
    This file embeds the Go code function by function:

    - Go's [strings] helpers the code calls ([ToLower], [Split], [Join],
      [Replace], [HasPrefix]) over Rocq strings (bytes);
    - [time.Time] as an instant (nanoseconds since the Unix epoch) with the
      zone offset its calendar fields are read in, [time.Date] and
      [AddDate] as proleptic Gregorian arithmetic;
    - the database, the clock and the file system as a [host] that answers
      every call from the history of calls made so far; every call the
      program makes is recorded as an [event], labelled with the call site;
    - Go's [(value, error)] results as tuples with an [option error].

    - the functions of the library that [cmd/calcmetric] calls and the
      [time.go] at hand does not define ([WeekStart], [MonthStart],
      [QuarterStart], [YearStart], [ToYMDQuoted]) as a [Calendar] the
      program is a function of, with one instance written from the
      specification.

    Logging ([lib.Logf], [lib.QueryOut]) writes to standard error only and
    is left out. The definitions come first, then the vocabulary of the
    statements, then the theorems. *)

From stdpp Require Import gmap strings list fin_maps pretty.
From Stdlib Require Import ZArith Lia Ascii.

Open Scope Z_scope.

(* ===================================================================== *)
(** ** Go's [strings] package, on byte strings *)
(* ===================================================================== *)

Module Strings.

(** The double quote, which the SQL text of the program uses around
    table names. *)
Definition dq : string := String (Ascii.ascii_of_nat 34) EmptyString.

(** [unicode.ToLower] on one byte: ASCII upper-case letters move to lower
    case, every other byte stays (the type names of a driver are ASCII). *)
Definition lower_byte (c : ascii) : ascii :=
  let n := Ascii.nat_of_ascii c in
  if ((65 <=? n)%nat && (n <=? 90)%nat)%bool then Ascii.ascii_of_nat (n + 32) else c.

Fixpoint ToLower (s : string) : string :=
  match s with
  | EmptyString => EmptyString
  | String c r => String (lower_byte c) (ToLower r)
  end.

(** [strings.HasPrefix]. *)
Definition HasPrefix (s pre : string) : bool := String.prefix pre s.

(** [s[n:]]. *)
Fixpoint drop_bytes (n : nat) (s : string) : string :=
  match n, s with
  | O, _ => s
  | S n', String _ r => drop_bytes n' r
  | S _, EmptyString => EmptyString
  end.

(** [strings.Split(s, sep)] for a one-byte separator: the pieces between
    the separators, in order; a string without separator is one piece, and
    so is the empty string. [cur] is the piece being read, reversed. *)
Fixpoint split_go (sep : ascii) (s : string) (cur : string) : list string :=
  match s with
  | EmptyString => [String.rev cur]
  | String c r =>
      if Ascii.eqb c sep then String.rev cur :: split_go sep r EmptyString
      else split_go sep r (String c cur)
  end.

Definition Split (s : string) (sep : ascii) : list string := split_go sep s EmptyString.

(** [strings.Join]. *)
Fixpoint Join (l : list string) (sep : string) : string :=
  match l with
  | [] => EmptyString
  | [x] => x
  | x :: r => x +:+ sep +:+ Join r sep
  end.

(** [strings.Replace(s, old, new, -1)] for a non-empty [old]: scanning
    from the left, every occurrence of [old] that does not overlap the one
    before becomes [new]. [skip] counts the bytes of a matched [old] still
    to pass over. *)
Fixpoint replace_go (old new : string) (s : string) (skip : nat) : string :=
  match s with
  | EmptyString => EmptyString
  | String c r =>
      match skip with
      | S k => replace_go old new r k
      | O =>
          if String.prefix old s
          then new +:+ replace_go old new r (String.length old - 1)
          else String c (replace_go old new r O)
      end
  end.

Definition Replace (s old new : string) : string := replace_go old new s O.

End Strings.

(** [_, ok := env[key]]. *)
Definition has_key (env : gmap string string) (k : string) : bool :=
  match env !! k with Some _ => true | None => false end.

(** [v, _ := env[key]]: the zero value when the key is absent. *)
Definition get_or_empty (env : gmap string string) (k : string) : string :=
  default EmptyString (env !! k).

(** [x == "a" || x == "b" || ...], the test of a [case "a", "b", ...:]. *)
Definition one_of (x : string) (l : list string) : bool :=
  existsb (String.eqb x) l.

(* ===================================================================== *)
(** ** Column metadata and errors *)
(* ===================================================================== *)

(** What the code reads of a [*sql.ColumnType]: [Name()],
    [DatabaseTypeName()] and the two results of [Nullable()]. *)
Record ColumnType := {
  Name : string;
  DatabaseTypeName : string;
  Nullable : bool * bool   (* (nullable, ok) *)
}.

(** A column of which the driver does not know whether it is nullable. *)
Definition column_of (name tp : string) : ColumnType :=
  {| Name := name; DatabaseTypeName := tp; Nullable := (false, false) |}.

(* ===================================================================== *)
(** ** Go's [time] package *)
(* ===================================================================== *)

Module GoTime.

(** A [time.Time]: the instant, in nanoseconds since 1970-01-01 00:00:00
    UTC, and the offset (seconds east of UTC) of its location at that
    instant, in which [Year], [Month], [Day] and the clock are read.
    [time.UTC] is offset 0. *)
Record Time := { unix_ns : Z; zone : Z }.

Definition UTC : Z := 0.
Definition nsPerSecond : Z := 1000000000.
Definition secondsPerDay : Z := 86400.
Definition nsPerDay : Z := secondsPerDay * nsPerSecond.

Definition isLeap (year : Z) : bool :=
  (Z.rem year 4 =? 0) && (negb (Z.rem year 100 =? 0) || (Z.rem year 400 =? 0)).

(** Days of a non-leap year before month [m] (1 = January); 365 past
    December. *)
Definition daysBefore (m : Z) : Z :=
  if m <=? 1 then 0 else if m =? 2 then 31 else if m =? 3 then 59
  else if m =? 4 then 90 else if m =? 5 then 120 else if m =? 6 then 151
  else if m =? 7 then 181 else if m =? 8 then 212 else if m =? 9 then 243
  else if m =? 10 then 273 else if m =? 11 then 304 else if m =? 12 then 334
  else 365.

Definition leapDay (year m : Z) : Z :=
  if isLeap year && (3 <=? m) then 1 else 0.

(** Days from 1970-01-01 to January 1 of [year]. *)
Definition daysSinceEpoch (year : Z) : Z :=
  let y := year - 1 in
  365 * y + y / 4 - y / 100 + y / 400 - 719162.

(** Days from 1970-01-01 to the first day of month [month] of [year],
    the month normalised into the year first ([norm(year, month-1, 12)]). *)
Definition monthStart (year month : Z) : Z :=
  let m := month - 1 in
  let year := year + m / 12 in
  let m := m mod 12 + 1 in
  daysSinceEpoch year + daysBefore m + leapDay year m.

(** [time.Date(year, month, day, hour, min, sec, nsec, loc)] for a
    location of fixed offset [loc]: fields outside their range carry over,
    which on the instant is plain linear arithmetic. *)
Definition Date (year month day hour min sec nsec : Z) (loc : Z) : Time :=
  let d := monthStart year month + (day - 1) in
  {| unix_ns := (d * secondsPerDay + hour * 3600 + min * 60 + sec - loc) * nsPerSecond + nsec;
     zone := loc |}.

(** The wall clock of [t] in its location: seconds since the epoch. *)
Definition wall_sec (t : Time) : Z := unix_ns t / nsPerSecond + zone t.

(** The day number of [t] in its location (days since 1970-01-01). *)
Definition wall_day (t : Time) : Z := wall_sec t / secondsPerDay.

(** The year of day [d] and the day within that year (from 0), by cycles
    of 400, 100, 4 and 1 years, as [absDate] does. *)
Definition yearDay (d : Z) : Z * Z :=
  let d := d + 719162 in
  let n400 := d / 146097 in
  let d := d - 146097 * n400 in
  let n100 := d / 36524 in
  let n100 := n100 - n100 / 4 in
  let d := d - 36524 * n100 in
  let n4 := d / 1461 in
  let d := d - 1461 * n4 in
  let n1 := d / 365 in
  let n1 := n1 - n1 / 4 in
  let d := d - 365 * n1 in
  (400 * n400 + 100 * n100 + 4 * n4 + n1 + 1, d).

(** Month (1..12) and day of the month (from 1) of day [yday] of a year. *)
Definition monthDay (leap : bool) (yday : Z) : Z * Z :=
  let a := if leap then 1 else 0 in
  if yday <? 31 then (1, yday + 1)
  else if yday <? 59 + a then (2, yday - 31 + 1)
  else if yday <? 90 + a then (3, yday - (59 + a) + 1)
  else if yday <? 120 + a then (4, yday - (90 + a) + 1)
  else if yday <? 151 + a then (5, yday - (120 + a) + 1)
  else if yday <? 181 + a then (6, yday - (151 + a) + 1)
  else if yday <? 212 + a then (7, yday - (181 + a) + 1)
  else if yday <? 243 + a then (8, yday - (212 + a) + 1)
  else if yday <? 273 + a then (9, yday - (243 + a) + 1)
  else if yday <? 304 + a then (10, yday - (273 + a) + 1)
  else if yday <? 334 + a then (11, yday - (304 + a) + 1)
  else (12, yday - (334 + a) + 1).

Definition Year (t : Time) : Z := fst (yearDay (wall_day t)).
Definition YearDay0 (t : Time) : Z := snd (yearDay (wall_day t)).
Definition Month (t : Time) : Z := fst (monthDay (isLeap (Year t)) (YearDay0 t)).
Definition Day (t : Time) : Z := snd (monthDay (isLeap (Year t)) (YearDay0 t)).

(** [t.Weekday()]: Sunday is 0; 1970-01-01 was a Thursday. *)
Definition Weekday (t : Time) : Z := (wall_day t + 4) mod 7.

(** [t.Clock()] as seconds into the day, and [t.Nanosecond()]. *)
Definition clock_sec (t : Time) : Z := wall_sec t mod secondsPerDay.
Definition Nanosecond (t : Time) : Z := unix_ns t mod nsPerSecond.

(** [t.Hour()], [t.Minute()] and [t.Second()]. *)
Definition Hour (t : Time) : Z := wall_sec t mod secondsPerDay / 3600.
Definition Minute (t : Time) : Z := wall_sec t mod 3600 / 60.
Definition Second (t : Time) : Z := wall_sec t mod 60.

(** [t.AddDate(years, months, days)]: [Date] of the shifted fields, the
    clock and the location kept. *)
Definition AddDate (t : Time) (years months days : Z) : Time :=
  Date (Year t + years) (Month t + months) (Day t + days)
       0 0 (clock_sec t) (Nanosecond t) (zone t).

(** A [time.Duration]: nanoseconds in an [int64]. [t.Sub(u)] saturates. *)
Definition maxDuration : Z := 2 ^ 63 - 1.
Definition minDuration : Z := - 2 ^ 63.

Definition Sub (t u : Time) : Z :=
  Z.max minDuration (Z.min maxDuration (unix_ns t - unix_ns u)).

Definition Add (t : Time) (d : Z) : Time :=
  {| unix_ns := unix_ns t + d; zone := zone t |}.

(** [t.Before(u)], the order of instants. *)
Definition Before (t u : Time) : Prop := unix_ns t < unix_ns u.

(** The zero [time.Time]: 0001-01-01 00:00:00 UTC. *)
Definition zeroTime : Time := Date 1 1 1 0 0 0 0 UTC.

(** 00:00:00 UTC of some day. *)
Definition day_aligned (t : Time) : Prop :=
  zone t = UTC /\ unix_ns t mod nsPerDay = 0.

Definition day_alignedb (t : Time) : bool :=
  (zone t =? UTC) && (unix_ns t mod nsPerDay =? 0).

End GoTime.

(* ===================================================================== *)
(** ** [time.Parse], for the layouts of [TimeParseAny] *)
(* ===================================================================== *)

Module Parse.
Import GoTime.

(** The elements a layout of [TimeParseAny] is made of: [2006], [01],
    [02], [15], [04], [05] and literal bytes ([-], [:], [T], [Z] and the
    space). *)
Inductive chunk :=
| stdLongYear | stdZeroMonth | stdZeroDay | stdHour | stdZeroMinute | stdZeroSecond
| literal (c : ascii).

(** [nextStdChunk], repeated over the layout. [skip] counts the bytes of
    the element just read that are still to pass over. *)
Fixpoint chunks (layout : string) (skip : nat) : list chunk :=
  match layout with
  | EmptyString => []
  | String c r =>
      match skip with
      | S k => chunks r k
      | O =>
          if String.prefix "2006" layout then stdLongYear :: chunks r 3
          else if String.prefix "01" layout then stdZeroMonth :: chunks r 1
          else if String.prefix "02" layout then stdZeroDay :: chunks r 1
          else if String.prefix "15" layout then stdHour :: chunks r 1
          else if String.prefix "04" layout then stdZeroMinute :: chunks r 1
          else if String.prefix "05" layout then stdZeroSecond :: chunks r 1
          else literal c :: chunks r 0
      end
  end.

Definition isDigit (c : ascii) : bool :=
  let n := nat_of_ascii c in ((48 <=? n)%nat && (n <=? 57)%nat)%bool.

Definition digit (c : ascii) : Z := Z.of_nat (nat_of_ascii c) - 48.

(** [getnum(s, fixed)]: one or two digits; two are required when [fixed]. *)
Definition getnum (s : string) (fixed : bool) : option (Z * string) :=
  match s with
  | String a r =>
      if isDigit a then
        match r with
        | String b r' =>
            if isDigit b then Some (digit a * 10 + digit b, r')
            else if fixed then None else Some (digit a, r)
        | EmptyString => if fixed then None else Some (digit a, r)
        end
      else None
  | EmptyString => None
  end.

(** The four digits of [stdLongYear]. *)
Definition getyear (s : string) : option (Z * string) :=
  match s with
  | String a (String b (String c (String d r))) =>
      if isDigit a && isDigit b && isDigit c && isDigit d
      then Some (((digit a * 10 + digit b) * 10 + digit c) * 10 + digit d, r)
      else None
  | _ => None
  end.

(** [cutspace]. *)
Fixpoint cutspace (s : string) : string :=
  match s with
  | String c r => if Ascii.eqb c " " then cutspace r else s
  | EmptyString => s
  end.

(** [skip(value, prefix)] for a one-byte prefix: a space of the layout
    stands for any run of spaces of the value; another byte for itself. *)
Definition skip (value : string) (c : ascii) : option string :=
  if Ascii.eqb c " " then
    match value with
    | String v _ => if Ascii.eqb v " " then Some (cutspace value) else None
    | EmptyString => Some value
    end
  else
    match value with
    | String v r => if Ascii.eqb v c then Some r else None
    | EmptyString => None
    end.

(** The leading digits of [s] as a fraction of a second in nanoseconds,
    and what follows all the digits. [scale] is the weight of the next
    digit: digits past the ninth weigh nothing. *)
Fixpoint fraction (s : string) (scale : Z) (acc : Z) : Z * string :=
  match s with
  | String c r =>
      if isDigit c then fraction r (scale / 10) (acc + digit c * scale)
      else (acc, s)
  | EmptyString => (acc, s)
  end.

(** A fractional second in the value after a seconds field whose layout
    has none: [.] or [,] and digits, read into the nanoseconds. *)
Definition fractional (value : string) : Z * string :=
  match value with
  | String p (String d r) =>
      if (Ascii.eqb p "." || Ascii.eqb p ",") && isDigit d
      then fraction (String d r) 100000000 0
      else (0, value)
  | _ => (0, value)
  end.

Record fields := {
  f_year : Z; f_month : Z; f_day : Z;
  f_hour : Z; f_min : Z; f_sec : Z; f_nsec : Z
}.

(** Month and day are -1 until the layout sets them. *)
Definition no_fields : fields :=
  {| f_year := 0; f_month := -1; f_day := -1; f_hour := 0; f_min := 0; f_sec := 0; f_nsec := 0 |}.

Definition daysIn (month year : Z) : Z :=
  if (month =? 2) && isLeap year then 29
  else daysBefore (month + 1) - daysBefore month.

(** The end of [parse]: the defaults, the day-of-month check, and the
    date in UTC (no layout of [TimeParseAny] names a zone). *)
Definition finish (f : fields) : option Time :=
  let month := if f_month f <? 0 then 1 else f_month f in
  let day := if f_day f <? 0 then 1 else f_day f in
  if (day <? 1) || (daysIn month (f_year f) <? day) then None
  else Some (Date (f_year f) month day (f_hour f) (f_min f) (f_sec f) (f_nsec f) UTC).

(** One element of the layout against the value. *)
Definition step (c : chunk) (value : string) (f : fields) : option (string * fields) :=
  match c with
  | literal b => v ← skip value b; Some (v, f)
  | stdLongYear =>
      '(y, v) ← getyear value;
      Some (v, {| f_year := y; f_month := f_month f; f_day := f_day f;
                  f_hour := f_hour f; f_min := f_min f; f_sec := f_sec f; f_nsec := f_nsec f |})
  | stdZeroMonth =>
      '(m, v) ← getnum value true;
      if (m <=? 0) || (12 <? m) then None else
      Some (v, {| f_year := f_year f; f_month := m; f_day := f_day f;
                  f_hour := f_hour f; f_min := f_min f; f_sec := f_sec f; f_nsec := f_nsec f |})
  | stdZeroDay =>
      '(d, v) ← getnum value true;
      Some (v, {| f_year := f_year f; f_month := f_month f; f_day := d;
                  f_hour := f_hour f; f_min := f_min f; f_sec := f_sec f; f_nsec := f_nsec f |})
  | stdHour =>
      '(h, v) ← getnum value false;
      if 24 <=? h then None else
      Some (v, {| f_year := f_year f; f_month := f_month f; f_day := f_day f;
                  f_hour := h; f_min := f_min f; f_sec := f_sec f; f_nsec := f_nsec f |})
  | stdZeroMinute =>
      '(m, v) ← getnum value true;
      if 60 <=? m then None else
      Some (v, {| f_year := f_year f; f_month := f_month f; f_day := f_day f;
                  f_hour := f_hour f; f_min := m; f_sec := f_sec f; f_nsec := f_nsec f |})
  | stdZeroSecond =>
      '(s, v) ← getnum value true;
      if 60 <=? s then None else
      let '(ns, v) := fractional v in
      Some (v, {| f_year := f_year f; f_month := f_month f; f_day := f_day f;
                  f_hour := f_hour f; f_min := f_min f; f_sec := s; f_nsec := ns |})
  end.

Fixpoint parse (cs : list chunk) (value : string) (f : fields) : option Time :=
  match cs with
  | [] => match value with EmptyString => finish f | _ => None end
  | c :: cs' =>
      match step c value f with
      | Some (v, f') => parse cs' v f'
      | None => None
      end
  end.

(** [time.Parse(layout, value)]; [None] is an error. *)
Definition Parse (layout value : string) : option Time :=
  parse (chunks layout 0) value no_fields.

End Parse.

(* ===================================================================== *)
(** ** [fmt.Sprintf], for the verbs of [ToYMDHMS] *)
(* ===================================================================== *)

Module fmt.

Definition zeros (n : nat) : string := String.concat EmptyString (replicate n "0").

(** [fmt.Sprintf("%0wd", n)]: the decimal digits of [n], padded with
    zeros on the left up to [w] bytes; the sign of a negative number
    comes first and counts in the width. *)
Definition Sprintf_0d (w : nat) (n : Z) : string :=
  let ds := pretty (Z.abs n) in
  if n <? 0 then "-" +:+ zeros (w - 1 - String.length ds) +:+ ds
  else zeros (w - String.length ds) +:+ ds.

End fmt.

(* ===================================================================== *)
(** ** [time.go]: the library half of the repository *)
(* ===================================================================== *)

Module lib.
Import GoTime.

Definition formats : list string :=
  [ "2006-01-02T15:04:05Z";
    "2006-01-02 15:04:05";
    "2006-01-02 15:04";
    "2006-01-02 15";
    "2006-01-02";
    "2006-01";
    "2006" ].

(** [TimeParseAny]: the first layout that parses. [None] is the error
    result; the [time.Now()] the Go function returns beside the error is
    used by no caller. *)
Definition TimeParseAny (dtStr : string) : option Time :=
  (fix try (fs : list string) : option Time :=
     match fs with
     | [] => None
     | format :: fs' =>
         match Parse.Parse format dtStr with
         | Some t => Some t
         | None => try fs'
         end
     end) formats.

(** [DayStart]: the calendar day of [dt], read in the location of [dt],
    at 00:00:00 UTC. *)
Definition DayStart (dt : Time) : Time :=
  Date (Year dt) (Month dt) (Day dt) 0 0 0 0 UTC.

Definition NextDayStart (dt : Time) : Time :=
  AddDate (DayStart dt) 0 0 1.

(** [ToYMDHMS]: [%04d-%02d-%02d %02d:%02d:%02d] of the calendar fields
    and the clock of [dt], read in the location of [dt]. *)
Definition ToYMDHMS (dt : Time) : string :=
  fmt.Sprintf_0d 4 (Year dt) +:+ "-" +:+ fmt.Sprintf_0d 2 (Month dt) +:+ "-" +:+
  fmt.Sprintf_0d 2 (Day dt) +:+ " " +:+ fmt.Sprintf_0d 2 (Hour dt) +:+ ":" +:+
  fmt.Sprintf_0d 2 (Minute dt) +:+ ":" +:+ fmt.Sprintf_0d 2 (Second dt).

End lib.

(* ===================================================================== *)
(** ** The host: database, clock and files *)
(* ===================================================================== *)

(** Go [error] values the program sees. *)
Inductive error :=
| PqError (name : string)          (* a [*pq.Error], by [e.Code.Name()] *)
| OtherError (msg : string)        (* any other error of a library call *)
| ErrUnknownType (name : string) (column : ColumnType)
| ErrNonUnique (colName : string)
| ErrMissingEnv (key : string)
| ErrMissingDateFrom
| ErrMissingDateTo
| ErrUnknownTimeRange (timeRange : string)
| ErrParseDate (dtStr : string).

(** A bound parameter of a statement. *)
Inductive arg :=
| AString (s : string)
| ATime (t : GoTime.Time)
| AInt (i : Z).

(** The places of [cmd/calcmetric] that call out of the program. The two
    calls of [needsCalculation] are told apart ([SFreshness], [SRecheck]);
    the label changes nothing in what the program does. *)
Inductive site :=
| SMain | SOpen | SDropTable | SFreshness | SRecheck | SDelete | STimeRange
| SFile | SSource | SCreate | SCalcDt | SBatch | SCleanup.

(** The calls the program makes. *)
Inductive op :=
| OpOpen (conn : string)
| OpQuery (q : string) (args : list arg)
| OpColumnTypes
| OpScan
| OpNext
| OpRowsErr
| OpExec (q : string) (args : list arg)
| OpRowsAffected
| OpNow
| OpReadFile (fn : string).

(** One call made: the error it returned if it failed, and for a
    [RowsAffected] that succeeded the number it returned. *)
Record event := { ev_site : site; ev_op : op; ev_err : option error; ev_rows : option Z }.

(** A [*sql.Rows]: the column metadata (or the error of [ColumnTypes]),
    the rows [Next] yields, each with the outcome of its [Scan], and the
    error, if any, at which [Next] returns false after them; [Err] reports
    that error from then on. *)
Record Rows := {
  r_columns : error + list ColumnType;
  r_scans : list (error + list string);
  r_err : option error
}.

(** A [sql.Result], read through [RowsAffected] only. *)
Record Result := { RowsAffected : error + Z }.

(** The world outside the program. Every answer may depend on all the
    calls made before it. *)
Record host := {
  sql_Open : list event -> string -> option error;
  db_Query : list event -> string -> list arg -> error + Rows;
  db_Exec : list event -> string -> list arg -> error + Result;
  time_Now : list event -> GoTime.Time;
  ioutil_ReadFile : list event -> string -> error + string
}.

(** A computation of the program: from the value of the global
    [gFinalState] and the calls made so far to a result, the new
    [gFinalState] and the calls it made, in order. *)
Definition M (A : Type) : Type := Z -> list event -> A * Z * list event.

Definition ret {A} (a : A) : M A := fun g _ => (a, g, []).

Definition bind {A B} (m : M A) (f : A -> M B) : M B :=
  fun g hist =>
    let '(a, g1, e1) := m g hist in
    let '(b, g2, e2) := f a g1 (hist ++ e1) in
    (b, g2, e1 ++ e2).

#[global] Instance M_ret : MRet M := @ret.
#[global] Instance M_bind : MBind M := fun A B f m => bind m f.

Definition emit (s : site) (o : op) (e : option error) (n : option Z) : M unit :=
  fun g _ => (tt, g, [ {| ev_site := s; ev_op := o; ev_err := e; ev_rows := n |} ]).

Definition history : M (list event) := fun g hist => (hist, g, []).

Definition set_gFinalState (v : Z) : M unit := fun _ _ => (tt, v, []).

Definition get_gFinalState : M Z := fun g _ => (g, g, []).

Definition err_of {A} (r : error + A) : option error :=
  match r with inl e => Some e | inr _ => None end.

Definition val_of {A} (r : error + A) : option A :=
  match r with inl _ => None | inr a => Some a end.

Section Calls.
Variable h : host.

Definition Open (s : site) (conn : string) : M (option error) :=
  hist ← history;
  let r := sql_Open h hist conn in
  _ ← emit s (OpOpen conn) r None; mret r.

Definition Query (s : site) (q : string) (args : list arg) : M (error + Rows) :=
  hist ← history;
  let r := db_Query h hist q args in
  _ ← emit s (OpQuery q args) (err_of r) None; mret r.

Definition Exec (s : site) (q : string) (args : list arg) : M (error + Result) :=
  hist ← history;
  let r := db_Exec h hist q args in
  _ ← emit s (OpExec q args) (err_of r) None; mret r.

Definition Now (s : site) : M GoTime.Time :=
  hist ← history;
  _ ← emit s OpNow None None; mret (time_Now h hist).

Definition ReadFile (s : site) (fn : string) : M (error + string) :=
  hist ← history;
  let r := ioutil_ReadFile h hist fn in
  _ ← emit s (OpReadFile fn) (err_of r) None; mret r.

End Calls.

(** The calls on a [*sql.Rows] and a [sql.Result] the program holds. *)
Definition ColumnTypes (s : site) (rows : Rows) : M (error + list ColumnType) :=
  _ ← emit s OpColumnTypes (err_of (r_columns rows)) None; mret (r_columns rows).

Definition Scan (s : site) (row : error + list string) : M (error + list string) :=
  _ ← emit s OpScan (err_of row) None; mret row.

(** The call of [rows.Next()] that returns false and ends a row loop: the
    rows are exhausted, or fetching the next one failed. A call that
    returns true has no outcome of its own; the row it yields is recorded
    with its [Scan]. *)
Definition NextEnd (s : site) (rows : Rows) : M unit :=
  emit s OpNext (r_err rows) None.

Definition RowsErr (s : site) (rows : Rows) : M (option error) :=
  _ ← emit s OpRowsErr (r_err rows) None; mret (r_err rows).

Definition GetRowsAffected (s : site) (res : Result) : M (error + Z) :=
  _ ← emit s OpRowsAffected (err_of (RowsAffected res)) (val_of (RowsAffected res)); mret (RowsAffected res).

(* ===================================================================== *)
(** ** [cmd/calcmetric]: constants and pure helpers *)
(* ===================================================================== *)

Definition gPrefix : string := "V3_".
Definition gMaxPlaceholders : Z := 0x8000.
Definition gRequired : list string :=
  ["CONN"; "METRIC"; "TABLE"; "PROJECT_SLUG"; "TIME_RANGE"].

Definition nl : string := String (Ascii.ascii_of_nat 10) EmptyString.

(** [fmt.Sprintf("%d", n)]. *)
Definition itoa (n : Z) : string := pretty n.

(** The table name between double quotes, as in ["%s"]. *)
Definition quoted (table : string) : string := Strings.dq +:+ table +:+ Strings.dq.

Definition toDBIdentifier (a : string) : string :=
  Strings.Replace (Strings.ToLower a) "-" "_".

(** [dbTypeName]: the column type of the destination table for a column
    of the query, from the type name the driver reports. *)
Definition dbTypeName (column : ColumnType) (env : gmap string string) : string * option error :=
  let guess := has_key env "GUESS_TYPE" in
  let name := Strings.ToLower (DatabaseTypeName column) in
  if one_of name ["text"; "bool"; "date"; "interval"; "numeric"] then (name, None)
  else if one_of name ["varchar"] then ("text", None)
  else if one_of name ["timestamptz"] then ("timestamp", None)
  else if one_of name ["int8"; "int16"; "int32"; "int64"] then ("bigint", None)
  else if one_of name ["float8"] then ("numeric", None)
  else if guess then (name, None)
  else ("error", Some (ErrUnknownType name column)).

(** [for j, x := range xs { s += body(j, x); if j < l { s += ", " } }],
    from index [j] on. *)
Fixpoint comma_loop (l j : Z) (xs : list string) (body : Z -> string -> string) : string :=
  match xs with
  | [] => EmptyString
  | x :: r => body j x +:+ (if j <? l then ", " else EmptyString) +:+ comma_loop l (j + 1) r body
  end.

(** The statement of [isCalculated]. *)
Definition isCalculated_sql (table : string) : string :=
  "select last_calculated_at from " +:+ quoted table +:+
  " where project_slug = $1 and time_range = $2 and date_from = $3 and date_to = $4".

(** The statement of [supportCleanup]. *)
Definition cleanup_sql (table : string) : string :=
  "delete from " +:+ quoted table +:+
  " where time_range = $1 and project_slug = $2 and date_from < $3 and date_to < $4 and date(last_calculated_at) < date(now())".

(** The first lines of the [create table] text of [calculate]. *)
Definition createTable_head (table : string) : string :=
  "create table if not exists " +:+ quoted table +:+ "(" +:+ nl +:+
  "  time_range varchar(6) not null," +:+ nl +:+
  "  project_slug text not null," +:+ nl +:+
  "  last_calculated_at timestamp not null," +:+ nl +:+
  "  date_from date not null," +:+ nl +:+
  "  date_to date not null," +:+ nl +:+
  "  row_number int not null," +:+ nl.

(** What the last column's iteration appends: the primary key and the end
    of the column list. *)
Definition primary_key_clause : string :=
  "," +:+ nl +:+
  "  primary key(time_range, project_slug, date_from, date_to, row_number)" +:+ nl +:+
  ");" +:+ nl.

(** [for i, column := range columns { ... }] of [calculate], from index
    [i] on: the text grows by one column definition per column; an
    unknown type or a name seen before returns the error at once. *)
Fixpoint column_loop (env : gmap string string) (l i : Z) (columns : list ColumnType)
    (createTable : string) (colNames : list string) (namesMap : gset string)
    : error + (string * list string) :=
  match columns with
  | [] => inr (createTable, colNames)
  | column :: rest =>
      match dbTypeName column env with
      | (_, Some err) => inl err
      | (tp, None) =>
          let colName := Name column in
          if bool_decide (colName ∈ namesMap) then inl (ErrNonUnique colName)
          else
            let namesMap := {[ colName ]} ∪ namesMap in
            let colNames := colNames ++ [colName] in
            let createTable := createTable +:+ "  " +:+ colName +:+ " " +:+ tp in
            let createTable :=
              match Nullable column with
              | (nullable, ok) => if ok && negb nullable then createTable +:+ " not null" else createTable
              end in
            let createTable :=
              if i <? l then createTable +:+ "," +:+ nl
              else createTable +:+ primary_key_clause in
            column_loop env l (i + 1) rest createTable colNames namesMap
      end
  end.

Definition time_range_index (table : string) : string :=
  "create index if not exists " +:+ Strings.dq +:+ table +:+ "_time_range_idx" +:+ Strings.dq
  +:+ " on " +:+ quoted table +:+ "(time_range);" +:+ nl.

Definition project_slug_index (table : string) : string :=
  "create index if not exists " +:+ Strings.dq +:+ table +:+ "_project_slug_idx" +:+ Strings.dq
  +:+ " on " +:+ quoted table +:+ "(project_slug);" +:+ nl.

Definition extra_index (table index : string) : string :=
  "create index if not exists " +:+ Strings.dq +:+ table +:+ "_" +:+ index +:+ "_idx" +:+ Strings.dq
  +:+ " on " +:+ quoted table +:+ "(" +:+ index +:+ ");" +:+ nl.

(** The index statements [calculate] appends after the column loop. *)
Definition index_statements (table : string) (ppt : bool) (indicesAry : list string) : string :=
  time_range_index table +:+
  (if negb ppt then project_slug_index table else EmptyString) +:+
  fold_left (fun s index => s +:+ extra_index table index) indicesAry EmptyString.

(** [indicesAry] of [calculate]. *)
Definition extra_indices (env : gmap string string) : list string :=
  match env !! "INDEXED_COLUMNS" with
  | Some indices => if String.eqb indices "" then [] else Strings.Split indices ","
  | None => []
  end.

(** The whole DDL text [calculate] executes for the given columns, and
    the column names, or the error of the column loop. *)
Definition createTable_text (table : string) (columns : list ColumnType) (ppt : bool)
    (env : gmap string string) : error + (string * list string) :=
  let l := Z.of_nat (length columns) - 1 in
  match column_loop env l 0 columns (createTable_head table) [] ∅ with
  | inl err => inl err
  | inr (createTable, colNames) =>
      inr (createTable +:+ index_statements table ppt (extra_indices env), colNames)
  end.

(** [on conflict ... do update set ...], built the same way at both
    flushes of [calculate]. *)
Definition conflict_clause (l : Z) (colNames : list string) : string :=
  " on conflict(time_range, project_slug, date_from, date_to, row_number) do update set " +:+
  (if 0 <? l then "(" else EmptyString) +:+
  comma_loop l 0 colNames (fun _ colName => colName) +:+
  (if 0 <? l then ") = (" else " = ") +:+
  comma_loop l 0 colNames (fun _ colName => "excluded." +:+ colName) +:+
  (if 0 <? l then ")" else EmptyString).

Definition queryRoot (table : string) : string :=
  "insert into " +:+ quoted table +:+
  "(time_range, project_slug, last_calculated_at, date_from, date_to, row_number, ".

(** [$p+1, $p+2, ..., $p+6, ] of one row. *)
Definition identity_placeholders (p : Z) : string :=
  "$" +:+ itoa (p + 1) +:+ ", $" +:+ itoa (p + 2) +:+ ", $" +:+ itoa (p + 3) +:+
  ", $" +:+ itoa (p + 4) +:+ ", $" +:+ itoa (p + 5) +:+ ", $" +:+ itoa (p + 6) +:+ ", ".

(** The text one row adds to the statement of the current batch. *)
Definition row_text (table : string) (l : Z) (colNames : list string) (query : string) (p : Z) : string :=
  (if String.eqb query ""
   then queryRoot table +:+ comma_loop l 0 colNames (fun _ colName => colName)
        +:+ ") values (" +:+ identity_placeholders p
   else query +:+ ", (" +:+ identity_placeholders p)
  +:+ comma_loop l 0 colNames (fun j _ => "$" +:+ itoa (p + j + 7))
  +:+ ")".

(** The [nColumns] destinations of [rows.Scan(pValues...)] after a scan
    that returned [vals]. *)
Definition scanned (nColumns : nat) (vals : list string) : list string :=
  take nColumns (vals ++ replicate nColumns EmptyString).

(* ===================================================================== *)
(** ** The library functions [cmd/calcmetric] calls beyond [time.go] *)
(* ===================================================================== *)

(** [lib.WeekStart], [lib.MonthStart], [lib.QuarterStart], [lib.YearStart]
    and [lib.ToYMDQuoted] are called by [cmd/calcmetric]; the [time.go] at
    hand does not define them. The program is embedded over any
    implementation of them. *)
Class Calendar := {
  WeekStart : GoTime.Time -> GoTime.Time;
  MonthStart : GoTime.Time -> GoTime.Time;
  QuarterStart : GoTime.Time -> GoTime.Time;
  YearStart : GoTime.Time -> GoTime.Time;
  ToYMDQuoted : GoTime.Time -> string
}.

(** What the specification says of them (section 4.1): windows are
    "UTC day-aligned instants", and the year-to-date window runs "from
    Jan 1 to today", so the start of the year is a midnight not after
    the start of the day and less than a leap year before it. *)
Class CalendarLaws (C : Calendar) : Prop := {
  WeekStart_aligned : forall t, GoTime.day_aligned (WeekStart t);
  MonthStart_aligned : forall t, GoTime.day_aligned (MonthStart t);
  QuarterStart_aligned : forall t, GoTime.day_aligned (QuarterStart t);
  YearStart_aligned : forall t, GoTime.day_aligned (YearStart t);
  YearStart_le_DayStart : forall t,
    GoTime.unix_ns (YearStart t) <= GoTime.unix_ns (lib.DayStart t);
  DayStart_lt_next_year : forall t,
    GoTime.unix_ns (lib.DayStart t) < GoTime.unix_ns (YearStart t) + 366 * GoTime.nsPerDay
}.

Module SpecCalendar.
Import GoTime.

(** Modelled from the spec: [lib.YearStart], missing from [time.go].
    "year-to-date from Jan 1 to today": January 1 of the year of [dt],
    at 00:00:00 UTC, built as [DayStart] builds the day. *)
Definition YearStart (dt : Time) : Time := Date (Year dt) 1 1 0 0 0 0 UTC.

(** Modelled from the spec: [lib.MonthStart], missing from [time.go].
    "calendar-month": the first day of the month of [dt]. *)
Definition MonthStart (dt : Time) : Time := Date (Year dt) (Month dt) 1 0 0 0 0 UTC.

(** Modelled from the spec: [lib.QuarterStart], missing from [time.go].
    "quarter / 3 calendar months": the first day of the quarter of [dt]
    (January, April, July or October 1). *)
Definition QuarterStart (dt : Time) : Time :=
  Date (Year dt) ((Month dt - 1) / 3 * 3 + 1) 1 0 0 0 0 UTC.

(** Modelled from the spec: [lib.WeekStart], missing from [time.go].
    "calendar-week-aligned": the Monday of the week of [dt]. *)
Definition WeekStart (dt : Time) : Time :=
  AddDate (lib.DayStart dt) 0 0 (- ((Weekday dt + 6) mod 7)).

(** [%0nd] for a number that is not negative. *)
Definition pad (n : nat) (v : Z) : string :=
  let s := pretty v in
  String.concat EmptyString (replicate (n - String.length s) "0") +:+ s.

(** Modelled from the spec: [lib.ToYMDQuoted], missing from [time.go].
    The date of [dt] as the text that replaces the date placeholders of a
    query template: ['YYYY-MM-DD'], quoted for SQL. *)
Definition ToYMDQuoted (dt : Time) : string :=
  "'" +:+ pad 4 (Year dt) +:+ "-" +:+ pad 2 (Month dt) +:+ "-" +:+ pad 2 (Day dt) +:+ "'".

End SpecCalendar.

Definition spec_calendar : Calendar := {|
  WeekStart := SpecCalendar.WeekStart;
  MonthStart := SpecCalendar.MonthStart;
  QuarterStart := SpecCalendar.QuarterStart;
  YearStart := SpecCalendar.YearStart;
  ToYMDQuoted := SpecCalendar.ToYMDQuoted
|}.

(* ===================================================================== *)
(** ** [cmd/calcmetric]: the time window *)
(* ===================================================================== *)

Section TimeRange.
Context {C : Calendar}.
Import GoTime.

(** The [p] variant of a window: both ends moved by the same [AddDate]. *)
Definition shifted (p : bool) (years months days : Z) (w : Time * Time) : Time * Time :=
  if p then (AddDate (fst w) years months days, AddDate (snd w) years months days) else w.

(** [currentTimeRange] after [now := time.Now()]: [(dtf, dtt)]. Under
    ["a"] both calls of [TimeParseAny] succeed ([default] never falls
    back); the test for ["typ"] there is the source's. *)
Definition timeRangeAt (now : Time) (timeRange : string) (env : gmap string string) : Time * Time :=
  if one_of timeRange ["7d"; "7dp"] then
    let dtt := if has_key env "CALC_WEEK_DAILY" then lib.DayStart now else WeekStart now in
    let dtf := AddDate dtt 0 0 (-7) in
    shifted (String.eqb timeRange "7dp") 0 0 (-7) (dtf, dtt)
  else if one_of timeRange ["30d"; "30dp"] then
    if has_key env "CALC_MONTH_DAILY" then
      let dtt := lib.DayStart now in
      let dtf := AddDate dtt 0 0 (-30) in
      shifted (String.eqb timeRange "30dp") 0 0 (-30) (dtf, dtt)
    else
      let dtt := MonthStart now in
      let dtf := AddDate dtt 0 (-1) 0 in
      shifted (String.eqb timeRange "30dp") 0 (-1) 0 (dtf, dtt)
  else if one_of timeRange ["q"; "qp"] then
    let dtt := if has_key env "CALC_QUARTER_DAILY" then lib.DayStart now else QuarterStart now in
    let dtf := AddDate dtt 0 (-3) 0 in
    shifted (String.eqb timeRange "qp") 0 (-3) 0 (dtf, dtt)
  else if one_of timeRange ["ty"; "typ"] then
    let dtt := lib.DayStart now in
    let dtf := YearStart now in
    if String.eqb timeRange "typ" then
      let diff := Sub dtt dtf in
      (Add dtf (- diff), Add dtt (- diff))
    else (dtf, dtt)
  else if one_of timeRange ["y"; "yp"] then
    let dtt := if has_key env "CALC_YEAR_DAILY" then lib.DayStart now else YearStart now in
    let dtf := AddDate dtt (-1) 0 0 in
    shifted (String.eqb timeRange "yp") (-1) 0 0 (dtf, dtt)
  else if one_of timeRange ["2y"; "2yp"] then
    if has_key env "CALC_YEAR2_DAILY" then
      let dtt := lib.DayStart now in
      let dtf := AddDate dtt (-2) 0 0 in
      shifted (String.eqb timeRange "2yp") (-2) 0 0 (dtf, dtt)
    else
      let dtt := YearStart now in
      let dtt := if Z.rem (Year now) 2 =? 1 then AddDate dtt (-1) 0 0 else dtt in
      let dtf := AddDate dtt (-2) 0 0 in
      shifted (String.eqb timeRange "2yp") (-2) 0 0 (dtf, dtt)
  else if one_of timeRange ["a"] then
    let dtt := default now (lib.TimeParseAny "2100") in
    let dtf := default now (lib.TimeParseAny "1970") in
    if String.eqb timeRange "typ" then
      let diff := Sub dtt dtf in
      (Add dtf (- diff), Add dtt (- diff))
    else (dtf, dtt)
  else (now, now).

End TimeRange.

(* ===================================================================== *)
(** ** [cmd/calcmetric]: the operations *)
(* ===================================================================== *)

Section Program.
Context (h : host) {C : Calendar}.
Import GoTime.

Definition currentTimeRange (timeRange : string) (env : gmap string string) : M (Time * Time) :=
  now ← Now h STimeRange;
  mret (timeRangeAt now timeRange env).

(** [for rows.Next() { err := rows.Scan(&lastCalc); ...; fetched = true }]. *)
Fixpoint isCalculated_rows (s : site) (scans : list (error + list string)) (fetched : bool)
    : M (bool * option error) :=
  match scans with
  | [] => mret (fetched, None)
  | row :: rest =>
      r ← Scan s row;
      match r with
      | inl err => mret (false, Some err)
      | inr _ => isCalculated_rows s rest true
      end
  end.

Definition isCalculated (s : site) (table projectSlug timeRange : string)
    (env : gmap string string) (dtf dtt : Time) : M (bool * option error) :=
  let dtf := lib.DayStart dtf in
  let dtt := lib.DayStart dtt in
  let sqlQuery := isCalculated_sql table in
  let args := [AString projectSlug; AString timeRange; ATime dtf; ATime dtt] in
  r ← Query h s sqlQuery args;
  match r with
  | inl err =>
      match err with
      | PqError errName =>
          if String.eqb errName "undefined_table" then mret (false, None)
          else mret (false, Some err)
      | _ => mret (false, Some err)
      end
  | inr rows =>
      '(fetched, err) ← isCalculated_rows s (r_scans rows) false;
      match err with
      | Some e => mret (false, Some e)
      | None =>
          _ ← NextEnd s rows;
          err ← RowsErr s rows;
          match err with
          | Some e => mret (false, Some e)
          | None => mret (fetched, None)
          end
      end
  end.

Definition supportCleanup (table timeRange projectSlug : string) (dtf dtt : Time)
    (env : gmap string string) : M unit :=
  match env !! "CLEANUP" with
  | None => mret tt
  | Some cl =>
      if String.eqb cl "" then mret tt else
      let dtf := lib.DayStart dtf in
      let dtt := lib.DayStart dtt in
      let delQuery := cleanup_sql table in
      let args := [AString timeRange; AString projectSlug; ATime dtf; ATime dtt] in
      r ← Exec h SCleanup delQuery args;
      match r with
      | inl _ => mret tt
      | inr res => _ ← GetRowsAffected SCleanup res; mret tt
      end
  end.

(** The conditions and parameters [supportDelete] collects for the keys
    of [delMap], in the fixed order tr, ps, df, dt. *)
Definition delete_conds (delMap : gset string) (timeRange projectSlug : string) (dtf dtt : Time)
    : list string * list arg :=
  let i := 0 in
  let '(i, conds, args) :=
    if bool_decide ("tr" ∈ delMap)
    then (i + 1, ["time_range = $" +:+ itoa (i + 1)], [AString timeRange])
    else (i, [], []) in
  let '(i, conds, args) :=
    if bool_decide ("ps" ∈ delMap)
    then (i + 1, conds ++ ["project_slug = $" +:+ itoa (i + 1)], args ++ [AString projectSlug])
    else (i, conds, args) in
  let '(i, conds, args) :=
    if bool_decide ("df" ∈ delMap)
    then (i + 1, conds ++ ["date_from = $" +:+ itoa (i + 1)], args ++ [ATime dtf])
    else (i, conds, args) in
  let '(i, conds, args) :=
    if bool_decide ("dt" ∈ delMap)
    then (i + 1, conds ++ ["date_to = $" +:+ itoa (i + 1)], args ++ [ATime dtt])
    else (i, conds, args) in
  (conds, args).

Definition supportDelete (table timeRange projectSlug : string) (dtf dtt : Time)
    (env : gmap string string) : M bool :=
  match env !! "DELETE" with
  | None => mret false
  | Some del =>
      if String.eqb del "" then mret false else
      let delAry := Strings.Split del "," in
      let delMap : gset string := list_to_set delAry in
      if Z.of_nat (size delMap) <=? 0 then mret false else
      let delQuery := "delete from " +:+ quoted table in
      let '(conds, args) := delete_conds delMap timeRange projectSlug dtf dtt in
      let delQuery :=
        if 0 <? Z.of_nat (length conds)
        then delQuery +:+ " where " +:+ Strings.Join conds " and "
        else delQuery in
      r ← Exec h SDelete delQuery args;
      match r with
      | inl _ => mret false
      | inr res =>
          rows ← GetRowsAffected SDelete res;
          match rows with
          | inr rows => mret (0 <? rows)
          | inl _ => mret false
          end
      end
  end.

(** [db.Exec(query, args...)] of a batch and [rslt.RowsAffected()]: the
    error, if any, and the new value of [changes]. *)
Definition exec_batch (query : string) (args : list arg) (changes : bool) : M (option error * bool) :=
  r ← Exec h SBatch query args;
  match r with
  | inl err => mret (Some err, changes)
  | inr rslt =>
      n ← GetRowsAffected SBatch rslt;
      match n with
      | inl err => mret (Some err, changes)
      | inr nRows => mret (None, if negb changes && (0 <? nRows) then true else changes)
      end
  end.

(** The variables of the row loop of [calculate]. *)
Record upsert := {
  u_i : Z; u_p : Z; u_ep : Z; u_changes : bool;
  u_query : string; u_args : list arg; u_batches : Z
}.

Section Rows.
Variables (table projectSlug timeRange dtFrom dtTo : string) (calcDt : Time).
Variables (nColumns : nat) (l : Z) (colNames : list string).

(** [for rows.Next() { ... }] of [calculate]. *)
Fixpoint upsert_rows (scans : list (error + list string)) (st : upsert) : M (option error * upsert) :=
  match scans with
  | [] => mret (None, st)
  | row :: rest =>
      r ← Scan SSource row;
      match r with
      | inl err => mret (Some err, st)
      | inr vals =>
          let i := u_i st + 1 in
          let args := u_args st
            ++ [AString timeRange; AString projectSlug; ATime calcDt; AString dtFrom; AString dtTo; AInt i]
            ++ map AString (scanned nColumns vals) in
          let ep := if u_ep st =? 0 then Z.of_nat nColumns else u_ep st in
          let query := row_text table l colNames (u_query st) (u_p st) in
          let p := u_p st + (6 + ep) in
          if gMaxPlaceholders - (6 + ep) <=? p then
            let query := query +:+ conflict_clause l colNames in
            '(err, changes) ← exec_batch query args (u_changes st);
            match err with
            | Some e =>
                mret (Some e, {| u_i := i; u_p := p; u_ep := ep; u_changes := changes;
                                 u_query := query; u_args := args; u_batches := u_batches st |})
            | None =>
                upsert_rows rest {| u_i := i; u_p := 0; u_ep := ep; u_changes := changes;
                                    u_query := EmptyString; u_args := []; u_batches := u_batches st + 1 |}
            end
          else
            upsert_rows rest {| u_i := i; u_p := p; u_ep := ep; u_changes := u_changes st;
                                u_query := query; u_args := args; u_batches := u_batches st |}
      end
  end.

(** [if len(args) > 0 { ... }] after the loop: the last, partial batch. *)
Definition final_flush (st : upsert) : M (option error * upsert) :=
  if 0 <? Z.of_nat (length (u_args st)) then
    let query := u_query st +:+ conflict_clause l colNames in
    '(err, changes) ← exec_batch query (u_args st) (u_changes st);
    match err with
    | Some e => mret (Some e, st)
    | None =>
        mret (None, {| u_i := u_i st; u_p := u_p st; u_ep := u_ep st; u_changes := changes;
                       u_query := query; u_args := u_args st; u_batches := u_batches st + 1 |})
    end
  else mret (None, st).

End Rows.

Definition upsert_init : upsert :=
  {| u_i := 0; u_p := 0; u_ep := 0; u_changes := false;
     u_query := EmptyString; u_args := []; u_batches := 0 |}.

Definition calculate (sqlQuery table projectSlug timeRange dtFrom dtTo : string) (ppt : bool)
    (env : gmap string string) : M (option error) :=
  r ← Query h SSource sqlQuery [];
  match r with
  | inl err => mret (Some err)
  | inr rows =>
      c ← ColumnTypes SSource rows;
      match c with
      | inl err => mret (Some err)
      | inr columns =>
          match createTable_text table columns ppt env with
          | inl err => mret (Some err)
          | inr (createTable, colNames) =>
              let l := Z.of_nat (length columns) - 1 in
              e ← Exec h SCreate createTable [];
              match e with
              | inl err => mret (Some err)
              | inr _ =>
                  let nColumns := length columns in
                  calcDt ← Now h SCalcDt;
                  '(err, st) ← upsert_rows table projectSlug timeRange dtFrom dtTo calcDt
                                   nColumns l colNames (r_scans rows) upsert_init;
                  match err with
                  | Some e => mret (Some e)
                  | None =>
                      _ ← NextEnd SSource rows;
                      '(err, st) ← final_flush l colNames st;
                      match err with
                      | Some e => mret (Some e)
                      | None =>
                          err ← RowsErr SSource rows;
                          match err with
                          | Some e => mret (Some e)
                          | None =>
                              _ ← (if u_changes st then set_gFinalState 1 else mret tt);
                              mret None
                          end
                      end
                  end
              end
          end
      end
  end.

Definition needsCalculation (s : site) (table projectSlug timeRange : string)
    (env : gmap string string) : M (bool * Time * Time * option error) :=
  let tm := zeroTime in
  if one_of timeRange ["7d"; "7dp"; "30d"; "30dp"; "q"; "qp"; "ty"; "typ"; "y"; "yp"; "2y"; "2yp"; "a"] then
    '(dtf, dtt) ← currentTimeRange timeRange env;
    '(isCalc, err) ← isCalculated s table projectSlug timeRange env dtf dtt;
    match err with
    | Some e => mret (true, dtf, dtt, Some e)
    | None => mret (negb isCalc, dtf, dtt, None)
    end
  else if one_of timeRange ["c"] then
    match env !! "DATE_FROM" with
    | None => mret (true, tm, tm, Some ErrMissingDateFrom)
    | Some dtFrom =>
        match env !! "DATE_TO" with
        | None => mret (true, tm, tm, Some ErrMissingDateTo)
        | Some dtTo =>
            match lib.TimeParseAny dtFrom with
            | None => mret (true, tm, tm, Some (ErrParseDate dtFrom))
            | Some dtf =>
                match lib.TimeParseAny dtTo with
                | None => mret (true, dtf, tm, Some (ErrParseDate dtTo))
                | Some dtt =>
                    let dtf := lib.DayStart dtf in
                    let dtt := lib.DayStart dtt in
                    '(isCalc, err) ← isCalculated s table projectSlug timeRange env dtf dtt;
                    match err with
                    | Some e => mret (true, dtf, dtt, Some e)
                    | None => mret (negb isCalc, dtf, dtt, None)
                    end
                end
            end
        end
    end
  else mret (true, tm, tm, Some (ErrUnknownTimeRange timeRange)).

(** The loop of [calcMetric] over [os.Environ()]: the variables named
    [V3_...], the prefix cut off the key. [environ] stands for what
    [os.Environ()] returns, a list in which every name occurs once. *)
Definition parse_environ (environ : list string) : gmap string string :=
  fold_left
    (fun env pair =>
       if Strings.HasPrefix pair gPrefix then
         match Strings.Split pair "=" with
         | key :: (_ :: _) as rest =>
             <[ Strings.drop_bytes (String.length gPrefix) key := Strings.Join rest "=" ]> env
         | _ => env
         end
       else env)
    environ ∅.

(** The first key of [gRequired] that [env] lacks. *)
Definition missing_required (env : gmap string string) : option string :=
  List.find (fun key => negb (has_key env key)) gRequired.

(** The text of the query: the placeholders of the template replaced, in
    the order of the source. The loop over the [PARAM_] keys goes through
    the map in an order Go leaves open; here it is the order of
    [map_to_list]. *)
Definition render_sql (contents projectSlug dtfs dtts : string) (env : gmap string string) : string :=
  let sql := contents in
  let sql := Strings.Replace sql "{{project_slug}}" projectSlug in
  let limit := get_or_empty env "LIMIT" in
  let sql := if negb (String.eqb limit "") then Strings.Replace sql "{{limit}}" limit else sql in
  let offset := get_or_empty env "OFFSET" in
  let sql := if negb (String.eqb offset "") then Strings.Replace sql "{{offset}}" offset else sql in
  let sql :=
    fold_left
      (fun sql kv =>
         if Strings.HasPrefix (fst kv) "PARAM_"
         then Strings.Replace sql ("{{" +:+ Strings.drop_bytes 6 (fst kv) +:+ "}}") (snd kv)
         else sql)
      (map_to_list env) sql in
  let sql := Strings.Replace sql "{{date_from}}" dtfs in
  Strings.Replace sql "{{date_to}}" dtts.

Definition calcMetric (environ : list string) : M (option error) :=
  let env := parse_environ environ in
  match missing_required env with
  | Some key => mret (Some (ErrMissingEnv key))
  | None =>
  let connStr := get_or_empty env "CONN" in
  e ← Open h SOpen connStr;
  match e with
  | Some err => mret (Some err)
  | None =>
  let table := get_or_empty env "TABLE" in
  e ← (if has_key env "DROP"
       then r ← Exec h SDropTable ("drop table if exists " +:+ quoted table) []; mret (err_of r)
       else mret None);
  match e with
  | Some err => mret (Some err)
  | None =>
  let projectSlug := get_or_empty env "PROJECT_SLUG" in
  let ppt := has_key env "PPT" in
  let table := if ppt then table +:+ "_" +:+ toDBIdentifier projectSlug else table in
  let timeRange := get_or_empty env "TIME_RANGE" in
  '(needsCalc, dtf, dtt, err) ← needsCalculation SFreshness table projectSlug timeRange env;
  match err with
  | Some e => mret (Some e)
  | None =>
  deleted ← supportDelete table timeRange projectSlug dtf dtt env;
  '(needsCalc, dtf, dtt) ←
    (if deleted : bool
     then '(needsCalc, dtf, dtt, _) ← needsCalculation SRecheck table projectSlug timeRange env;
          mret (needsCalc, dtf, dtt)
     else mret (needsCalc, dtf, dtt)) : M (bool * Time * Time);
  let needsCalc := if negb needsCalc then has_key env "FORCE_CALC" else needsCalc in
  if negb needsCalc then mret None else
  let metric := get_or_empty env "METRIC" in
  let path := default "./sql/" (env !! "SQL_PATH") in
  let fn := path +:+ metric +:+ ".sql" in
  c ← ReadFile h SFile fn;
  match c with
  | inl err => mret (Some err)
  | inr contents =>
  let dtfs := ToYMDQuoted dtf in
  let dtts := ToYMDQuoted dtt in
  let sql := render_sql contents projectSlug dtfs dtts env in
  err ← calculate sql table projectSlug timeRange dtfs dtts ppt env;
  match err with
  | Some e => mret (Some e)
  | None =>
  _ ← supportCleanup table timeRange projectSlug dtf dtt env;
  mret None
  end end end end end end.

(** [main]: the exit code of the process (0 when [main] returns). *)
Definition main (environ : list string) : M Z :=
  _ ← Now h SMain;
  err ← calcMetric environ;
  rCode ← match err with
          | Some _ => _ ← set_gFinalState (-1); mret 1
          | None => mret 0
          end;
  _ ← Now h SMain;
  gFinalState ← get_gFinalState;
  if negb (rCode =? 0) then mret rCode
  else if (rCode =? 0) && (gFinalState =? 0) then mret 66
  else mret 0.

End Program.

(** One run of the process: [gFinalState] starts at 0 and nothing has
    been called yet. The exit code and the calls made. *)
Definition run (h : host) (C : Calendar) (environ : list string) : Z * list event :=
  let '(code, _, trace) := main h environ 0 [] in (code, trace).

(* ===================================================================== *)
(** ** Vocabulary of the statements *)
(* ===================================================================== *)

(** The type names [dbTypeName] has a case for. *)
Definition known_type_names : list string :=
  ["text"; "bool"; "date"; "interval"; "numeric"; "varchar"; "timestamptz";
   "int8"; "int16"; "int32"; "int64"; "float8"].

(** The time-range codes [needsCalculation] accepts. *)
Definition valid_time_ranges : list string :=
  ["7d"; "7dp"; "30d"; "30dp"; "q"; "qp"; "ty"; "typ"; "y"; "yp"; "2y"; "2yp"; "a"; "c"].

(** The codes with a [p], each with the code it is the previous period of. *)
Definition previous_of : list (string * string) :=
  [("7dp", "7d"); ("30dp", "30d"); ("qp", "q"); ("typ", "ty"); ("yp", "y"); ("2yp", "2y")].

(** The step of the calendar by which a [p] code other than [typ] moves
    a window back: years, months and days, as [AddDate] takes them. *)
Definition previous_step (p : string) (env : gmap string string) : Z * Z * Z :=
  if String.eqb p "7dp" then (0, 0, -7)
  else if String.eqb p "30dp" then
    if has_key env "CALC_MONTH_DAILY" then (0, 0, -30) else (0, -1, 0)
  else if String.eqb p "qp" then (0, -3, 0)
  else if String.eqb p "yp" then (-1, 0, 0)
  else (-2, 0, 0).

(** The length of a window, in nanoseconds. *)
Definition window_length (w : GoTime.Time * GoTime.Time) : Z :=
  GoTime.unix_ns (snd w) - GoTime.unix_ns (fst w).

(** The arguments [isCalculated] binds: the key of the computation, the
    dates at the start of their day. *)
Definition isCalculated_args (projectSlug timeRange : string) (dtf dtt : GoTime.Time) : list arg :=
  [AString projectSlug; AString timeRange; ATime (lib.DayStart dtf); ATime (lib.DayStart dtt)].

(** The event of a [Scan], of a [Query] and of an [Exec]. *)
Definition scan_event (s : site) (row : error + list string) : event :=
  {| ev_site := s; ev_op := OpScan; ev_err := err_of row; ev_rows := None |}.

Definition query_event (s : site) (q : string) (args : list arg) (r : error + Rows) : event :=
  {| ev_site := s; ev_op := OpQuery q args; ev_err := err_of r; ev_rows := None |}.

Definition exec_event (s : site) (q : string) (args : list arg) (r : error + Result) : event :=
  {| ev_site := s; ev_op := OpExec q args; ev_err := err_of r; ev_rows := None |}.

(** The event of the [rows.Next()] that ends a row loop, and of
    [rows.Err()]. *)
Definition next_event (s : site) (rows : Rows) : event :=
  {| ev_site := s; ev_op := OpNext; ev_err := r_err rows; ev_rows := None |}.

Definition rows_err_event (s : site) (rows : Rows) : event :=
  {| ev_site := s; ev_op := OpRowsErr; ev_err := r_err rows; ev_rows := None |}.

(** Every [Scan] of the rows succeeds. *)
Definition scans_ok (scans : list (error + list string)) : Prop :=
  Forall (fun r => err_of r = None) scans.

(** *** The destination table, as PostgreSQL holds it *)

(** A row of a metric table: the identity columns and the value columns. *)
Record MetricRow := {
  m_time_range : string;
  m_project_slug : string;
  m_last_calculated_at : GoTime.Time;
  m_date_from : GoTime.Time;
  m_date_to : GoTime.Time;
  m_row_number : Z;
  m_values : list string
}.

(** [project_slug = $1 and time_range = $2 and date_from = $3 and
    date_to = $4]: dates are equal when they are the same instant. *)
Definition key_matches (projectSlug timeRange : string) (dtf dtt : GoTime.Time) (r : MetricRow) : bool :=
  String.eqb (m_project_slug r) projectSlug && String.eqb (m_time_range r) timeRange
  && (GoTime.unix_ns (m_date_from r) =? GoTime.unix_ns dtf)
  && (GoTime.unix_ns (m_date_to r) =? GoTime.unix_ns dtt).

(** What PostgreSQL answers to the statement of [isCalculated] when its
    tables are [tables]: the error [undefined_table] for a table it does
    not have, else one row per row of the table with the key asked for. *)
Definition select_last_calculated (tables : gmap string (list MetricRow))
    (table projectSlug timeRange : string) (dtf dtt : GoTime.Time) : error + Rows :=
  match tables !! table with
  | None => inl (PqError "undefined_table")
  | Some rows =>
      inr {| r_columns := inr [column_of "last_calculated_at" "TIMESTAMP"];
             r_scans := (fun r => inr [itoa (GoTime.unix_ns (m_last_calculated_at r))])
                          <$> List.filter (key_matches projectSlug timeRange dtf dtt) rows;
             r_err := None |}
  end.

(** *** The statement of [isCalculated], as PostgreSQL reads it *)

Module Pg.

(** A statement [select <column> from "<table>"], with or without
    [where <column> = $<n> and ... and <column> = $<n>]. *)
Record select := { s_column : string; s_table : string; s_where : list (string * nat) }.

(** The text before the first byte [c] of [s], and the text after it. *)
Fixpoint until (c : ascii) (s : string) : option (string * string) :=
  match s with
  | EmptyString => None
  | String x r =>
      if Ascii.eqb x c then Some (EmptyString, r)
      else match until c r with
           | Some (a, b) => Some (String x a, b)
           | None => None
           end
  end.

(** [s] without its prefix [pre]. *)
Fixpoint strip (pre s : string) : option string :=
  match pre with
  | EmptyString => Some s
  | String a pre' =>
      match s with
      | String b s' => if Ascii.eqb a b then strip pre' s' else None
      | EmptyString => None
      end
  end.

(** The decimal number [s] starts with, if any, and the text after it. *)
Fixpoint number (s : string) (acc : option nat) : option nat * string :=
  match s with
  | String c r =>
      if Parse.isDigit c
      then number r (Some (10 * default O acc + Z.to_nat (Parse.digit c))%nat)
      else (acc, s)
  | EmptyString => (acc, s)
  end.

(** [<column> = $<n>], joined by [and]. *)
Fixpoint conditions (fuel : nat) (s : string) : option (list (string * nat)) :=
  match fuel with
  | O => None
  | S fuel' =>
      match until " " s with
      | None => None
      | Some (column, r) =>
          match strip "= $" r with
          | None => None
          | Some r =>
              match number r None with
              | (None, _) => None
              | (Some n, EmptyString) => Some [(column, n)]
              | (Some n, r) =>
                  match strip " and " r with
                  | None => None
                  | Some r => cons (column, n) <$> conditions fuel' r
                  end
              end
          end
      end
  end.

Definition parse (q : string) : option select :=
  match strip "select " q with
  | None => None
  | Some r =>
      match until " " r with
      | None => None
      | Some (column, r) =>
          match strip ("from " +:+ Strings.dq) r with
          | None => None
          | Some r =>
              match until (Ascii.ascii_of_nat 34) r with
              | None => None
              | Some (table, EmptyString) =>
                  Some {| s_column := column; s_table := table; s_where := [] |}
              | Some (table, r) =>
                  match strip " where " r with
                  | None => None
                  | Some r =>
                      (fun w => {| s_column := column; s_table := table; s_where := w |})
                        <$> conditions (String.length r) r
                  end
              end
          end
      end
  end.

(** The value a row of a metric table has in one of the identity
    columns. *)
Definition column_value (r : MetricRow) (column : string) : option arg :=
  if String.eqb column "time_range" then Some (AString (m_time_range r))
  else if String.eqb column "project_slug" then Some (AString (m_project_slug r))
  else if String.eqb column "last_calculated_at" then Some (ATime (m_last_calculated_at r))
  else if String.eqb column "date_from" then Some (ATime (m_date_from r))
  else if String.eqb column "date_to" then Some (ATime (m_date_to r))
  else if String.eqb column "row_number" then Some (AInt (m_row_number r))
  else None.

(** [=] on two values; times are equal when they are the same instant. *)
Definition equal (a b : arg) : bool :=
  match a, b with
  | AString x, AString y => String.eqb x y
  | ATime t, ATime u => GoTime.unix_ns t =? GoTime.unix_ns u
  | AInt i, AInt j => i =? j
  | _, _ => false
  end.

(** The parameter [$n]. *)
Definition parameter (args : list arg) (n : nat) : option arg :=
  match n with
  | O => None
  | S k => args !! k
  end.

(** [column = $n] on the row [r]; [None] when the table has no such
    column or the statement no such parameter. *)
Definition holds (args : list arg) (r : MetricRow) (c : string * nat) : option bool :=
  match column_value r (fst c), parameter args (snd c) with
  | Some v, Some a => Some (equal v a)
  | _, _ => None
  end.

(** The columns and parameters the statement names exist. *)
Definition valid (args : list arg) (s : select) : bool :=
  let columns := ["time_range"; "project_slug"; "last_calculated_at"; "date_from"; "date_to";
                  "row_number"] in
  one_of (s_column s) columns
  && forallb (fun c => one_of (fst c) columns && bool_decide (is_Some (parameter args (snd c))))
       (s_where s).

(** The row satisfies every condition of the statement. *)
Definition selected (args : list arg) (s : select) (r : MetricRow) : bool :=
  forallb (fun c => default false (holds args r c)) (s_where s).

(** A value as the driver hands it to [Scan]. *)
Definition text (a : option arg) : string :=
  match a with
  | Some (AString x) => x
  | Some (ATime t) => itoa (GoTime.unix_ns t)
  | Some (AInt i) => itoa i
  | None => EmptyString
  end.

(** What PostgreSQL answers to the statement [q] with the parameters
    [args] when its tables are [tables]: an error for a statement it
    cannot read, for a table it does not have ([undefined_table]) and for
    a column or parameter that does not exist; else one row per row of the
    table that satisfies the conditions. *)
Definition query (tables : gmap string (list MetricRow)) (q : string) (args : list arg)
    : error + Rows :=
  match parse q with
  | None => inl (PqError "syntax_error")
  | Some s =>
      match tables !! s_table s with
      | None => inl (PqError "undefined_table")
      | Some rows =>
          if valid args s then
            inr {| r_columns := inr [column_of (s_column s) "TIMESTAMP"];
                   r_scans := (fun r => inr [text (column_value r (s_column s))])
                                <$> List.filter (selected args s) rows;
                   r_err := None |}
          else inl (PqError "undefined_column")
      end
  end.

End Pg.

(** The one error [isCalculated] takes for an answer: PostgreSQL's
    [undefined_table]. *)
Definition is_undefined_table (e : error) : bool :=
  match e with
  | PqError name => String.eqb name "undefined_table"
  | _ => false
  end.

(** *** Sample hosts *)

Module Samples.
Import GoTime.

(** A query result of one row: a count and a label. *)
Definition one_row : Rows := {|
  r_columns := inr [ {| Name := "cnt"; DatabaseTypeName := "INT8"; Nullable := (false, true) |};
                     {| Name := "label"; DatabaseTypeName := "TEXT"; Nullable := (true, true) |} ];
  r_scans := [inr ["7"; "commits"]];
  r_err := None
|}.

(** A query result of no row. *)
Definition no_rows : Rows := {|
  r_columns := inr [ {| Name := "cnt"; DatabaseTypeName := "INT8"; Nullable := (false, true) |} ];
  r_scans := [];
  r_err := None
|}.

(** A query result of one row, after which fetching the next row fails. *)
Definition broken_rows : Rows := {|
  r_columns := inr [ {| Name := "cnt"; DatabaseTypeName := "INT8"; Nullable := (false, true) |};
                     {| Name := "label"; DatabaseTypeName := "TEXT"; Nullable := (true, true) |} ];
  r_scans := [inr ["7"; "commits"]];
  r_err := Some (OtherError "connection lost")
|}.

(** A database without the destination table, at noon of the given day:
    the freshness query fails with undefined_table, the source query
    returns [rows], every statement succeeds and affects [affected] rows,
    except that a statement starting with [failing] (if not empty) fails. *)
Definition host_at (year month day : Z) (rows : Rows) (affected : Z) (failing : string) : host := {|
  sql_Open := fun _ _ => None;
  db_Query := fun _ q _ =>
    if String.prefix "select last_calculated_at" q then inl (PqError "undefined_table")
    else inr rows;
  db_Exec := fun _ q _ =>
    if negb (String.eqb failing "") && String.prefix failing q
    then inl (OtherError "connection lost")
    else inr {| RowsAffected := inr affected |};
  time_Now := fun _ => Date year month day 12 0 0 0 UTC;
  ioutil_ReadFile := fun _ _ => inr "select count(*) as cnt, 'commits' as label"
|}.

Definition environ : list string :=
  ["V3_CONN=postgres://db"; "V3_METRIC=commits"; "V3_TABLE=metric_commits";
   "V3_PROJECT_SLUG=envoy"; "V3_TIME_RANGE=30d"].

(** A database that has the computation already, and loses the connection
    for the freshness query once a delete was executed. *)
Definition host_losing_recheck : host := {|
  sql_Open := fun _ _ => None;
  db_Query := fun hist q _ =>
    if String.prefix "select last_calculated_at" q then
      if existsb (fun ev => match ev_site ev with SDelete => true | _ => false end) hist
      then inl (OtherError "connection lost")
      else inr {| r_columns := inr [column_of "last_calculated_at" "TIMESTAMP"];
                  r_scans := [inr ["2024-03-14 02:00:00"]];
                  r_err := None |}
    else inr one_row;
  db_Exec := fun _ _ _ => inr {| RowsAffected := inr 1 |};
  time_Now := fun _ => Date 2024 3 15 12 0 0 0 UTC;
  ioutil_ReadFile := fun _ _ => inr "select count(*) as cnt, 'commits' as label"
|}.

(** A database that has the computation already, and loses the connection
    while the rows of the freshness query are fetched, after the first. *)
Definition host_breaking_check : host := {|
  sql_Open := fun _ _ => None;
  db_Query := fun _ q _ =>
    if String.prefix "select last_calculated_at" q then
      inr {| r_columns := inr [column_of "last_calculated_at" "TIMESTAMP"];
             r_scans := [inr ["2024-03-14 02:00:00"]];
             r_err := Some (OtherError "connection lost") |}
    else inr one_row;
  db_Exec := fun _ _ _ => inr {| RowsAffected := inr 1 |};
  time_Now := fun _ => Date 2024 3 15 12 0 0 0 UTC;
  ioutil_ReadFile := fun _ _ => inr "select count(*) as cnt, 'commits' as label"
|}.

(** Two tables: one with the February 2024 computation of envoy, one
    empty. *)
Definition tables : gmap string (list MetricRow) :=
  {[ "metric_commits" :=
       [ {| m_time_range := "30d"; m_project_slug := "envoy";
            m_last_calculated_at := Date 2024 3 14 2 0 0 0 UTC;
            m_date_from := Date 2024 2 1 0 0 0 0 UTC;
            m_date_to := Date 2024 3 1 0 0 0 0 UTC;
            m_row_number := 1; m_values := ["7"; "commits"] |} ];
     "metric_prs" := [] ]}.

(** A database that reads every query as PostgreSQL does and answers it
    from [tables]. *)
Definition postgres : host := {|
  sql_Open := fun _ _ => None;
  db_Query := fun _ q args => Pg.query tables q args;
  db_Exec := fun _ _ _ => inr {| RowsAffected := inr 1 |};
  time_Now := fun _ => Date 2024 3 15 12 0 0 0 UTC;
  ioutil_ReadFile := fun _ _ => inr "select count(*) as cnt, 'commits' as label"
|}.

(** A database that answers the freshness query from [tables]. *)
Definition host_of_tables : host := {|
  sql_Open := fun _ _ => None;
  db_Query := fun _ q args =>
    match args with
    | [AString projectSlug; AString timeRange; ATime dtf; ATime dtt] =>
        if String.eqb q (isCalculated_sql "metric_commits")
        then select_last_calculated tables "metric_commits" projectSlug timeRange dtf dtt
        else if String.eqb q (isCalculated_sql "metric_prs")
        then select_last_calculated tables "metric_prs" projectSlug timeRange dtf dtt
        else inl (PqError "undefined_table")
    | _ => inr one_row
    end;
  db_Exec := fun _ _ _ => inr {| RowsAffected := inr 1 |};
  time_Now := fun _ => Date 2024 3 15 12 0 0 0 UTC;
  ioutil_ReadFile := fun _ _ => inr "select count(*) as cnt, 'commits' as label"
|}.

End Samples.

(** *** The column list of the DDL, in the specification's words *)

(** "each inferred column appended with its canonical type and a not-null
    constraint only if the source reported non-nullable". *)
Definition column_definition (env : gmap string string) (column : ColumnType) : string :=
  "  " +:+ Name column +:+ " " +:+ fst (dbTypeName column env) +:+
  (if snd (Nullable column) && negb (fst (Nullable column)) then " not null" else EmptyString).

(** The definitions of all columns, one per line. *)
Definition column_definitions (env : gmap string string) (columns : list ColumnType) : string :=
  Strings.Join (column_definition env <$> columns) ("," +:+ nl).

(** The event of [rows.ColumnTypes()]. *)
Definition columns_event (s : site) (rows : Rows) : event :=
  {| ev_site := s; ev_op := OpColumnTypes; ev_err := err_of (r_columns rows); ev_rows := None |}.

(** *** Batches *)

(** The number of parameters bound to the statement of an event. *)
Definition bound_parameters (ev : event) : Z :=
  match ev_op ev with
  | OpExec _ args => Z.of_nat (length args)
  | OpQuery _ args => Z.of_nat (length args)
  | _ => 0
  end.

(** An event that is not a batch of the upsert, or is one with no more
    than [gMaxPlaceholders] bound parameters. *)
Definition within_limit (ev : event) : Prop :=
  ev_site ev = SBatch -> bound_parameters ev <= gMaxPlaceholders.

(** What the row loop of [calculate] keeps true between two rows, for a
    result of [nColumns] columns: [p] counts the parameters collected, and
    one more row still fits. *)
Definition upsert_inv (nColumns : nat) (st : upsert) : Prop :=
  Z.of_nat (length (u_args st)) = u_p st /\
  (u_ep st = 0 \/ u_ep st = Z.of_nat nColumns) /\
  u_p st + (6 + Z.of_nat nColumns) <= gMaxPlaceholders.

(** *** Failures and their effect on the run *)

(** The event of a reading of the clock. *)
Definition clock_event (s : site) : event :=
  {| ev_site := s; ev_op := OpNow; ev_err := None; ev_rows := None |}.

Definition failed (ev : event) : bool :=
  match ev_err ev with Some _ => true | None => false end.

(** The undefined-table error as the error of an event. *)
Definition missing_table (ev : event) : bool :=
  match ev_op ev, ev_err ev with
  | OpQuery _ _, Some e => is_undefined_table e
  | _, _ => false
  end.

(** The failures after which the program is written to go on: any failure
    inside [supportDelete] and [supportCleanup], which return after
    logging it, and the missing table at the first freshness check, which
    [isCalculated] takes for an answer. *)
Definition tolerated (ev : event) : bool :=
  match ev_site ev with
  | SDelete | SCleanup => true
  | SFreshness => missing_table ev
  | _ => false
  end.

(** A [rows.Next()] that ended a row loop on an error: the program learns
    of it from [rows.Err()], after the loop. *)
Definition broken_stream (ev : event) : bool :=
  match ev_op ev with OpNext => failed ev | _ => false end.

(** A call of the freshness check repeated after a delete. *)
Definition rechecking (ev : event) : bool :=
  match ev_site ev with SRecheck => true | _ => false end.

(** A failure at which the program returns an error at once. *)
Definition fatal (ev : event) : bool :=
  failed ev && negb (tolerated ev || broken_stream ev || rechecking ev).

Definition no_fatal (evs : list event) : Prop := Forall (fun ev => fatal ev = false) evs.

(** The events end with a fatal failure, the only one among them. *)
Definition ends_fatal (evs : list event) : Prop :=
  exists pre ev, evs = pre ++ [ev] /\ no_fatal pre /\ fatal ev = true.

(** The events of a computation that returned an error ([err = true]) or
    none: nothing fatal happened, or the computation returned an error
    right after the one fatal failure. *)
Definition sound (err : bool) (evs : list event) : Prop :=
  no_fatal evs \/ (err = true /\ ends_fatal evs).

(** Every event of [evs] that satisfies [P] is followed, later in [evs],
    by one that satisfies [Q]. *)
Fixpoint followed (P Q : event -> bool) (evs : list event) : Prop :=
  match evs with
  | [] => True
  | ev :: rest => (P ev = true -> existsb Q rest = true) /\ followed P Q rest
  end.



(** A failure of the freshness check repeated after a delete, other than
    the missing table. *)
Definition dropped_failure (ev : event) : bool :=
  rechecking ev && failed ev && negb (missing_table ev).

(** The reading of the query file. *)
Definition reads_query_file (ev : event) : bool :=
  match ev_site ev, ev_op ev with
  | SFile, OpReadFile _ => true
  | _, _ => false
  end.

(** A batch of the upsert that reported at least one affected row. *)
Definition changed_rows (ev : event) : bool :=
  match ev_site ev, ev_rows ev with
  | SBatch, Some n => 0 <? n
  | _, _ => false
  end.

(** A computation that leaves [gFinalState] alone and runs no batch. *)
Definition quiet (g g' : Z) (evs : list event) : Prop :=
  g' = g /\ Forall (fun ev => ev_site ev <> SBatch) evs.

Definition is_some {A} (o : option A) : bool :=
  match o with Some _ => true | None => false end.

(** [gFinalState] after [calculate] and after [calcMetric]: set to 1 when
    no error is returned and a batch changed rows. *)
Definition final_state (g : Z) (err : option error) (evs : list event) : Z :=
  if negb (is_some err) && existsb changed_rows evs then 1 else g.

(** The result, the new [gFinalState] and the events of a computation
    satisfy [Q]. *)
Definition wp {A} (m : M A) (g : Z) (hist : list event)
    (Q : A -> Z -> list event -> Prop) : Prop :=
  let '(a, g', evs) := m g hist in Q a g' evs.

(** What [calculate] and [calcMetric] guarantee, started with
    [gFinalState = g]: an error is returned right after the first fatal
    failure, and [gFinalState] ends as [final_state] says. *)
Definition run_spec (g : Z) (err : option error) (g' : Z) (evs : list event) : Prop :=
  sound (is_some err) evs /\ g' = final_state g err evs.

(** The source query was run and the statement that creates the table was
    executed: a computation was performed. *)
Definition computation_performed (trace : list event) : bool :=
  existsb (fun ev => match ev_site ev, ev_op ev with
                     | SCreate, OpExec _ _ => negb (failed ev)
                     | _, _ => false
                     end) trace.

(** *** Helpers of the calendar proofs *)

(** 1 for a leap year, else 0. *)
Definition leap_days (y : Z) : Z := if GoTime.isLeap y then 1 else 0.

(** The day number of a midnight. *)
Definition day_of (t : GoTime.Time) : Z := GoTime.unix_ns t / GoTime.nsPerDay.

(** A step of [AddDate] that goes back: whole days, or whole months and
    years. *)
Definition goes_back (years months days : Z) : Prop :=
  (years = 0 /\ months = 0 /\ days < 0) \/ (days = 0 /\ 12 * years + months < 0).

(** The result of [isCalculated], from the answer to its query. *)
Definition freshness_of (answer : error + Rows) : bool * option error :=
  match answer with
  | inl e => (false, if is_undefined_table e then None else Some e)
  | inr rows =>
      match list_find (fun r => is_Some (err_of r)) (r_scans rows) with
      | Some (_, row) => (false, err_of row)
      | None =>
          match r_err rows with
          | Some e => (false, Some e)
          | None => (negb (bool_decide (r_scans rows = [])), None)
          end
      end
  end.



Definition failed_in_recheck (ev : event) : bool :=
  match ev_site ev with SRecheck => failed ev | _ => false end.

(** *** Bytes of a string *)

Definition bytes (s : string) : list ascii := String.list_ascii_of_string s.

Definition is_upper (c : ascii) : bool :=
  let n := nat_of_ascii c in ((65 <=? n)%nat && (n <=? 90)%nat)%bool.

(** A byte of the ASCII range, on which [strings.ToLower] works byte by
    byte. *)
Definition is_ascii (c : ascii) : bool := (nat_of_ascii c <? 128)%nat.

(** What [toDBIdentifier] makes of one byte. *)
Definition identifier_byte (c : ascii) : ascii :=
  if Ascii.eqb c "-" then "_"%char else Strings.lower_byte c.

(** The byte [c] occurs in [s]. *)
Definition has_byte (c : ascii) (s : string) : bool := existsb (Ascii.eqb c) (bytes s).

(** One pass of the loop of [calcMetric] over [os.Environ()]. *)
Definition environ_step (env : gmap string string) (pair : string) : gmap string string :=
  if Strings.HasPrefix pair gPrefix then
    match Strings.Split pair "=" with
    | key :: (_ :: _) as rest =>
        <[ Strings.drop_bytes (String.length gPrefix) key := Strings.Join rest "=" ]> env
    | _ => env
    end
  else env.

(** The name of an entry of [os.Environ()]: what stands before its first
    [=]. [os.Environ()] returns every name once. *)
Definition variable_name (pair : string) : string :=
  hd EmptyString (Strings.Split pair "=").

(** *** Decimal digits *)

(** The digit [d] (0 to 9) as a byte, and a number written with two and
    with four digits. *)
Definition digit_char (d : Z) : ascii := ascii_of_nat (48 + Z.to_nat d).

Definition two_digits (n : Z) : string :=
  String (digit_char (n / 10)) (String (digit_char (n mod 10)) EmptyString).

Definition four_digits (n : Z) : string :=
  String (digit_char (n / 1000)) (String (digit_char (n / 100 mod 10)) (two_digits (n mod 100))).

(** *** The keys of DELETE *)

(** The keys [supportDelete] knows, in the order it looks them up, each
    with its column and the value it binds. *)
Definition delete_keys (timeRange projectSlug : string) (dtf dtt : GoTime.Time)
    : list (string * string * arg) :=
  [ ("tr", "time_range", AString timeRange);
    ("ps", "project_slug", AString projectSlug);
    ("df", "date_from", ATime dtf);
    ("dt", "date_to", ATime dtt) ].

(** *** The parameters of the upsert *)

(** The parameters one row binds: its identity, with the row number [i],
    then its values, one per column. *)
Definition row_args (timeRange projectSlug : string) (calcDt : GoTime.Time) (dtFrom dtTo : string)
    (nColumns : nat) (i : Z) (vals : list string) : list arg :=
  [AString timeRange; AString projectSlug; ATime calcDt; AString dtFrom; AString dtTo; AInt i]
  ++ map AString (scanned nColumns vals).

(** The parameters of the rows [rows], numbered from [i + 1] on. *)
Fixpoint rows_args (timeRange projectSlug : string) (calcDt : GoTime.Time) (dtFrom dtTo : string)
    (nColumns : nat) (i : Z) (rows : list (list string)) : list arg :=
  match rows with
  | [] => []
  | vals :: rest =>
      row_args timeRange projectSlug calcDt dtFrom dtTo nColumns (i + 1) vals
      ++ rows_args timeRange projectSlug calcDt dtFrom dtTo nColumns (i + 1) rest
  end.

(** The parameters bound by an event, when it is the statement of a batch
    of the upsert. *)
Definition batch_args (ev : event) : list arg :=
  match ev_site ev, ev_op ev with
  | SBatch, OpExec _ args => args
  | _, _ => []
  end.

(** The statement of a batch binds the parameters of a whole number of
    rows, and of one row at least. *)
Definition whole_rows (nColumns : nat) (ev : event) : Prop :=
  forall q args, ev_site ev = SBatch -> ev_op ev = OpExec q args ->
  exists k, 0 < k /\ Z.of_nat (length args) = k * (6 + Z.of_nat nColumns).

(** The rows collected for the next batch are whole rows. *)
Definition collects_rows (nColumns : nat) (st : upsert) : Prop :=
  exists k, 0 <= k /\ Z.of_nat (length (u_args st)) = k * (6 + Z.of_nat nColumns).

(** *** What a run computes *)

(** The events of a computation: rows were changed only after the table
    was created; and under FORCE_CALC ([forced]) the table was created
    whenever no error is returned. *)
Definition computes (forced : bool) (err : option error) (evs : list event) : Prop :=
  (existsb changed_rows evs = true -> computation_performed evs = true) /\
  (forced = true -> err = None -> computation_performed evs = true).

(** A row that the freshness check has read: the metric is in the table. *)
Definition found_fresh (ev : event) : bool :=
  match ev_site ev, ev_op ev, ev_err ev with
  | SFreshness, OpScan, None => true
  | _, _, _ => false
  end.

(** The call sites of [calculate], and those a run passes before it
    decides whether to compute. *)
Definition computing_sites : list site := [SSource; SCreate; SCalcDt; SBatch].

Definition deciding_sites : list site := [SMain; SOpen; SDropTable; STimeRange; SFreshness].

(** *** The length of a window *)

(** The least and the greatest number of days of the window of a
    time-range code: a week, 30 days or a calendar month, three calendar
    months, the part of the year gone by, one and two calendar years, and
    for [a] the days from 1970 to 2100. *)
Definition window_days_range (timeRange : string) (env : gmap string string) : Z * Z :=
  if one_of timeRange ["7d"; "7dp"] then (7, 7)
  else if one_of timeRange ["30d"; "30dp"] then
    if has_key env "CALC_MONTH_DAILY" then (30, 30) else (28, 31)
  else if one_of timeRange ["q"; "qp"] then (89, 92)
  else if one_of timeRange ["ty"; "typ"] then (0, 365)
  else if one_of timeRange ["y"; "yp"] then (365, 366)
  else if one_of timeRange ["2y"; "2yp"] then (730, 731)
  else (47482, 47482).

(** *** The order of the calls of a run *)

(** The call sites of [calcMetric], in the order in which a run passes
    them: opening the database, DROP, the freshness check, DELETE, the
    freshness check again, the query file, the computation, CLEANUP. *)
Definition phases : list (list site) :=
  [ [SOpen]; [SDropTable]; [STimeRange; SFreshness]; [SDelete]; [STimeRange; SRecheck];
    [SFile]; computing_sites; [SCleanup] ].

(** The events come phase by phase: those of the first phase (maybe
    none), then those of the second, and so on. *)
Fixpoint in_phases (ps : list (list site)) (evs : list event) : Prop :=
  match ps with
  | [] => evs = []
  | p :: ps' =>
      exists e1 e2, evs = e1 ++ e2 /\ Forall (fun ev => In (ev_site ev) p) e1 /\ in_phases ps' e2
  end.

(* ===================================================================== *)
(** * Theorems *)
(* ===================================================================== *)

(** ** The embedding at work *)

Example ToLower_ex : Strings.ToLower "TimeStampTZ_1" = "timestamptz_1".
Proof. reflexivity. Qed.

Example Split_ex :
  Strings.Split "tr,,ps" "," = ["tr"; ""; "ps"] /\ Strings.Split "" "," = [""].
Proof. split; reflexivity. Qed.

Example Replace_ex : Strings.Replace "a{{x}}b{{x}}{{x" "{{x}}" "12" = "a12b12{{x".
Proof. reflexivity. Qed.

Example toDBIdentifier_ex : toDBIdentifier "Cloud-Native-Foundation" = "cloud_native_foundation".
Proof. reflexivity. Qed.

Example TimeParseAny_ex :
  lib.TimeParseAny "2023-10" = Some (GoTime.Date 2023 10 1 0 0 0 0 GoTime.UTC)
  /\ lib.TimeParseAny "2024-02-29 7" = Some (GoTime.Date 2024 2 29 7 0 0 0 GoTime.UTC)
  /\ lib.TimeParseAny "2023-02-29" = None
  /\ lib.TimeParseAny "yesterday" = None.
Proof. repeat split; vm_compute; reflexivity. Qed.

(** [DayStart] reads the day in the zone of the time: 23:30 UTC of 14
    March, seen two hours east of UTC, is 15 March. *)
Example DayStart_ex :
  lib.DayStart {| GoTime.unix_ns := GoTime.unix_ns (GoTime.Date 2024 3 14 23 30 0 0 GoTime.UTC);
                  GoTime.zone := 7200 |}
  = GoTime.Date 2024 3 15 0 0 0 0 GoTime.UTC.
Proof. vm_compute. reflexivity. Qed.

(** Months carry over as in Go: three months before 31 May is "31
    February", which 2024 counts as 2 March. *)
Example AddDate_ex :
  GoTime.AddDate (GoTime.Date 2024 5 31 0 0 0 0 GoTime.UTC) 0 (-3) 0
  = GoTime.Date 2024 3 2 0 0 0 0 GoTime.UTC.
Proof. vm_compute. reflexivity. Qed.

Example parse_environ_ex :
  parse_environ ["V3_TABLE=t"; "HOME=/root"; "V3_DEBUG"; "V3_PARAM_is_bot=!= true"]
  = {[ "TABLE" := "t"; "PARAM_is_bot" := "!= true" ]}.
Proof. vm_compute. reflexivity. Qed.

(** A run on a database without the table, a query of one row: the exit
    code is 0 and one batch of 8 parameters is executed. *)
Example run_ex :
  let r := run (Samples.host_at 2024 3 15 Samples.one_row 1 "") spec_calendar Samples.environ in
  r.1 = 0 /\
  omap (fun ev => match ev_site ev with SBatch => Some (bound_parameters ev) | _ => None end) r.2
  = [8; 0].
Proof. cbv zeta. split; vm_compute; reflexivity. Qed.


(** ** The schema inferencer: [dbTypeName] *)

Lemma one_of_In (x : string) (l : list string) : one_of x l = true <-> In x l.
Proof.
  unfold one_of. rewrite existsb_exists. split.
  - intros (y & Hy & E). apply String.eqb_eq in E. now subst.
  - intros H. exists x. split; [assumption | apply String.eqb_refl].
Qed.

Lemma one_of_false (x : string) (l : list string) : one_of x l = false <-> ~ In x l.
Proof.
  rewrite <- one_of_In. destruct (one_of x l); split; congruence.
Qed.

(** C2, as the code has it. The name the driver reports is put in lower
    case first. Then: text, bool, date, interval and numeric are returned
    as they are; varchar gives text; timestamptz gives timestamp; int8,
    int16, int32 and int64 give bigint; float8 gives numeric; any other
    name is an error unless GUESS_TYPE is set, and then the lower-case
    name is returned. *)
Theorem dbTypeName_mapping (column : ColumnType) (env : gmap string string) :
  let name := Strings.ToLower (DatabaseTypeName column) in
  (In name ["text"; "bool"; "date"; "interval"; "numeric"] ->
     dbTypeName column env = (name, None)) /\
  (name = "varchar" -> dbTypeName column env = ("text", None)) /\
  (name = "timestamptz" -> dbTypeName column env = ("timestamp", None)) /\
  (In name ["int8"; "int16"; "int32"; "int64"] ->
     dbTypeName column env = ("bigint", None)) /\
  (name = "float8" -> dbTypeName column env = ("numeric", None)) /\
  (~ In name known_type_names -> is_Some (env !! "GUESS_TYPE") ->
     dbTypeName column env = (name, None)) /\
  (~ In name known_type_names -> env !! "GUESS_TYPE" = None ->
     dbTypeName column env = ("error", Some (ErrUnknownType name column))).
Proof.
  cbv zeta. unfold dbTypeName.
  set (name := Strings.ToLower (DatabaseTypeName column)).
  repeat split.
  - intros H. apply one_of_In in H. now rewrite H.
  - intros ->. reflexivity.
  - intros ->. reflexivity.
  - intros H. simpl in H.
    destruct H as [<- | [<- | [<- | [<- | []]]]]; reflexivity.
  - intros ->. reflexivity.
  - intros Hn [v Hv].
    assert (K : forall l, (forall x, In x l -> In x known_type_names) -> one_of name l = false).
    { intros l Hl. apply one_of_false. intros Hin. apply Hn, Hl, Hin. }
    rewrite !K by (unfold known_type_names; simpl; tauto).
    unfold has_key. now rewrite Hv.
  - intros Hn Hg.
    assert (K : forall l, (forall x, In x l -> In x known_type_names) -> one_of name l = false).
    { intros l Hl. apply one_of_false. intros Hin. apply Hn, Hl, Hin. }
    rewrite !K by (unfold known_type_names; simpl; tauto).
    unfold has_key. now rewrite Hg.
Qed.

(** C2 as stated fails. The driver names a column of SQL type integer
    INT4 and a single-precision float FLOAT4: both are errors, not bigint
    and numeric. With GUESS_TYPE set the name comes back in lower case,
    not as the driver spelled it. *)
Lemma dbTypeName_integer_is_rejected :
  dbTypeName (column_of "cnt" "INT4") ∅
    = ("error", Some (ErrUnknownType "int4" (column_of "cnt" "INT4")))
  /\ dbTypeName (column_of "ratio" "FLOAT4") ∅
    = ("error", Some (ErrUnknownType "float4" (column_of "ratio" "FLOAT4")))
  /\ dbTypeName (column_of "doc" "JSONB") {[ "GUESS_TYPE" := "1" ]} = ("jsonb", None).
Proof. repeat split; vm_compute; reflexivity. Qed.

(** ** The calendar of [GoTime] *)

Module TimeFacts.
Import GoTime.

Lemma isLeap_mod (y : Z) :
  isLeap y = (y mod 4 =? 0) && (negb (y mod 100 =? 0) || (y mod 400 =? 0)).
Proof.
  unfold isLeap.
  assert (R : forall a b, b <> 0 -> (Z.rem a b =? 0) = (a mod b =? 0)).
  { intros a b Hb. apply eq_true_iff_eq. rewrite !Z.eqb_eq. now apply Z.rem_mod_eq_0. }
  now rewrite !R by lia.
Qed.

(** A year has 365 days, and one more when it is a leap year. *)
Lemma daysSinceEpoch_succ (y : Z) :
  daysSinceEpoch (y + 1) = daysSinceEpoch y + 365 + leap_days y.
Proof.
  unfold daysSinceEpoch, leap_days. rewrite isLeap_mod.
  replace (y + 1 - 1) with y by lia.
  destruct (y mod 4 =? 0) eqn:E4; destruct (y mod 100 =? 0) eqn:E100;
    destruct (y mod 400 =? 0) eqn:E400; simpl;
    rewrite ?Z.eqb_eq, ?Z.eqb_neq in *;
    Z.div_mod_to_equations; lia.
Qed.

(** [yearDay] inverts [daysSinceEpoch]: the day lies in the year found. *)
Lemma yearDay_spec (d : Z) :
  let '(y, yd) := yearDay d in
  daysSinceEpoch y + yd = d /\ 0 <= yd < 365 + leap_days y.
Proof.
  unfold yearDay, daysSinceEpoch, leap_days. rewrite isLeap_mod.
  set (d0 := d + 719162).
  set (n400 := d0 / 146097).
  set (d1 := d0 - 146097 * n400).
  set (r100 := d1 / 36524).
  set (n100 := r100 - r100 / 4).
  set (d2 := d1 - 36524 * n100).
  set (n4 := d2 / 1461).
  set (d3 := d2 - 1461 * n4).
  set (r1 := d3 / 365).
  set (n1 := r1 - r1 / 4).
  set (yd := d3 - 365 * n1).
  set (y := 400 * n400 + 100 * n100 + 4 * n4 + n1 + 1).
  assert (H1 : 0 <= d1 < 146097) by (subst d1 n400; Z.div_mod_to_equations; lia).
  assert (H100 : 0 <= n100 <= 3) by (subst n100 r100; Z.div_mod_to_equations; lia).
  assert (H2 : 0 <= d2 <= 36524 /\ (d2 = 36524 -> n100 = 3))
    by (subst d2 n100 r100; Z.div_mod_to_equations; lia).
  assert (H4 : 0 <= n4 <= 24 /\ 0 <= d3 <= 1460 /\ (n4 = 24 -> d3 = 1460 -> d2 = 36524))
    by (subst d3 n4; Z.div_mod_to_equations; lia).
  assert (Hn1 : 0 <= n1 <= 3) by (subst n1 r1; Z.div_mod_to_equations; lia).
  assert (Hyd : 0 <= yd <= 365 /\ (yd = 365 -> n1 = 3 /\ d3 = 1460))
    by (subst yd n1 r1; Z.div_mod_to_equations; lia).
  assert (Hy : y - 1 = 400 * n400 + 100 * n100 + 4 * n4 + n1) by (subst y; lia).
  rewrite Hy.
  assert (Q4 : (400 * n400 + 100 * n100 + 4 * n4 + n1) / 4 = 100 * n400 + 25 * n100 + n4)
    by (Z.div_mod_to_equations; lia).
  assert (Q100 : (400 * n400 + 100 * n100 + 4 * n4 + n1) / 100 = 4 * n400 + n100)
    by (Z.div_mod_to_equations; lia).
  assert (Q400 : (400 * n400 + 100 * n100 + 4 * n4 + n1) / 400 = n400)
    by (Z.div_mod_to_equations; lia).
  rewrite Q4, Q100, Q400.
  split; [subst yd d3 d2 d1 d0; lia |].
  destruct (y mod 4 =? 0) eqn:E4; destruct (y mod 100 =? 0) eqn:E100;
    destruct (y mod 400 =? 0) eqn:E400; simpl;
    rewrite ?Z.eqb_eq, ?Z.eqb_neq in *;
    split; try lia;
    subst y; Z.div_mod_to_equations; lia.
Qed.

(** [monthDay] inverts the table of month starts. *)
Lemma monthDay_spec (leap : bool) (yd : Z) :
  0 <= yd < 365 + (if leap then 1 else 0) ->
  let '(m, dd) := monthDay leap yd in
  1 <= m <= 12 /\ 1 <= dd <= 31 /\
  daysBefore m + (if leap && (3 <=? m) then 1 else 0) + (dd - 1) = yd.
Proof.
  intros H. unfold monthDay.
  destruct leap; simpl in *;
    repeat (match goal with
            | |- context [if ?a <? ?b then _ else _] => destruct (Z.ltb_spec a b)
            end);
    cbn; lia.
Qed.

Lemma monthStart_in_year (y m : Z) :
  1 <= m <= 12 -> monthStart y m = daysSinceEpoch y + daysBefore m + leapDay y m.
Proof.
  intros H. unfold monthStart.
  replace ((m - 1) / 12) with 0 by (Z.div_mod_to_equations; lia).
  replace ((m - 1) mod 12 + 1) with m by (Z.div_mod_to_equations; lia).
  now rewrite Z.add_0_r.
Qed.

(** The calendar fields of a time give back its day. *)
Lemma civil_roundtrip (t : Time) :
  monthStart (Year t) (Month t) + (Day t - 1) = wall_day t.
Proof.
  unfold Month, Day, YearDay0, Year.
  pose proof (yearDay_spec (wall_day t)) as Hy.
  destruct (yearDay (wall_day t)) as [y yd]. simpl.
  destruct Hy as [Hsum Hrange].
  pose proof (monthDay_spec (isLeap y) yd) as Hm. unfold leap_days in Hrange.
  specialize (Hm Hrange).
  destruct (monthDay (isLeap y) yd) as [m dd]. simpl.
  destruct Hm as (Hm & Hd & Hyd).
  rewrite monthStart_in_year by lia. unfold leapDay. lia.
Qed.

Lemma Month_range (t : Time) : 1 <= Month t <= 12.
Proof.
  unfold Month, YearDay0, Year.
  pose proof (yearDay_spec (wall_day t)) as Hy.
  destruct (yearDay (wall_day t)) as [y yd]. simpl.
  destruct Hy as [_ Hrange].
  pose proof (monthDay_spec (isLeap y) yd Hrange) as Hm.
  destruct (monthDay (isLeap y) yd) as [m dd]. simpl. tauto.
Qed.

Lemma Day_range (t : Time) : 1 <= Day t <= 31.
Proof.
  unfold Day, YearDay0, Year.
  pose proof (yearDay_spec (wall_day t)) as Hy.
  destruct (yearDay (wall_day t)) as [y yd]. simpl.
  destruct Hy as [_ Hrange].
  pose proof (monthDay_spec (isLeap y) yd Hrange) as Hm.
  destruct (monthDay (isLeap y) yd) as [m dd]. simpl. tauto.
Qed.

(** Month starts, counted on one axis of months: [monthStart y m] only
    depends on [12 * y + m]. *)
Lemma monthStart_shift_year (y m k : Z) :
  monthStart (y + k) m = monthStart y (m + 12 * k).
Proof.
  unfold monthStart.
  replace ((m + 12 * k - 1) / 12) with ((m - 1) / 12 + k) by (Z.div_mod_to_equations; lia).
  replace ((m + 12 * k - 1) mod 12) with ((m - 1) mod 12) by (Z.div_mod_to_equations; lia).
  now replace (y + k + (m - 1) / 12) with (y + ((m - 1) / 12 + k)) by lia.
Qed.

(** A month has between 28 and 31 days. *)
Lemma daysBefore_step (leap : bool) (r : Z) :
  0 <= r <= 10 ->
  28 <= daysBefore (r + 1 + 1) + (if leap && (3 <=? r + 1 + 1) then 1 else 0)
        - (daysBefore (r + 1) + (if leap && (3 <=? r + 1) then 1 else 0)) <= 31.
Proof.
  intros H.
  assert (C : r = 0 \/ r = 1 \/ r = 2 \/ r = 3 \/ r = 4 \/ r = 5 \/ r = 6 \/ r = 7
              \/ r = 8 \/ r = 9 \/ r = 10) by lia.
  destruct leap; repeat (destruct C as [-> | C]); try subst r; vm_compute; split; discriminate.
Qed.

Lemma monthStart_succ (y m : Z) :
  28 <= monthStart y (m + 1) - monthStart y m <= 31.
Proof.
  unfold monthStart.
  assert (Hr : 0 <= (m - 1) mod 12 < 12) by (Z.div_mod_to_equations; lia).
  destruct (Z.eq_dec ((m - 1) mod 12) 11) as [E | E].
  - replace ((m + 1 - 1) / 12) with ((m - 1) / 12 + 1) by (Z.div_mod_to_equations; lia).
    replace ((m + 1 - 1) mod 12) with 0 by (Z.div_mod_to_equations; lia).
    rewrite E. replace (y + ((m - 1) / 12 + 1)) with (y + (m - 1) / 12 + 1) by lia.
    rewrite daysSinceEpoch_succ. unfold leapDay, leap_days.
    change (daysBefore (0 + 1)) with 0. change (daysBefore (11 + 1)) with 334.
    change (3 <=? 0 + 1) with false. change (3 <=? 11 + 1) with true.
    rewrite andb_false_r, andb_true_r.
    destruct (isLeap (y + (m - 1) / 12)); lia.
  - replace ((m + 1 - 1) / 12) with ((m - 1) / 12) by (Z.div_mod_to_equations; lia).
    replace ((m + 1 - 1) mod 12) with ((m - 1) mod 12 + 1) by (Z.div_mod_to_equations; lia).
    unfold leapDay.
    pose proof (daysBefore_step (isLeap (y + (m - 1) / 12)) ((m - 1) mod 12) ltac:(lia)).
    lia.
Qed.

Lemma monthStart_mono_nat (y m : Z) (n : nat) :
  28 * Z.of_nat n <= monthStart y (m + Z.of_nat n) - monthStart y m <= 31 * Z.of_nat n.
Proof.
  induction n as [| n IH].
  - rewrite Z.add_0_r. lia.
  - replace (m + Z.of_nat (S n)) with (m + Z.of_nat n + 1) by lia.
    pose proof (monthStart_succ y (m + Z.of_nat n)). lia.
Qed.

(** Going back [k] months goes back between [28 k] and [31 k] days. *)
Lemma monthStart_back (y m k : Z) :
  0 <= k -> 28 * k <= monthStart y m - monthStart y (m - k) <= 31 * k.
Proof.
  intros Hk. pose proof (monthStart_mono_nat y (m - k) (Z.to_nat k)) as H.
  rewrite Z2Nat.id in H by assumption.
  now replace (m - k + k) with m in H by lia.
Qed.

(** *** [Date], [AddDate] and days *)

Lemma day_aligned_iff (t : Time) : day_aligned t <-> day_alignedb t = true.
Proof.
  unfold day_aligned, day_alignedb. rewrite andb_true_iff, !Z.eqb_eq. tauto.
Qed.

Lemma Date_midnight_aligned (y m d : Z) : day_aligned (Date y m d 0 0 0 0 UTC).
Proof.
  unfold day_aligned, Date, UTC, nsPerDay. cbn [unix_ns zone]. split; [reflexivity |].
  match goal with
  | |- ?x mod _ = 0 =>
      replace x with ((monthStart y m + (d - 1)) * (secondsPerDay * nsPerSecond))
        by (unfold secondsPerDay, nsPerSecond; lia)
  end.
  apply Z.mod_mul. unfold secondsPerDay, nsPerSecond. lia.
Qed.

Lemma DayStart_aligned (t : Time) : day_aligned (lib.DayStart t).
Proof. apply Date_midnight_aligned. Qed.

Lemma aligned_day_of (t : Time) : day_aligned t -> unix_ns t = day_of t * nsPerDay.
Proof.
  intros [_ H]. unfold day_of.
  pose proof (Z.div_mod (unix_ns t) nsPerDay). unfold nsPerDay, secondsPerDay, nsPerSecond in *. lia.
Qed.

Lemma aligned_fields (t : Time) :
  day_aligned t -> wall_day t = day_of t /\ clock_sec t = 0 /\ Nanosecond t = 0.
Proof.
  intros H. pose proof (aligned_day_of t H) as E. destruct H as [Hz _].
  unfold wall_day, clock_sec, Nanosecond, wall_sec. rewrite Hz, E.
  unfold UTC, nsPerDay, secondsPerDay, nsPerSecond.
  replace (day_of t * (86400 * 1000000000)) with (day_of t * 86400 * 1000000000) by lia.
  rewrite Z.div_mul by lia. rewrite Z.add_0_r.
  rewrite Z.div_mul by lia. rewrite !Z.mod_mul by lia. auto.
Qed.

Lemma Date_midnight_day (y m d : Z) :
  day_of (Date y m d 0 0 0 0 UTC) = monthStart y m + (d - 1).
Proof.
  unfold day_of, Date, UTC, nsPerDay. cbn [unix_ns zone].
  match goal with
  | |- ?x / _ = _ =>
      replace x with ((monthStart y m + (d - 1)) * (secondsPerDay * nsPerSecond))
        by (unfold secondsPerDay, nsPerSecond; lia)
  end.
  apply Z.div_mul. unfold secondsPerDay, nsPerSecond. lia.
Qed.

(** [AddDate] of a midnight is a midnight, the one of the shifted date. *)
Lemma AddDate_midnight (t : Time) (years months days : Z) :
  day_aligned t ->
  AddDate t years months days
  = Date (Year t + years) (Month t + months) (Day t + days) 0 0 0 0 UTC.
Proof.
  intros H. destruct (aligned_fields t H) as (_ & Hc & Hn). destruct H as [Hz _].
  unfold AddDate. now rewrite Hc, Hn, Hz.
Qed.

Lemma AddDate_aligned (t : Time) (years months days : Z) :
  day_aligned t -> day_aligned (AddDate t years months days).
Proof. intros H. rewrite AddDate_midnight by assumption. apply Date_midnight_aligned. Qed.

Lemma AddDate_day (t : Time) (years months days : Z) :
  day_aligned t ->
  day_of (AddDate t years months days)
  = monthStart (Year t) (Month t + 12 * years + months) + (Day t - 1) + days.
Proof.
  intros H. rewrite AddDate_midnight by assumption. rewrite Date_midnight_day.
  rewrite monthStart_shift_year.
  replace (Month t + months + 12 * years) with (Month t + 12 * years + months) by lia. lia.
Qed.

Lemma aligned_day_fields (t : Time) :
  day_aligned t -> day_of t = monthStart (Year t) (Month t) + (Day t - 1).
Proof.
  intros H. destruct (aligned_fields t H) as (Hw & _). rewrite <- Hw.
  symmetry. apply civil_roundtrip.
Qed.

(** Whole days are added exactly. *)
Lemma AddDate_days (t : Time) (days : Z) :
  day_aligned t -> day_of (AddDate t 0 0 days) = day_of t + days.
Proof.
  intros H. rewrite AddDate_day by assumption. rewrite (aligned_day_fields t H).
  now replace (Month t + 12 * 0 + 0) with (Month t) by lia.
Qed.

(** Going back [k] months (years count twelve) goes back between [28 k]
    and [31 k] days. *)
Lemma AddDate_months_back (t : Time) (years months : Z) :
  day_aligned t -> 12 * years + months <= 0 ->
  28 * - (12 * years + months) <= day_of t - day_of (AddDate t years months 0)
    <= 31 * - (12 * years + months).
Proof.
  intros H Hk. rewrite AddDate_day by assumption. rewrite (aligned_day_fields t H).
  pose proof (monthStart_back (Year t) (Month t) (- (12 * years + months)) ltac:(lia)) as B.
  replace (Month t - - (12 * years + months)) with (Month t + 12 * years + months) in B by lia.
  lia.
Qed.

Lemma Before_days (t u : Time) :
  day_aligned t -> day_aligned u -> (Before t u <-> day_of t < day_of u).
Proof.
  intros Ht Hu. unfold Before. rewrite (aligned_day_of t Ht), (aligned_day_of u Hu).
  unfold nsPerDay, secondsPerDay, nsPerSecond. lia.
Qed.

End TimeFacts.

(** ** The time window: [currentTimeRange] and [needsCalculation] *)

(** The branch of [timeRangeAt] for a code given in full. *)
Ltac open_code :=
  unfold timeRangeAt; cbn [one_of existsb String.eqb Ascii.eqb Bool.eqb orb andb].

Section Windows.
Import GoTime TimeFacts.

(** The specification's calendar functions obey the laws asked of them. *)
Lemma spec_calendar_laws : CalendarLaws spec_calendar.
Proof.
  split; intros t;
    unfold WeekStart, MonthStart, QuarterStart, YearStart, spec_calendar;
    unfold SpecCalendar.WeekStart, SpecCalendar.MonthStart, SpecCalendar.QuarterStart,
      SpecCalendar.YearStart.
  - apply AddDate_aligned. apply DayStart_aligned.
  - apply Date_midnight_aligned.
  - apply Date_midnight_aligned.
  - apply Date_midnight_aligned.
  - unfold lib.DayStart.
    pose proof (Date_midnight_aligned (Year t) 1 1) as A1.
    pose proof (Date_midnight_aligned (Year t) (Month t) (Day t)) as A2.
    rewrite (aligned_day_of _ A1), (aligned_day_of _ A2), !Date_midnight_day.
    pose proof (Month_range t). pose proof (Day_range t).
    rewrite !monthStart_in_year by lia.
    assert (0 <= daysBefore (Month t)).
    { unfold daysBefore. repeat (match goal with |- context [if ?b then _ else _] => destruct b end); lia. }
    assert (0 <= leapDay (Year t) (Month t)) by (unfold leapDay; destruct (_ && _); lia).
    change (daysBefore 1) with 0. unfold leapDay at 1. change (3 <=? 1) with false.
    rewrite andb_false_r. unfold nsPerDay, secondsPerDay, nsPerSecond. lia.
  - unfold lib.DayStart.
    pose proof (Date_midnight_aligned (Year t) 1 1) as A1.
    pose proof (Date_midnight_aligned (Year t) (Month t) (Day t)) as A2.
    rewrite (aligned_day_of _ A1), (aligned_day_of _ A2), !Date_midnight_day.
    rewrite civil_roundtrip.
    rewrite monthStart_in_year by lia.
    change (daysBefore 1) with 0. unfold leapDay. change (3 <=? 1) with false.
    rewrite andb_false_r.
    pose proof (yearDay_spec (wall_day t)) as Hy. unfold Year.
    destruct (yearDay (wall_day t)) as [y yd]. cbn [fst]. destruct Hy as [Hs Hr].
    unfold leap_days in Hr. unfold nsPerDay, secondsPerDay, nsPerSecond.
    destruct (isLeap y); lia.
Qed.

Context {C : Calendar} {L : CalendarLaws C}.

Lemma AddDate_back (t : Time) (years months days : Z) :
  day_aligned t -> goes_back years months days ->
  day_aligned (AddDate t years months days) /\ Before (AddDate t years months days) t.
Proof.
  intros Ht Hb. pose proof (AddDate_aligned t years months days Ht) as Ha.
  split; [assumption |]. apply Before_days; [assumption .. |].
  destruct Hb as [(-> & -> & Hd) | (-> & Hm)].
  - rewrite AddDate_days by assumption. lia.
  - pose proof (AddDate_months_back t years months Ht ltac:(lia)). lia.
Qed.

(** The windows [currentTimeRange] builds with [AddDate]: the end [dtt]
    a midnight, the start one step back, and for a [p] code both moved
    one more step back. *)
Lemma back_window (p : bool) (dtt : Time) (years months days : Z) :
  day_aligned dtt -> goes_back years months days ->
  let w := shifted p years months days (AddDate dtt years months days, dtt) in
  day_aligned (fst w) /\ day_aligned (snd w) /\ Before (fst w) (snd w).
Proof.
  intros Ht Hb. destruct (AddDate_back dtt years months days Ht Hb) as [Hf Hlt].
  destruct p; cbn.
  - destruct (AddDate_back _ years months days Hf Hb) as [Hf' Hlt'].
    destruct (AddDate_back _ years months days Ht Hb) as [Ht' _]. auto.
  - auto.
Qed.

Lemma timeRangeAt_a (now : Time) (env : gmap string string) :
  timeRangeAt now "a" env
  = ({| unix_ns := 0; zone := 0 |}, {| unix_ns := 4102444800000000000; zone := 0 |}).
Proof. vm_compute. reflexivity. Qed.

(** Year to date: from the start of the year to the start of the day. *)
Lemma year_to_date (now : Time) :
  day_aligned (YearStart now) /\ day_aligned (lib.DayStart now) /\
  0 <= unix_ns (lib.DayStart now) - unix_ns (YearStart now) < 366 * nsPerDay.
Proof.
  pose proof (YearStart_aligned now). pose proof (DayStart_aligned now).
  pose proof (YearStart_le_DayStart now). pose proof (DayStart_lt_next_year now).
  split; [assumption | split; [assumption | lia]].
Qed.

Lemma Sub_small (t u : Time) :
  - 366 * nsPerDay < unix_ns t - unix_ns u < 366 * nsPerDay -> Sub t u = unix_ns t - unix_ns u.
Proof.
  unfold Sub, minDuration, maxDuration, nsPerDay, secondsPerDay, nsPerSecond. lia.
Qed.

Lemma aligned_sub (t : Time) (d : Z) :
  day_aligned t -> d mod nsPerDay = 0 -> day_aligned (Add t (- d)).
Proof.
  intros [Hz Hm] Hd. split; [exact Hz |]. cbn [Add unix_ns].
  unfold nsPerDay, secondsPerDay, nsPerSecond in *.
  Z.div_mod_to_equations. lia.
Qed.

(** Every window of [currentTimeRange] has both ends at a midnight UTC
    and does not end before it starts; it is empty only for ty and typ,
    on January 1. *)
Lemma timeRangeAt_aligned (now : Time) (timeRange : string) (env : gmap string string) :
  In timeRange ["7d"; "7dp"; "30d"; "30dp"; "q"; "qp"; "ty"; "typ"; "y"; "yp"; "2y"; "2yp"; "a"] ->
  let w := timeRangeAt now timeRange env in
  day_aligned (fst w) /\ day_aligned (snd w) /\
  unix_ns (fst w) <= unix_ns (snd w) /\
  (~ In timeRange ["ty"; "typ"] -> Before (fst w) (snd w)).
Proof.
  intros Hin.
  assert (K : forall p dtt years months days,
             day_aligned dtt -> goes_back years months days ->
             let w := shifted p years months days (AddDate dtt years months days, dtt) in
             day_aligned (fst w) /\ day_aligned (snd w) /\
             unix_ns (fst w) <= unix_ns (snd w) /\
             (~ In timeRange ["ty"; "typ"] -> Before (fst w) (snd w))).
  { intros p dtt ys ms ds Ht Hb. destruct (back_window p dtt ys ms ds Ht Hb) as (A & B & D).
    pose proof D as D'. unfold Before in D'.
    split; [exact A | split; [exact B | split; [lia | intros _; exact D]]]. }
  pose proof (DayStart_aligned now) as HD.
  pose proof (WeekStart_aligned now) as HW.
  pose proof (MonthStart_aligned now) as HM.
  pose proof (QuarterStart_aligned now) as HQ.
  pose proof (YearStart_aligned now) as HY.
  assert (G7 : goes_back 0 0 (-7)) by (left; lia).
  assert (G30 : goes_back 0 0 (-30)) by (left; lia).
  assert (Gm : goes_back 0 (-1) 0) by (right; lia).
  assert (Gq : goes_back 0 (-3) 0) by (right; lia).
  assert (Gy : goes_back (-1) 0 0) by (right; lia).
  assert (G2 : goes_back (-2) 0 0) by (right; lia).
  cbn in Hin.
  repeat (destruct Hin as [<- | Hin]); try contradiction;
    [open_code .. | ].
  - destruct (has_key env _); auto.
  - destruct (has_key env _); auto.
  - destruct (has_key env _); auto.
  - destruct (has_key env _); auto.
  - destruct (has_key env _); auto.
  - destruct (has_key env _); auto.
  - destruct (year_to_date now) as (A & B & D). cbn [fst snd].
    split; [exact A | split; [exact B | split; [lia | intros N; exfalso; apply N; now left]]].
  - destruct (year_to_date now) as (A & B & D).
    rewrite Sub_small by lia. cbn [fst snd].
    assert (Hd : (unix_ns (lib.DayStart now) - unix_ns (YearStart now)) mod nsPerDay = 0).
    { destruct A as [_ A], B as [_ B]. unfold nsPerDay, secondsPerDay, nsPerSecond in *.
      Z.div_mod_to_equations. lia. }
    split; [now apply aligned_sub | split; [now apply aligned_sub | split]].
    + cbn [Add unix_ns]. lia.
    + intros N. exfalso. apply N. right. now left.
  - destruct (has_key env _); auto.
  - destruct (has_key env _); auto.
  - destruct (has_key env _); [auto |].
    destruct (Z.rem (Year now) 2 =? 1); [| auto].
    apply K; [| assumption]. now apply AddDate_aligned.
  - destruct (has_key env _); [auto |].
    destruct (Z.rem (Year now) 2 =? 1); [| auto].
    apply K; [| assumption]. now apply AddDate_aligned.
  - cbv zeta. rewrite timeRangeAt_a. cbn [fst snd].
    split; [apply day_aligned_iff; reflexivity | split; [apply day_aligned_iff; reflexivity |]].
    unfold Before. cbn [unix_ns]. split; [lia | intros _; lia].
Qed.

End Windows.

(** ** Running computations *)

Lemma run_bind {A B} (m : M A) (f : A -> M B) (g : Z) (hist : list event) :
  (m ≫= f) g hist
  = let '(a, g1, e1) := m g hist in
    let '(b, g2, e2) := f a g1 (hist ++ e1) in
    (b, g2, e1 ++ e2).
Proof. reflexivity. Qed.

Lemma run_ret {A} (a : A) (g : Z) (hist : list event) : (mret a : M A) g hist = (a, g, []).
Proof. reflexivity. Qed.

Lemma run_Query (h : host) (s : site) (q : string) (args : list arg) (g : Z) (hist : list event) :
  Query h s q args g hist
  = (db_Query h hist q args, g,
     [ {| ev_site := s; ev_op := OpQuery q args;
          ev_err := err_of (db_Query h hist q args); ev_rows := None |} ]).
Proof. reflexivity. Qed.

Lemma run_Exec (h : host) (s : site) (q : string) (args : list arg) (g : Z) (hist : list event) :
  Exec h s q args g hist
  = (db_Exec h hist q args, g,
     [ {| ev_site := s; ev_op := OpExec q args;
          ev_err := err_of (db_Exec h hist q args); ev_rows := None |} ]).
Proof. reflexivity. Qed.

Lemma run_Now (h : host) (s : site) (g : Z) (hist : list event) :
  Now h s g hist
  = (time_Now h hist, g, [ {| ev_site := s; ev_op := OpNow; ev_err := None; ev_rows := None |} ]).
Proof. reflexivity. Qed.

Lemma run_Open (h : host) (s : site) (conn : string) (g : Z) (hist : list event) :
  Open h s conn g hist
  = (sql_Open h hist conn, g,
     [ {| ev_site := s; ev_op := OpOpen conn; ev_err := sql_Open h hist conn; ev_rows := None |} ]).
Proof. reflexivity. Qed.

Lemma run_ReadFile (h : host) (s : site) (fn : string) (g : Z) (hist : list event) :
  ReadFile h s fn g hist
  = (ioutil_ReadFile h hist fn, g,
     [ {| ev_site := s; ev_op := OpReadFile fn;
          ev_err := err_of (ioutil_ReadFile h hist fn); ev_rows := None |} ]).
Proof. reflexivity. Qed.

Lemma run_Scan (s : site) (row : error + list string) (g : Z) (hist : list event) :
  Scan s row g hist
  = (row, g, [ {| ev_site := s; ev_op := OpScan; ev_err := err_of row; ev_rows := None |} ]).
Proof. reflexivity. Qed.

Lemma run_RowsErr (s : site) (rows : Rows) (g : Z) (hist : list event) :
  RowsErr s rows g hist
  = (r_err rows, g, [ {| ev_site := s; ev_op := OpRowsErr; ev_err := r_err rows; ev_rows := None |} ]).
Proof. reflexivity. Qed.

Lemma run_NextEnd (s : site) (rows : Rows) (g : Z) (hist : list event) :
  NextEnd s rows g hist = (tt, g, [next_event s rows]).
Proof. reflexivity. Qed.

Lemma run_ColumnTypes (s : site) (rows : Rows) (g : Z) (hist : list event) :
  ColumnTypes s rows g hist
  = (r_columns rows, g,
     [ {| ev_site := s; ev_op := OpColumnTypes; ev_err := err_of (r_columns rows); ev_rows := None |} ]).
Proof. reflexivity. Qed.

Lemma run_GetRowsAffected (s : site) (res : Result) (g : Z) (hist : list event) :
  GetRowsAffected s res g hist
  = (RowsAffected res, g,
     [ {| ev_site := s; ev_op := OpRowsAffected;
          ev_err := err_of (RowsAffected res); ev_rows := val_of (RowsAffected res) |} ]).
Proof. reflexivity. Qed.

(** One step of a computation: the first call of a bind is run and named. *)
Ltac run_step :=
  rewrite run_bind;
  first [ rewrite run_Query | rewrite run_Exec | rewrite run_Now | rewrite run_Open
        | rewrite run_ReadFile | rewrite run_Scan | rewrite run_NextEnd | rewrite run_RowsErr
        | rewrite run_ColumnTypes | rewrite run_GetRowsAffected | rewrite run_ret ].

(** *** [isCalculated] *)

Section Freshness.
Context (h : host).
Import GoTime.

(** The loop over the rows: it stops at the first [Scan] that fails;
    otherwise [fetched] is set once a row was read. *)
Lemma isCalculated_rows_run (s : site) (scans : list (error + list string)) (fetched : bool)
    (g : Z) (hist : list event) :
  match list_find (fun r => is_Some (err_of r)) scans with
  | Some (i, r) =>
      exists e, r = inl e /\
      isCalculated_rows s scans fetched g hist
      = ((false, Some e), g, scan_event s <$> take (S i) scans)
  | None =>
      isCalculated_rows s scans fetched g hist
      = ((fetched || negb (bool_decide (scans = [])), None), g, scan_event s <$> scans)
  end.
Proof.
  revert fetched hist. induction scans as [| row rest IH]; intros fetched hist.
  - cbn. now rewrite orb_false_r.
  - cbn [isCalculated_rows]. rewrite run_bind, run_Scan.
    destruct row as [e | vals].
    + cbn. exists e. split; reflexivity.
    + cbn [list_find]. rewrite decide_False by (cbn; intros [? ?]; discriminate).
      specialize (IH true (hist ++ [scan_event s (inr vals)])).
      destruct (list_find _ rest) as [[i r] |]; cbn [fmap option_fmap option_map prod_map fst snd].
      * destruct IH as (e & -> & IH). exists e. split; [reflexivity |].
        unfold scan_event in IH at 1. rewrite IH. reflexivity.
      * unfold scan_event in IH at 1. rewrite IH. cbn.
        now rewrite orb_true_r.
Qed.


Lemma scans_ok_find (scans : list (error + list string)) :
  scans_ok scans -> list_find (fun r => is_Some (err_of r)) scans = None.
Proof.
  intros H. apply list_find_None. eapply Forall_impl; [exact H |].
  intros r E [e He]. cbn in *. congruence.
Qed.

Lemma first_failed_scan (scans : list (error + list string)) (i : nat) (e : error) :
  scans !! i = Some (inl e) -> scans_ok (take i scans) ->
  list_find (fun r => is_Some (err_of r)) scans = Some (i, inl e).
Proof.
  intros Hi Hok. apply list_find_Some. split; [exact Hi |]. split; [cbn; eauto |].
  intros j r Hj Hlt [e' He']. unfold scans_ok in Hok. rewrite Forall_lookup in Hok.
  specialize (Hok j r). rewrite lookup_take_lt in Hok by lia. specialize (Hok Hj). congruence.
Qed.

Lemma is_undefined_table_false (e : error) :
  is_undefined_table e = false <-> e <> PqError "undefined_table".
Proof.
  destruct e; cbn; try (split; [discriminate | reflexivity]).
  destruct (String.eqb_spec name "undefined_table") as [-> | N]; split; congruence.
Qed.

(** [isCalculated], case by case on what the database answers. *)
Lemma isCalculated_run (s : site) (table projectSlug timeRange : string)
    (env : gmap string string) (dtf dtt : Time) (g : Z) (hist : list event) :
  let q := isCalculated_sql table in
  let args := isCalculated_args projectSlug timeRange dtf dtt in
  let r := db_Query h hist q args in
  isCalculated h s table projectSlug timeRange env dtf dtt g hist
  = match r with
    | inl e =>
        ((false, if is_undefined_table e then None else Some e),
         g, [query_event s q args r])
    | inr rows =>
        match list_find (fun r => is_Some (err_of r)) (r_scans rows) with
        | Some (i, row) =>
            ((false, err_of row), g,
             query_event s q args r :: (scan_event s <$> take (S i) (r_scans rows)))
        | None =>
            (match r_err rows with
             | Some e => (false, Some e)
             | None => (negb (bool_decide (r_scans rows = [])), None)
             end, g,
             query_event s q args r :: (scan_event s <$> r_scans rows)
             ++ [next_event s rows; rows_err_event s rows])
        end
    end.
Proof.
  cbv zeta. unfold isCalculated. fold (isCalculated_args projectSlug timeRange dtf dtt).
  rewrite run_bind, run_Query.
  destruct (db_Query h hist _ _) as [e | rows] eqn:EQ.
  - destruct e; try reflexivity.
    cbn [is_undefined_table]. destruct (String.eqb name "undefined_table"); reflexivity.
  - rewrite run_bind.
    pose proof (isCalculated_rows_run s (r_scans rows) false g
                  (hist ++ [ {| ev_site := s; ev_op := OpQuery (isCalculated_sql table)
                                  (isCalculated_args projectSlug timeRange dtf dtt);
                                ev_err := err_of (inr rows : error + Rows); ev_rows := None |} ])) as R.
    destruct (list_find _ (r_scans rows)) as [[i row] |].
    + destruct R as (e & -> & R). rewrite R, run_ret. cbn [app err_of].
      now rewrite app_nil_r.
    + rewrite R. cbn [orb]. rewrite run_bind, run_NextEnd, run_bind, run_RowsErr.
      fold (rows_err_event s rows).
      destruct (r_err rows); rewrite run_ret; cbn [app]; rewrite ?app_nil_r; reflexivity.
Qed.

Lemma isCalculated_result (s : site) (table projectSlug timeRange : string)
    (env : gmap string string) (dtf dtt : Time) (g : Z) (hist : list event) :
  (isCalculated h s table projectSlug timeRange env dtf dtt g hist).1.1
  = freshness_of (db_Query h hist (isCalculated_sql table)
                    (isCalculated_args projectSlug timeRange dtf dtt)).
Proof.
  rewrite isCalculated_run. cbv zeta. unfold freshness_of.
  destruct (db_Query h hist _ _) as [e | rows]; [reflexivity |].
  destruct (list_find _ _) as [[i row] |]; [reflexivity |].
  destruct (r_err rows); reflexivity.
Qed.

(** The failures [isCalculated] hands to its caller: an error of the
    query other than undefined_table, the first [Scan] that fails, and the
    error at which the rows end. *)
Lemma isCalculated_failures (s : site) (table projectSlug timeRange : string)
    (env : gmap string string) (dtf dtt : Time) (g : Z) (hist : list event) :
  let answer := db_Query h hist (isCalculated_sql table)
                  (isCalculated_args projectSlug timeRange dtf dtt) in
  let result := (isCalculated h s table projectSlug timeRange env dtf dtt g hist).1.1 in
  (forall e, answer = inl e -> e <> PqError "undefined_table" -> result = (false, Some e)) /\
  (forall rows i e, answer = inr rows -> r_scans rows !! i = Some (inl e) ->
     scans_ok (take i (r_scans rows)) -> result = (false, Some e)) /\
  (forall rows e, answer = inr rows -> scans_ok (r_scans rows) -> r_err rows = Some e ->
     result = (false, Some e)).
Proof.
  cbv zeta. rewrite isCalculated_result.
  set (answer := db_Query h hist _ _).
  split; [| split].
  - intros e -> N. cbn. rewrite (proj2 (is_undefined_table_false e) N). reflexivity.
  - intros rows i e -> Hi Hok'. unfold freshness_of.
    rewrite (first_failed_scan _ _ _ Hi Hok'). reflexivity.
  - intros rows e -> Hs He. unfold freshness_of. rewrite (scans_ok_find _ Hs), He. reflexivity.
Qed.

End Freshness.

(** On 15 March 2024 the 30-day window of envoy is February: computed in
    the table that has the row, not computed for another project, in the
    empty table, and in a table that does not exist. *)
Example isCalculated_ex :
  let feb := GoTime.Date 2024 2 1 10 30 0 0 GoTime.UTC in
  let mar := GoTime.Date 2024 3 1 0 0 0 0 GoTime.UTC in
  let check table projectSlug :=
    (isCalculated Samples.host_of_tables SFreshness table projectSlug "30d" ∅ feb mar 0 []).1.1 in
  check "metric_commits" "envoy" = (true, None)
  /\ check "metric_commits" "cncf" = (false, None)
  /\ check "metric_prs" "envoy" = (false, None)
  /\ check "metric_issues" "envoy" = (false, None).
Proof. cbv zeta. repeat split; vm_compute; reflexivity. Qed.

(** *** [needsCalculation] and the window it resolves *)

Section Resolve.
Context (h : host) {C : Calendar}.
Import GoTime TimeFacts.

(** For a code other than c, [needsCalculation] reads the clock once,
    resolves the window from it, and asks [isCalculated]. *)
Lemma needsCalculation_range (s : site) (table projectSlug timeRange : string)
    (env : gmap string string) (g : Z) (hist : list event) :
  In timeRange ["7d"; "7dp"; "30d"; "30dp"; "q"; "qp"; "ty"; "typ"; "y"; "yp"; "2y"; "2yp"; "a"] ->
  let w := timeRangeAt (time_Now h hist) timeRange env in
  let tick := {| ev_site := STimeRange; ev_op := OpNow; ev_err := None; ev_rows := None |} in
  let fresh := isCalculated h s table projectSlug timeRange env (fst w) (snd w) g (hist ++ [tick]) in
  needsCalculation h s table projectSlug timeRange env g hist
  = ((match fresh.1.1.2 with Some _ => true | None => negb fresh.1.1.1 end,
      fst w, snd w, fresh.1.1.2),
     fresh.1.2, tick :: fresh.2).
Proof.
  intros Hin. cbv zeta. unfold needsCalculation.
  apply one_of_In in Hin. rewrite Hin.
  unfold currentTimeRange. rewrite !run_bind, run_Now, run_ret. cbn [app].
  destruct (timeRangeAt (time_Now h hist) timeRange env) as [dtf dtt]. cbn [fst snd].
  rewrite run_bind.
  destruct (isCalculated h s table projectSlug timeRange env dtf dtt g _)
    as [[[isCalc err] g'] evs].
  destruct err; rewrite run_ret; cbn [fst snd app]; now rewrite app_nil_r.
Qed.

(** For the code c, the window is the two dates of the configuration,
    each at the start of its day, once both parse. *)
Lemma needsCalculation_custom (s : site) (table projectSlug : string)
    (env : gmap string string) (g : Z) (hist : list event)
    (needs : bool) (dtf dtt : Time) :
  (needsCalculation h s table projectSlug "c" env g hist).1.1 = (needs, dtf, dtt, None) ->
  exists dtFrom dtTo f t,
    env !! "DATE_FROM" = Some dtFrom /\ env !! "DATE_TO" = Some dtTo /\
    lib.TimeParseAny dtFrom = Some f /\ lib.TimeParseAny dtTo = Some t /\
    dtf = lib.DayStart f /\ dtt = lib.DayStart t.
Proof.
  unfold needsCalculation.
  change (one_of "c" ["7d"; "7dp"; "30d"; "30dp"; "q"; "qp"; "ty"; "typ"; "y"; "yp"; "2y"; "2yp"; "a"])
    with false.
  change (one_of "c" ["c"]) with true. cbv iota.
  destruct (env !! "DATE_FROM") as [dtFrom |] eqn:E1; [| rewrite run_ret; discriminate].
  destruct (env !! "DATE_TO") as [dtTo |] eqn:E2; [| rewrite run_ret; discriminate].
  destruct (lib.TimeParseAny dtFrom) as [f |] eqn:E3; [| rewrite run_ret; discriminate].
  destruct (lib.TimeParseAny dtTo) as [t |] eqn:E4; [| rewrite run_ret; discriminate].
  rewrite run_bind.
  destruct (isCalculated h s table projectSlug "c" env _ _ g hist) as [[[isCalc err] g'] evs].
  destruct err; rewrite run_ret; cbn [fst snd]; intros E; inversion E; subst.
  exists dtFrom, dtTo, f, t. repeat split; assumption || reflexivity.
Qed.

End Resolve.

(** C6, as the code has it. For every valid time-range code, the window
    [needsCalculation] resolves has both ends at 00:00:00 UTC of a day
    (for c: once both configured dates parse and the freshness check
    does not fail). For every code but c the window does not end before
    it starts, and for every code but c, ty and typ it starts strictly
    before it ends. *)
Theorem resolved_window_day_aligned (h : host) (C : Calendar) (L : CalendarLaws C)
    (s : site) (table projectSlug timeRange : string) (env : gmap string string)
    (g : Z) (hist : list event) (needs : bool) (dtf dtt : GoTime.Time) (err : option error) :
  In timeRange valid_time_ranges ->
  (needsCalculation h s table projectSlug timeRange env g hist).1.1 = (needs, dtf, dtt, err) ->
  (timeRange = "c" -> err = None) ->
  GoTime.day_aligned dtf /\ GoTime.day_aligned dtt /\
  (timeRange <> "c" -> GoTime.unix_ns dtf <= GoTime.unix_ns dtt) /\
  (~ In timeRange ["c"; "ty"; "typ"] -> GoTime.Before dtf dtt).
Proof.
  intros Hin Hrun Hc.
  assert (Hcases : timeRange = "c" \/
            In timeRange ["7d"; "7dp"; "30d"; "30dp"; "q"; "qp"; "ty"; "typ"; "y"; "yp"; "2y"; "2yp"; "a"]).
  { unfold valid_time_ranges in Hin. cbn in Hin |- *. intuition. }
  destruct Hcases as [-> | Hr].
  - rewrite (Hc eq_refl) in Hrun.
    destruct (needsCalculation_custom h s table projectSlug env g hist needs dtf dtt Hrun)
      as (dtFrom & dtTo & f & t & _ & _ & _ & _ & -> & ->).
    split; [apply TimeFacts.DayStart_aligned | split; [apply TimeFacts.DayStart_aligned |]].
    split; [congruence | intros N; exfalso; apply N; now left].
  - rewrite (needsCalculation_range h s table projectSlug timeRange env g hist Hr) in Hrun.
    cbn [fst snd] in Hrun. inversion Hrun; subst dtf dtt.
    destruct (timeRangeAt_aligned (time_Now h hist) timeRange env Hr) as (A & B & D & E).
    split; [exact A | split; [exact B | split; [intros _; exact D |]]].
    intros N. apply E. intros [<- | [<- | []]]; apply N; cbn; tauto.
Qed.

(** The theorem applies: the 30-day window on 15 March 2024, by calendar
    months, is February 2024. *)
Lemma resolved_window_day_aligned_witness :
  GoTime.day_aligned (GoTime.Date 2024 2 1 0 0 0 0 GoTime.UTC) /\
  GoTime.day_aligned (GoTime.Date 2024 3 1 0 0 0 0 GoTime.UTC) /\
  ("30d" <> "c" -> GoTime.unix_ns (GoTime.Date 2024 2 1 0 0 0 0 GoTime.UTC)
                   <= GoTime.unix_ns (GoTime.Date 2024 3 1 0 0 0 0 GoTime.UTC)) /\
  (~ In "30d" ["c"; "ty"; "typ"] ->
   GoTime.Before (GoTime.Date 2024 2 1 0 0 0 0 GoTime.UTC) (GoTime.Date 2024 3 1 0 0 0 0 GoTime.UTC)).
Proof.
  apply (resolved_window_day_aligned (Samples.host_at 2024 3 15 Samples.one_row 1 "")
           spec_calendar spec_calendar_laws SFreshness "metric_commits" "envoy" "30d" ∅ 0 []
           true _ _ None).
  - unfold valid_time_ranges. cbn. tauto.
  - vm_compute. reflexivity.
  - discriminate.
Defined.

(** C6 as stated fails. With the code c the dates are taken as
    configured: DATE_FROM=2023-11 and DATE_TO=2023-10 resolve to a window
    that ends a month before it starts. With the code ty on January 1 the
    window is empty: it starts and ends at the same midnight. *)
Lemma window_not_always_increasing :
  (needsCalculation (C := spec_calendar) (Samples.host_at 2024 3 15 Samples.one_row 1 "") SFreshness
     "metric_commits" "envoy" "c" {[ "DATE_FROM" := "2023-11"; "DATE_TO" := "2023-10" ]} 0 []).1.1
  = (true, GoTime.Date 2023 11 1 0 0 0 0 GoTime.UTC, GoTime.Date 2023 10 1 0 0 0 0 GoTime.UTC, None)
  /\ GoTime.unix_ns (GoTime.Date 2023 10 1 0 0 0 0 GoTime.UTC)
     < GoTime.unix_ns (GoTime.Date 2023 11 1 0 0 0 0 GoTime.UTC)
  /\ @timeRangeAt spec_calendar (GoTime.Date 2024 1 1 12 0 0 0 GoTime.UTC) "ty" ∅
     = (GoTime.Date 2024 1 1 0 0 0 0 GoTime.UTC, GoTime.Date 2024 1 1 0 0 0 0 GoTime.UTC).
Proof. split; [| split]; vm_compute; reflexivity. Qed.

(** *** The previous period *)

Section Previous.
Context {C : Calendar} {L : CalendarLaws C}.
Import GoTime TimeFacts.

Lemma window_length_days (years months days : Z) (p : bool) (dtt : Time) :
  day_aligned dtt ->
  window_length (shifted p 0 0 days (AddDate dtt 0 0 days, dtt)) = - days * nsPerDay.
Proof.
  intros Ht. pose proof (AddDate_aligned dtt 0 0 days Ht) as Hf.
  unfold window_length. destruct p; cbn [shifted fst snd].
  - pose proof (AddDate_aligned _ 0 0 days Hf) as Hf'.
    rewrite (aligned_day_of _ Hf'), (aligned_day_of _ Hf).
    rewrite !AddDate_days by assumption. lia.
  - rewrite (aligned_day_of _ Hf), (aligned_day_of _ Ht).
    rewrite !AddDate_days by assumption. lia.
Qed.

(** C7, as the code has it. The window of a p code is the window of
    the code without p with both ends moved back by the same step: by
    [AddDate] with 7 days for 7dp, 30 days or one month for 30dp, three
    months for qp, one year for yp and two for 2yp, the step that also
    leads from the end of the unsuffixed window to its start; and for typ
    by the length of the unsuffixed window. So it ends exactly where the
    window of the code without p starts, the two do not overlap, and it
    does not end before it starts. It has the length of the other window
    when the step is a fixed number of days: for 7dp, for 30dp under
    CALC_MONTH_DAILY, and for typ. *)
Theorem previous_window_adjacent (now : Time) (env : gmap string string) (p base : string) :
  In (p, base) previous_of ->
  let w := timeRangeAt now base env in
  let w' := timeRangeAt now p env in
  (if String.eqb p "typ"
   then w' = (Add (fst w) (- window_length w), Add (snd w) (- window_length w))
   else let '(years, months, days) := previous_step p env in
        w' = (AddDate (fst w) years months days, AddDate (snd w) years months days)
        /\ fst w = AddDate (snd w) years months days) /\
  snd w' = fst w /\
  unix_ns (fst w') <= unix_ns (snd w') /\
  (p = "7dp" \/ p = "typ" \/ (p = "30dp" /\ has_key env "CALC_MONTH_DAILY" = true) ->
   window_length w' = window_length w).
Proof.
  intros Hin. cbv zeta.
  assert (Hle : unix_ns (fst (timeRangeAt now p env)) <= unix_ns (snd (timeRangeAt now p env))).
  { apply timeRangeAt_aligned. unfold previous_of in Hin. cbn in Hin |- *.
    repeat (destruct Hin as [Hin | Hin]; [inversion Hin; tauto |]). contradiction. }
  split; [| split; [| split; [exact Hle |]]]; clear Hle;
    unfold previous_of in Hin; cbn in Hin;
    repeat (destruct Hin as [Hin | Hin]; [inversion Hin; subst p base; clear Hin |]);
    try contradiction.
  - open_code. unfold previous_step. cbn [String.eqb Ascii.eqb Bool.eqb].
    destruct (has_key env _); split; reflexivity.
  - open_code. unfold previous_step. cbn [String.eqb Ascii.eqb Bool.eqb].
    destruct (has_key env _); split; reflexivity.
  - open_code. unfold previous_step. cbn [String.eqb Ascii.eqb Bool.eqb].
    destruct (has_key env _); split; reflexivity.
  - open_code. cbn [String.eqb Ascii.eqb Bool.eqb]. unfold window_length. cbn [fst snd].
    destruct (year_to_date now) as (_ & _ & D).
    rewrite Sub_small by lia. reflexivity.
  - open_code. unfold previous_step. cbn [String.eqb Ascii.eqb Bool.eqb].
    destruct (has_key env _); split; reflexivity.
  - open_code. unfold previous_step. cbn [String.eqb Ascii.eqb Bool.eqb].
    destruct (has_key env _); [split; reflexivity |].
    destruct (Z.rem (Year now) 2 =? 1); split; reflexivity.
  - open_code. destruct (has_key env _); reflexivity.
  - open_code. destruct (has_key env _); reflexivity.
  - open_code. destruct (has_key env _); reflexivity.
  - open_code. cbn [fst snd].
    destruct (year_to_date now) as ((Zy & _) & (Zd & _) & D).
    rewrite Sub_small by lia. unfold Add. cbn [unix_ns zone].
    destruct (YearStart now) as [ny zy], (lib.DayStart now) as [nd zd].
    cbn [unix_ns zone] in *. subst zy zd. f_equal. lia.
  - open_code. destruct (has_key env _); reflexivity.
  - open_code. destruct (has_key env _); [reflexivity |].
    destruct (Z.rem (Year now) 2 =? 1); reflexivity.
  - intros _. open_code.
    destruct (has_key env _);
      rewrite (window_length_days 0 0 (-7) true), (window_length_days 0 0 (-7) false);
      auto using DayStart_aligned, WeekStart_aligned.
  - intros [N | [N | [_ Hd]]]; try discriminate.
    open_code. rewrite Hd.
    rewrite (window_length_days 0 0 (-30) true), (window_length_days 0 0 (-30) false);
      auto using DayStart_aligned.
  - intros [N | [N | [N _]]]; discriminate.
  - intros _. open_code. unfold window_length. cbn [fst snd Add unix_ns]. lia.
  - intros [N | [N | [N _]]]; discriminate.
  - intros [N | [N | [N _]]]; discriminate.
Qed.

End Previous.

(** The theorem applies: on 15 March 2024, day by day, the window of 7dp
    is the window of 7d moved back by 7 days, the week before it. *)
Lemma previous_window_adjacent_witness :
  let env : gmap string string := {[ "CALC_WEEK_DAILY" := "1" ]} in
  let w := @timeRangeAt spec_calendar (GoTime.Date 2024 3 15 12 0 0 0 GoTime.UTC) "7d" env in
  let w' := @timeRangeAt spec_calendar (GoTime.Date 2024 3 15 12 0 0 0 GoTime.UTC) "7dp" env in
  (w' = (GoTime.AddDate (fst w) 0 0 (-7), GoTime.AddDate (snd w) 0 0 (-7))
   /\ fst w = GoTime.AddDate (snd w) 0 0 (-7)) /\
  snd w' = fst w /\
  GoTime.unix_ns (fst w') <= GoTime.unix_ns (snd w') /\
  ("7dp" = "7dp" \/ "7dp" = "typ"
   \/ ("7dp" = "30dp" /\ has_key env "CALC_MONTH_DAILY" = true) ->
   window_length w' = window_length w).
Proof.
  apply (@previous_window_adjacent spec_calendar spec_calendar_laws
           (GoTime.Date 2024 3 15 12 0 0 0 GoTime.UTC) {[ "CALC_WEEK_DAILY" := "1" ]} "7dp" "7d").
  unfold previous_of. cbn. tauto.
Defined.

(** C7 as stated fails. On 1 March 2025, with years counted day by day
    (CALC_YEAR_DAILY), the window of y is 1 March 2024 to 1 March 2025,
    365 days; the window of yp is 1 March 2023 to 1 March 2024. Its start
    lies 366 days before the start of the other, not one window-length. *)
Lemma previous_year_is_not_one_length_back :
  let now := GoTime.Date 2025 3 1 12 0 0 0 GoTime.UTC in
  let env : gmap string string := {[ "CALC_YEAR_DAILY" := "1" ]} in
  let w := @timeRangeAt spec_calendar now "y" env in
  let w' := @timeRangeAt spec_calendar now "yp" env in
  w = (GoTime.Date 2024 3 1 0 0 0 0 GoTime.UTC, GoTime.Date 2025 3 1 0 0 0 0 GoTime.UTC) /\
  w' = (GoTime.Date 2023 3 1 0 0 0 0 GoTime.UTC, GoTime.Date 2024 3 1 0 0 0 0 GoTime.UTC) /\
  window_length w = 365 * GoTime.nsPerDay /\
  GoTime.unix_ns (fst w) - GoTime.unix_ns (fst w') = 366 * GoTime.nsPerDay.
Proof. cbv zeta. repeat split; vm_compute; reflexivity. Qed.

(** The same for the other steps of the calendar. By months, on 15 March
    2024: February, 29 days, after January, 31 days. By quarters, on 15
    May 2024: 91 days after 92. By two years, in 2025: 730 days after
    731. *)
Example previous_lengths_differ :
  let days code now := window_length (@timeRangeAt spec_calendar now code ∅) / GoTime.nsPerDay in
  let mar := GoTime.Date 2024 3 15 12 0 0 0 GoTime.UTC in
  let may := GoTime.Date 2024 5 15 12 0 0 0 GoTime.UTC in
  let y25 := GoTime.Date 2025 6 1 12 0 0 0 GoTime.UTC in
  (days "30d" mar, days "30dp" mar) = (29, 31)
  /\ (days "q" may, days "qp" may) = (91, 92)
  /\ (days "y" y25, days "yp" y25) = (366, 365)
  /\ (days "2y" y25, days "2yp" y25) = (730, 731).
Proof. cbv zeta. repeat split; vm_compute; reflexivity. Qed.

(** ** The table materializer: the DDL text of [calculate] *)

Lemma append_cons (x : ascii) (a b : string) : String x a +:+ b = String x (a +:+ b).
Proof. reflexivity. Qed.

Lemma append_assoc (a b c : string) : (a +:+ b) +:+ c = a +:+ (b +:+ c).
Proof.
  induction a as [| x a IH]; [reflexivity |].
  rewrite !append_cons. now f_equal.
Qed.

Lemma append_nil_r (a : string) : a +:+ "" = a.
Proof.
  induction a as [| x a IH]; [reflexivity |].
  rewrite append_cons. now f_equal.
Qed.

Section DDL.
Context (env : gmap string string).

(** One column passes the checks of the loop: its type is known and its
    name is new. *)
Lemma column_loop_cons (l i : Z) (column : ColumnType) (rest : list ColumnType)
    (createTable : string) (colNames : list string) (namesMap : gset string)
    (text : string) (names : list string) :
  column_loop env l i (column :: rest) createTable colNames namesMap = inr (text, names) ->
  snd (dbTypeName column env) = None /\ (Name column ∉ namesMap) /\
  column_loop env l (i + 1) rest
    (createTable +:+ column_definition env column +:+
     (if i <? l then "," +:+ nl else primary_key_clause))
    (colNames ++ [Name column]) ({[ Name column ]} ∪ namesMap) = inr (text, names).
Proof.
  cbn [column_loop]. unfold column_definition.
  destruct (dbTypeName column env) as [tp [err |]]; [discriminate |].
  destruct (bool_decide (Name column ∈ namesMap)) eqn:Hin; [discriminate |].
  apply bool_decide_eq_false in Hin.
  intros H. split; [reflexivity | split; [exact Hin |]].
  rewrite <- H. f_equal. cbn [fst].
  destruct (Nullable column) as [nullable ok]. cbn [fst snd].
  destruct (ok && negb nullable), (i <? l); rewrite ?append_assoc, ?append_nil_r; reflexivity.
Qed.

(** The loop accepts only columns whose names differ from each other and
    from the names seen before. *)
Lemma column_loop_NoDup (l i : Z) (columns : list ColumnType)
    (createTable : string) (colNames : list string) (namesMap : gset string)
    (text : string) (names : list string) :
  column_loop env l i columns createTable colNames namesMap = inr (text, names) ->
  NoDup (Name <$> columns) /\ (forall c, In c columns -> Name c ∉ namesMap).
Proof.
  revert i createTable colNames namesMap.
  induction columns as [| column rest IH]; intros i createTable colNames namesMap H.
  - split; [constructor | intros c []].
  - apply column_loop_cons in H. destruct H as (_ & Hnew & H).
    apply IH in H. destruct H as [Hnd Hrest].
    split.
    + cbn. constructor; [| exact Hnd].
      intros Hin. apply list_elem_of_fmap in Hin. destruct Hin as (c & Hc & Hin).
      apply list_elem_of_In in Hin. apply (Hrest c Hin). rewrite Hc.
      apply elem_of_union_l, elem_of_singleton_2. reflexivity.
    + intros c [<- | Hc]; [exact Hnew |].
      specialize (Hrest c Hc). intros Hn. apply Hrest, elem_of_union_r, Hn.
Qed.

(** The text the loop builds for one column or more: the definitions,
    one per line, and after the last one the primary key and the end of
    the column list. *)
Lemma column_loop_text (l i : Z) (columns : list ColumnType)
    (createTable : string) (colNames : list string) (namesMap : gset string)
    (text : string) (names : list string) :
  columns <> [] -> l = i + Z.of_nat (length columns) - 1 ->
  column_loop env l i columns createTable colNames namesMap = inr (text, names) ->
  text = createTable +:+ column_definitions env columns +:+ primary_key_clause
  /\ names = colNames ++ (Name <$> columns).
Proof.
  revert i createTable colNames namesMap.
  induction columns as [| column rest IH]; intros i createTable colNames namesMap Hne Hl H;
    [contradiction |].
  apply column_loop_cons in H. destruct H as (_ & _ & H).
  destruct rest as [| column' rest'].
  - cbn [length] in Hl. replace (i <? l) with false in H by (symmetry; apply Z.ltb_ge; lia).
    cbn [column_loop] in H. inversion H; subst.
    unfold column_definitions. cbn [fmap list_fmap Strings.Join app].
    rewrite ?append_assoc. split; reflexivity.
  - cbn [length] in Hl. replace (i <? l) with true in H by (symmetry; apply Z.ltb_lt; lia).
    apply IH in H; [| discriminate | cbn [length]; lia].
    destruct H as [-> ->]. split.
    + unfold column_definitions. cbn [fmap list_fmap Strings.Join].
      rewrite ?append_assoc. reflexivity.
    + now rewrite <- app_assoc.
Qed.

End DDL.

(** The DDL text after the column list starts with the index on
    [time_range]. *)
Lemma index_statements_start (table : string) (ppt : bool) (indicesAry : list string) :
  exists rest,
    index_statements table ppt indicesAry
    = "create index if not exists " +:+ String (Ascii.ascii_of_nat 34) EmptyString +:+ table
      +:+ "_time_range_idx" +:+ String (Ascii.ascii_of_nat 34) EmptyString +:+ " on "
      +:+ String (Ascii.ascii_of_nat 34) EmptyString +:+ table
      +:+ String (Ascii.ascii_of_nat 34) EmptyString +:+ "(time_range);"
      +:+ String (Ascii.ascii_of_nat 10) EmptyString +:+ rest.
Proof.
  eexists. unfold index_statements, time_range_index, quoted, Strings.dq, nl.
  rewrite !append_assoc. reflexivity.
Qed.

(** C10. For a result set without columns the DDL text is the opening
    of the [create table] with the six identity columns, the last of them
    followed by its comma, and then at once the first [create index]:
    neither the primary key nor the closing [);] of the column list is
    there, so the statement is left open. With one column or more, the
    text that [calculate] accepts has, after the identity columns and the
    column definitions, the primary-key clause and the closing [);], and
    only then the first [create index]. *)
Theorem primary_key_needs_a_column (table : string) (ppt : bool) (env : gmap string string) :
  let lf := String (Ascii.ascii_of_nat 10) EmptyString in
  let dq := String (Ascii.ascii_of_nat 34) EmptyString in
  let opening :=
    "create table if not exists " +:+ dq +:+ table +:+ dq +:+ "(" +:+ lf +:+
    "  time_range varchar(6) not null," +:+ lf +:+
    "  project_slug text not null," +:+ lf +:+
    "  last_calculated_at timestamp not null," +:+ lf +:+
    "  date_from date not null," +:+ lf +:+
    "  date_to date not null," +:+ lf +:+
    "  row_number int not null," +:+ lf in
  let first_index :=
    "create index if not exists " +:+ dq +:+ table +:+ "_time_range_idx" +:+ dq +:+ " on "
    +:+ dq +:+ table +:+ dq +:+ "(time_range);" +:+ lf in
  (exists rest,
     createTable_text table [] ppt env = inr (opening +:+ first_index +:+ rest, []))
  /\ (forall columns text colNames,
        columns <> [] ->
        createTable_text table columns ppt env = inr (text, colNames) ->
        exists rest,
          text = opening +:+ column_definitions env columns +:+ "," +:+ lf +:+
                 "  primary key(time_range, project_slug, date_from, date_to, row_number)" +:+ lf +:+
                 ");" +:+ lf +:+ first_index +:+ rest).
Proof.
  cbv zeta.
  destruct (index_statements_start table ppt (extra_indices env)) as [rest Hrest].
  assert (Hopen : createTable_head table
                  = "create table if not exists " +:+ String (Ascii.ascii_of_nat 34) EmptyString
                    +:+ table +:+ String (Ascii.ascii_of_nat 34) EmptyString +:+ "("
                    +:+ String (Ascii.ascii_of_nat 10) EmptyString +:+
                    "  time_range varchar(6) not null," +:+ String (Ascii.ascii_of_nat 10) EmptyString +:+
                    "  project_slug text not null," +:+ String (Ascii.ascii_of_nat 10) EmptyString +:+
                    "  last_calculated_at timestamp not null," +:+ String (Ascii.ascii_of_nat 10) EmptyString +:+
                    "  date_from date not null," +:+ String (Ascii.ascii_of_nat 10) EmptyString +:+
                    "  date_to date not null," +:+ String (Ascii.ascii_of_nat 10) EmptyString +:+
                    "  row_number int not null," +:+ String (Ascii.ascii_of_nat 10) EmptyString).
  { unfold createTable_head, quoted, Strings.dq, nl. rewrite !append_assoc. reflexivity. }
  split.
  - exists rest. unfold createTable_text. cbn [length column_loop]. rewrite Hrest, Hopen.
    rewrite !append_assoc. reflexivity.
  - intros columns text colNames Hne H. unfold createTable_text in H.
    destruct (column_loop env _ 0 columns _ [] ∅) as [err | [createTable names]] eqn:E;
      [discriminate |].
    apply column_loop_text in E; [| exact Hne | lia].
    destruct E as [-> ->]. inversion H; subst. exists rest.
    rewrite Hrest, Hopen. unfold primary_key_clause, nl. rewrite !append_assoc. reflexivity.
Qed.

(** A query without columns: the text goes from the last identity column
    straight to the index; with one column it closes the list first. *)
Example primary_key_ex :
  let lf := String (Ascii.ascii_of_nat 10) EmptyString in
  (fst <$> val_of (createTable_text "t" [] true ∅))
  = Some ("create table if not exists " +:+ quoted "t" +:+ "(" +:+ lf +:+
          "  time_range varchar(6) not null," +:+ lf +:+
          "  project_slug text not null," +:+ lf +:+
          "  last_calculated_at timestamp not null," +:+ lf +:+
          "  date_from date not null," +:+ lf +:+
          "  date_to date not null," +:+ lf +:+
          "  row_number int not null," +:+ lf +:+
          "create index if not exists " +:+ quoted "t_time_range_idx" +:+ " on " +:+ quoted "t"
          +:+ "(time_range);" +:+ lf)
  /\ (fst <$> val_of (createTable_text "t" [column_of "cnt" "INT8"] true ∅))
  = Some ("create table if not exists " +:+ quoted "t" +:+ "(" +:+ lf +:+
          "  time_range varchar(6) not null," +:+ lf +:+
          "  project_slug text not null," +:+ lf +:+
          "  last_calculated_at timestamp not null," +:+ lf +:+
          "  date_from date not null," +:+ lf +:+
          "  date_to date not null," +:+ lf +:+
          "  row_number int not null," +:+ lf +:+
          "  cnt bigint," +:+ lf +:+
          "  primary key(time_range, project_slug, date_from, date_to, row_number)" +:+ lf +:+
          ");" +:+ lf +:+
          "create index if not exists " +:+ quoted "t_time_range_idx" +:+ " on " +:+ quoted "t"
          +:+ "(time_range);" +:+ lf).
Proof. cbv zeta. split; vm_compute; reflexivity. Qed.

(** ** The schema inferencer: duplicate column names *)

Lemma createTable_text_NoDup (table : string) (columns : list ColumnType) (ppt : bool)
    (env : gmap string string) (text : string) (colNames : list string) :
  createTable_text table columns ppt env = inr (text, colNames) -> NoDup (Name <$> columns).
Proof.
  unfold createTable_text.
  destruct (column_loop env _ 0 columns _ [] ∅) as [err | [createTable names]] eqn:E;
    [discriminate |].
  intros _. now apply column_loop_NoDup in E.
Qed.

(** C8. When the columns of the source query have two equal names,
    [calculate] returns an error after the query and the reading of its
    column types: it executes no statement, so the destination table is
    neither created nor changed, and [gFinalState] stays as it was. *)
Theorem duplicate_columns_rejected (h : host) (sqlQuery table projectSlug timeRange dtFrom dtTo : string)
    (ppt : bool) (env : gmap string string) (g : Z) (hist : list event)
    (rows : Rows) (columns : list ColumnType) :
  db_Query h hist sqlQuery [] = inr rows ->
  r_columns rows = inr columns ->
  ~ NoDup (Name <$> columns) ->
  exists err,
    calculate h sqlQuery table projectSlug timeRange dtFrom dtTo ppt env g hist
    = (Some err, g, [query_event SSource sqlQuery [] (inr rows); columns_event SSource rows]).
Proof.
  intros Hq Hc Hdup. unfold calculate.
  rewrite run_bind, run_Query, Hq. rewrite run_bind, run_ColumnTypes, Hc.
  destruct (createTable_text table columns ppt env) as [err | [createTable colNames]] eqn:E.
  - exists err. rewrite run_ret. unfold query_event, columns_event. rewrite Hc. reflexivity.
  - exfalso. apply Hdup. eapply createTable_text_NoDup. exact E.
Qed.

(** The theorem applies: two columns named cnt. *)
Lemma duplicate_columns_rejected_witness :
  let rows := {| r_columns := inr [column_of "cnt" "INT8"; column_of "cnt" "TEXT"];
                 r_scans := [inr ["1"; "a"]]; r_err := None |} in
  let h := Samples.host_at 2024 3 15 rows 1 "" in
  exists err,
    calculate h "select 1 as cnt, 'a' as cnt" "metric_commits" "envoy" "30d"
      "'2024-02-01'" "'2024-03-01'" false ∅ 0 []
    = (Some err, 0,
       [query_event SSource "select 1 as cnt, 'a' as cnt" [] (inr rows); columns_event SSource rows]).
Proof.
  cbv zeta.
  apply (duplicate_columns_rejected _ _ _ _ _ _ _ _ _ _ _ _
           [column_of "cnt" "INT8"; column_of "cnt" "TEXT"]).
  - reflexivity.
  - reflexivity.
  - intros N. cbn in N. apply NoDup_cons in N. destruct N as [N _]. apply N. now left.
Defined.
(** ** The freshness statement on a database *)

Lemma append_empty (b : string) : EmptyString +:+ b = b.
Proof. reflexivity. Qed.

Lemma until_append (c : ascii) (t rest : string) :
  has_byte c t = false -> Pg.until c (t +:+ String c rest) = Some (t, rest).
Proof.
  unfold has_byte, bytes. induction t as [| x t IH]; intros H.
  - rewrite append_empty. cbn [Pg.until]. now rewrite Ascii.eqb_refl.
  - cbn in H. apply orb_false_iff in H. destruct H as [Hx Ht].
    rewrite append_cons. cbn [Pg.until]. rewrite Ascii.eqb_sym, Hx, (IH Ht). reflexivity.
Qed.

Lemma strip_append (pre s : string) : Pg.strip pre (pre +:+ s) = Some s.
Proof.
  induction pre as [| x pre IH]; [reflexivity |].
  rewrite append_cons. cbn [Pg.strip]. now rewrite Ascii.eqb_refl.
Qed.

(** PostgreSQL reads the statement of [isCalculated] as a selection of
    [last_calculated_at] from the table, on the four columns of the key,
    each compared with one parameter. *)
Lemma parse_isCalculated_sql (table : string) :
  has_byte (Ascii.ascii_of_nat 34) table = false ->
  Pg.parse (isCalculated_sql table)
  = Some {| Pg.s_column := "last_calculated_at"; Pg.s_table := table;
            Pg.s_where := [("project_slug", 1%nat); ("time_range", 2%nat);
                           ("date_from", 3%nat); ("date_to", 4%nat)] |}.
Proof.
  intros H.
  assert (E : isCalculated_sql table
              = "select " +:+ ("last_calculated_at" +:+ String " "
                  (("from " +:+ Strings.dq) +:+ (table +:+ String (Ascii.ascii_of_nat 34)
                     " where project_slug = $1 and time_range = $2 and date_from = $3 and date_to = $4")))).
  { unfold isCalculated_sql, quoted, Strings.dq. rewrite !append_assoc. reflexivity. }
  rewrite E. unfold Pg.parse.
  rewrite strip_append, (until_append " " "last_calculated_at") by reflexivity.
  rewrite strip_append, (until_append _ _ _ H). reflexivity.
Qed.

(** The rows the statement of [isCalculated] selects: those with the key
    asked for. *)
Lemma selected_key (projectSlug timeRange : string) (dtf dtt : GoTime.Time) (table : string)
    (r : MetricRow) :
  Pg.selected (isCalculated_args projectSlug timeRange dtf dtt)
    {| Pg.s_column := "last_calculated_at"; Pg.s_table := table;
       Pg.s_where := [("project_slug", 1%nat); ("time_range", 2%nat);
                      ("date_from", 3%nat); ("date_to", 4%nat)] |} r = true
  <-> m_project_slug r = projectSlug /\ m_time_range r = timeRange
      /\ GoTime.unix_ns (m_date_from r) = GoTime.unix_ns (lib.DayStart dtf)
      /\ GoTime.unix_ns (m_date_to r) = GoTime.unix_ns (lib.DayStart dtt).
Proof.
  unfold Pg.selected, isCalculated_args. cbn [Pg.s_where forallb].
  change (Pg.holds _ r ("project_slug", 1%nat))
    with (Some (String.eqb (m_project_slug r) projectSlug)).
  change (Pg.holds _ r ("time_range", 2%nat))
    with (Some (String.eqb (m_time_range r) timeRange)).
  change (Pg.holds _ r ("date_from", 3%nat))
    with (Some (GoTime.unix_ns (m_date_from r) =? GoTime.unix_ns (lib.DayStart dtf))).
  change (Pg.holds _ r ("date_to", 4%nat))
    with (Some (GoTime.unix_ns (m_date_to r) =? GoTime.unix_ns (lib.DayStart dtt))).
  cbv beta iota delta [from_option id]. rewrite !andb_true_iff, !String.eqb_eq, !Z.eqb_eq. tauto.
Qed.

(** X25. On a database that answers the statement of [isCalculated] from its
    tables, for a table name without a double quote: "not computed"
    without error when the table does not exist; else "computed" if and
    only if the table has a row with exactly the key (project_slug,
    time_range, date_from, date_to), the two dates at the start of their
    day. The condition comes from the text of the statement, as
    PostgreSQL reads it. *)
Theorem isCalculated_on_tables (h : host) (tables : gmap string (list MetricRow))
    (s : site) (table projectSlug timeRange : string)
    (env : gmap string string) (dtf dtt : GoTime.Time) (g : Z) (hist : list event) :
  has_byte (Ascii.ascii_of_nat 34) table = false ->
  db_Query h hist (isCalculated_sql table) (isCalculated_args projectSlug timeRange dtf dtt)
  = Pg.query tables (isCalculated_sql table) (isCalculated_args projectSlug timeRange dtf dtt) ->
  let result := (isCalculated h s table projectSlug timeRange env dtf dtt g hist).1.1 in
  match tables !! table with
  | None => result = (false, None)
  | Some rows =>
      exists computed, result = (computed, None) /\
      (computed = true <->
       exists r, In r rows /\ m_project_slug r = projectSlug /\ m_time_range r = timeRange
                 /\ GoTime.unix_ns (m_date_from r) = GoTime.unix_ns (lib.DayStart dtf)
                 /\ GoTime.unix_ns (m_date_to r) = GoTime.unix_ns (lib.DayStart dtt))
  end.
Proof.
  intros Hq E. cbv zeta. rewrite isCalculated_result, E. unfold Pg.query.
  rewrite (parse_isCalculated_sql _ Hq). cbn [Pg.s_table].
  destruct (tables !! table) as [rows |]; [| reflexivity].
  change (Pg.valid _ _) with true. cbv iota.
  unfold freshness_of. cbn [r_scans r_err].
  rewrite scans_ok_find by (apply Forall_fmap, Forall_forall; intros; reflexivity).
  eexists. split; [reflexivity |].
  rewrite negb_true_iff, bool_decide_eq_false.
  set (sel := Pg.selected _ _).
  assert (Hsel : forall r, sel r = true <->
            m_project_slug r = projectSlug /\ m_time_range r = timeRange
            /\ GoTime.unix_ns (m_date_from r) = GoTime.unix_ns (lib.DayStart dtf)
            /\ GoTime.unix_ns (m_date_to r) = GoTime.unix_ns (lib.DayStart dtt))
    by (intros r; apply selected_key).
  split.
  - intros N. destruct (List.filter sel rows) as [| r rest] eqn:F; [now contradiction N |].
    assert (Hr : In r (List.filter sel rows)) by (rewrite F; now left).
    apply filter_In in Hr. destruct Hr as [Hin Hk]. exists r. split; [exact Hin |].
    now apply Hsel.
  - intros (r & Hin & Hk) N.
    assert (Hr : In r (List.filter sel rows)) by (apply filter_In; split; [exact Hin | now apply Hsel]).
    destruct (List.filter sel rows); [contradiction | discriminate].
Qed.

(** The theorem applies: the table of the sample database that holds the
    February 2024 computation of envoy. *)
Lemma isCalculated_on_tables_witness :
  let feb := GoTime.Date 2024 2 1 10 30 0 0 GoTime.UTC in
  let mar := GoTime.Date 2024 3 1 0 0 0 0 GoTime.UTC in
  let result := (isCalculated Samples.postgres SFreshness "metric_commits" "envoy" "30d" ∅
                   feb mar 0 []).1.1 in
  match Samples.tables !! "metric_commits" with
  | None => result = (false, None)
  | Some rows =>
      exists computed, result = (computed, None) /\
      (computed = true <->
       exists r, In r rows /\ m_project_slug r = "envoy" /\ m_time_range r = "30d"
                 /\ GoTime.unix_ns (m_date_from r) = GoTime.unix_ns (lib.DayStart feb)
                 /\ GoTime.unix_ns (m_date_to r) = GoTime.unix_ns (lib.DayStart mar))
  end.
Proof.
  cbv zeta. apply (isCalculated_on_tables Samples.postgres Samples.tables); reflexivity.
Defined.

(** On the sample database [isCalculated] finds the February computation
    of envoy, and none for another project, in the empty table and in a
    table that does not exist. *)
Example isCalculated_postgres_ex :
  let feb := GoTime.Date 2024 2 1 10 30 0 0 GoTime.UTC in
  let mar := GoTime.Date 2024 3 1 0 0 0 0 GoTime.UTC in
  let check table projectSlug :=
    (isCalculated Samples.postgres SFreshness table projectSlug "30d" ∅ feb mar 0 []).1.1 in
  check "metric_commits" "envoy" = (true, None)
  /\ check "metric_commits" "cncf" = (false, None)
  /\ check "metric_prs" "envoy" = (false, None)
  /\ check "metric_issues" "envoy" = (false, None).
Proof. cbv zeta. repeat split; vm_compute; reflexivity. Qed.

(** The statement without its conditions would select every row: on the
    sample table, a key that no row has selects nothing, and the same
    statement cut before [where] selects the row of another key. *)
Example where_clause_decides :
  let args := isCalculated_args "cncf" "30d" (GoTime.Date 2024 2 1 0 0 0 0 GoTime.UTC)
                (GoTime.Date 2024 3 1 0 0 0 0 GoTime.UTC) in
  let dq := Strings.dq in
  (r_scans <$> val_of (Pg.query Samples.tables (isCalculated_sql "metric_commits") args)) = Some []
  /\ (length ∘ r_scans <$> val_of (Pg.query Samples.tables
        ("select last_calculated_at from " +:+ dq +:+ "metric_commits" +:+ dq) args)) = Some 1%nat
  /\ err_of (Pg.query Samples.tables (isCalculated_sql "metric_issues") args)
     = Some (PqError "undefined_table").
Proof. cbv zeta. repeat split; vm_compute; reflexivity. Qed.

(** ** The batch upsert engine *)

Section Batches.
Context (h : host).

Lemma exec_batch_run (query : string) (args : list arg) (changes : bool) (g : Z) (hist : list event) :
  exists res evs,
    exec_batch h query args changes g hist
    = (res, g, exec_event SBatch query args (db_Exec h hist query args) :: evs)
    /\ Forall (fun ev => ev_op ev = OpRowsAffected) evs.
Proof.
  unfold exec_batch. rewrite run_bind, run_Exec.
  destruct (db_Exec h hist query args) as [err | rslt].
  - rewrite run_ret. eexists _, []. split; [reflexivity | constructor].
  - rewrite run_bind, run_GetRowsAffected.
    destruct (RowsAffected rslt) as [err | nRows]; rewrite run_ret;
      eexists _, [_]; (split; [reflexivity | repeat constructor]).
Qed.

(** The events of one batch stay within the limit when its arguments do. *)
Lemma exec_batch_within (query : string) (args : list arg) (changes : bool) (g : Z) (hist : list event) :
  Z.of_nat (length args) <= gMaxPlaceholders ->
  Forall within_limit (exec_batch h query args changes g hist).2.
Proof.
  intros Hlen. destruct (exec_batch_run query args changes g hist) as (res & evs & -> & Hevs).
  cbn [snd]. constructor.
  - intros _. exact Hlen.
  - eapply Forall_impl; [exact Hevs |]. intros ev Hop _. unfold bound_parameters. rewrite Hop.
    unfold gMaxPlaceholders. lia.
Qed.

Variables (table projectSlug timeRange dtFrom dtTo : string) (calcDt : GoTime.Time).
Variables (nColumns : nat) (l : Z) (colNames : list string).

Lemma length_scanned (vals : list string) : length (scanned nColumns vals) = nColumns.
Proof.
  unfold scanned. rewrite length_take, length_app, length_replicate. lia.
Qed.

(** The row loop: every batch it executes is within the limit, and when
    it ends without error the rows left over still are. *)
Lemma upsert_rows_within (scans : list (error + list string)) (st : upsert) (g : Z) (hist : list event) :
  upsert_inv nColumns st ->
  let '(res, _, evs) :=
    upsert_rows h table projectSlug timeRange dtFrom dtTo calcDt nColumns l colNames scans st g hist in
  Forall within_limit evs /\ (fst res = None -> upsert_inv nColumns (snd res)).
Proof.
  revert st g hist. induction scans as [| row rest IH]; intros st g hist Hinv.
  - cbn [upsert_rows]. rewrite run_ret. split; [constructor | intros _; exact Hinv].
  - cbn [upsert_rows]. rewrite run_bind, run_Scan.
    assert (Hscan : within_limit {| ev_site := SSource; ev_op := OpScan;
                                    ev_err := err_of row; ev_rows := None |})
      by (intros N; discriminate).
    destruct row as [err | vals].
    + rewrite run_ret. cbn [app]. split; [repeat constructor; exact Hscan | discriminate].
    + destruct Hinv as (Hlen & Hep & Hfit).
      set (ep := if u_ep st =? 0 then Z.of_nat nColumns else u_ep st).
      assert (Eep : ep = Z.of_nat nColumns).
      { subst ep. destruct (Z.eqb_spec (u_ep st) 0); [reflexivity | lia]. }
      set (args := u_args st ++ _ ++ _).
      assert (Hargs : Z.of_nat (length args) = u_p st + (6 + ep)).
      { subst args. rewrite !length_app, length_map, length_scanned. cbn [length]. lia. }
      destruct (gMaxPlaceholders - (6 + ep) <=? u_p st + (6 + ep)) eqn:Hflush.
      * rewrite run_bind.
        pose proof (exec_batch_within
                      (row_text table l colNames (u_query st) (u_p st) +:+ conflict_clause l colNames)
                      args (u_changes st) g
                      (hist ++ [ {| ev_site := SSource; ev_op := OpScan;
                                    ev_err := err_of (inr vals : error + list string);
                                    ev_rows := None |} ])
                      ltac:(lia)) as Hb.
        destruct (exec_batch h _ args (u_changes st) g _) as [[[err changes] g1] e1].
        cbn [snd] in Hb.
        destruct err as [e |].
        -- rewrite run_ret. cbn [app fst snd]. rewrite app_nil_r.
           split; [constructor; assumption | discriminate].
        -- match goal with
           | |- context [upsert_rows _ _ _ _ _ _ _ _ _ _ rest ?st' ?g' ?hist'] =>
               specialize (IH st' g' hist')
           end.
           destruct (upsert_rows _ _ _ _ _ _ _ _ _ _ rest _ g1 _) as [[res g2] e2].
           cbn [app]. destruct IH as [IH1 IH2].
           { unfold upsert_inv. cbn [u_args u_p u_ep length]. lia. }
           split; [constructor; [assumption | apply Forall_app; auto] | exact IH2].
      * match goal with
        | |- context [upsert_rows _ _ _ _ _ _ _ _ _ _ rest ?st' ?g' ?hist'] =>
            specialize (IH st' g' hist')
        end.
        destruct (upsert_rows _ _ _ _ _ _ _ _ _ _ rest _ g _) as [[res g2] e2].
        cbn [app]. destruct IH as [IH1 IH2].
        { unfold upsert_inv. cbn [u_args u_p u_ep length].
          apply Z.leb_gt in Hflush. lia. }
        split; [constructor; assumption | exact IH2].
Qed.

Lemma final_flush_within (st : upsert) (g : Z) (hist : list event) :
  upsert_inv nColumns st ->
  Forall within_limit (final_flush h l colNames st g hist).2.
Proof.
  intros (Hlen & _ & Hfit). unfold final_flush.
  destruct (0 <? Z.of_nat (length (u_args st))); [| rewrite run_ret; constructor].
  rewrite run_bind.
  pose proof (exec_batch_within (u_query st +:+ conflict_clause l colNames) (u_args st)
                (u_changes st) g hist ltac:(lia)) as Hb.
  destruct (exec_batch h _ (u_args st) (u_changes st) g hist) as [[[err changes] g1] e1].
  cbn [snd] in Hb. destruct err; rewrite run_ret; cbn [snd]; now rewrite app_nil_r.
Qed.

End Batches.

(** C3. When one row fits in a statement (6 identity parameters and one
    per column are no more than [gMaxPlaceholders]), every batch that
    [calculate] executes binds at most [gMaxPlaceholders] parameters,
    whatever rows the source query returns and whatever the database
    answers: the check after a row flushes as soon as one more row might
    not fit. *)
Theorem batches_within_placeholder_limit (h : host)
    (sqlQuery table projectSlug timeRange dtFrom dtTo : string)
    (ppt : bool) (env : gmap string string) (g : Z) (hist : list event) :
  (forall rows columns,
     db_Query h hist sqlQuery [] = inr rows -> r_columns rows = inr columns ->
     6 + Z.of_nat (length columns) <= gMaxPlaceholders) ->
  Forall within_limit
    (calculate h sqlQuery table projectSlug timeRange dtFrom dtTo ppt env g hist).2.
Proof.
  intros Hfit. unfold calculate.
  assert (Hother : forall ev, ev_site ev <> SBatch -> within_limit ev)
    by (intros ev N E; contradiction).
  rewrite run_bind, run_Query.
  destruct (db_Query h hist sqlQuery []) as [err | rows] eqn:Hq.
  { rewrite run_ret. cbn [snd app]. constructor; [apply Hother; discriminate | constructor]. }
  rewrite run_bind, run_ColumnTypes.
  destruct (r_columns rows) as [err | columns] eqn:Hc.
  { rewrite run_ret. cbn [snd app]. repeat (constructor; [apply Hother; discriminate |]). constructor. }
  specialize (Hfit rows columns eq_refl Hc).
  destruct (createTable_text table columns ppt env) as [err | [createTable colNames]].
  { rewrite run_ret. cbn [snd app]. repeat (constructor; [apply Hother; discriminate |]). constructor. }
  rewrite run_bind, run_Exec.
  destruct (db_Exec h _ createTable []) as [err | res].
  { rewrite run_ret. cbn [snd app]. repeat (constructor; [apply Hother; discriminate |]). constructor. }
  rewrite run_bind, run_Now. rewrite run_bind.
  match goal with
  | |- context [upsert_rows h ?a ?b ?c ?d ?e ?f ?n ?l ?cn ?scans ?st ?g' ?hist'] =>
      pose proof (upsert_rows_within h a b c d e f n l cn scans st g' hist') as Hloop
  end.
  destruct (upsert_rows h _ _ _ _ _ _ _ _ _ _ _ g _) as [[[err st] g1] e1].
  destruct Hloop as [Hev Hst].
  { unfold upsert_inv, upsert_init. cbn [u_args u_p u_ep length]. lia. }
  cbn [fst snd] in Hst.
  assert (Hhead : forall evs, Forall within_limit evs ->
            Forall within_limit
              ([ {| ev_site := SSource; ev_op := OpQuery sqlQuery [];
                    ev_err := err_of (inr rows : error + Rows); ev_rows := None |} ]
               ++ [ {| ev_site := SSource; ev_op := OpColumnTypes;
                       ev_err := err_of (inr columns : error + list ColumnType); ev_rows := None |} ]
               ++ [ {| ev_site := SCreate; ev_op := OpExec createTable [];
                       ev_err := err_of (inr res : error + Result); ev_rows := None |} ]
               ++ [ {| ev_site := SCalcDt; ev_op := OpNow; ev_err := None; ev_rows := None |} ]
               ++ evs)).
  { intros evs Hevs. cbn [app]. repeat (constructor; [apply Hother; discriminate |]). exact Hevs. }
  assert (Hall : forall evs, Forall (fun ev => ev_site ev <> SBatch) evs -> Forall within_limit evs).
  { intros evs Hevs. eapply Forall_impl; [exact Hevs |]. intros ev N. now apply Hother. }
  destruct err as [e |].
  { rewrite run_ret. cbn [snd]. apply Hhead. now rewrite app_nil_r. }
  rewrite run_bind, run_NextEnd. rewrite run_bind.
  match goal with
  | |- context [final_flush h ?l' ?cn ?st0 ?g' ?hist'] =>
      pose proof (final_flush_within h (length columns) l' cn st0 g' hist' (Hst eq_refl)) as Hfinal
  end.
  destruct (final_flush h _ colNames st g1 _) as [[[err st'] g2] e2].
  cbn [snd] in Hfinal.
  assert (Hnext : Forall within_limit [next_event SSource rows])
    by (apply Hall; repeat constructor; discriminate).
  destruct err as [e |].
  { rewrite run_ret. cbn [snd]. apply Hhead. rewrite app_nil_r.
    repeat (apply Forall_app; split); assumption. }
  rewrite run_bind, run_RowsErr.
  assert (Herr : Forall within_limit
                   [ {| ev_site := SSource; ev_op := OpRowsErr; ev_err := r_err rows; ev_rows := None |} ])
    by (apply Hall; repeat constructor; discriminate).
  destruct (r_err rows) as [e |].
  { rewrite run_ret. cbn [snd]. apply Hhead. rewrite app_nil_r.
    repeat (apply Forall_app; split); assumption. }
  rewrite run_bind.
  assert (Hset : forall g' hist',
            ((if u_changes st' then set_gFinalState 1 else mret tt) g' hist').2 = []).
  { intros g' hist'. destruct (u_changes st'); reflexivity. }
  match goal with
  | |- context [(if u_changes st' then set_gFinalState 1 else mret tt) ?g' ?hist'] =>
      specialize (Hset g' hist');
      destruct ((if u_changes st' then set_gFinalState 1 else mret tt) g' hist') as [[u g3] e3]
  end.
  cbn [snd] in Hset. subst e3. rewrite run_ret. cbn [snd]. apply Hhead.
  rewrite !app_nil_r. repeat (apply Forall_app; split); assumption.
Qed.

(** The theorem applies: one row of two columns. *)
Lemma batches_within_placeholder_limit_witness :
  Forall within_limit
    (calculate (Samples.host_at 2024 3 15 Samples.one_row 1 "")
       "select count(*) as cnt, 'commits' as label" "metric_commits" "envoy" "30d"
       "'2024-02-01'" "'2024-03-01'" false ∅ 0 []).2.
Proof.
  apply batches_within_placeholder_limit.
  intros rows columns Hq Hc. cbn in Hq. inversion Hq; subst rows. cbn in Hc.
  inversion Hc; subst columns. cbn. unfold gMaxPlaceholders. lia.
Defined.

(** ** Maintenance: [supportDelete] *)

Lemma split_go_not_nil (sep : ascii) (s cur : string) : Strings.split_go sep s cur <> [].
Proof.
  revert cur. induction s as [| c r IH]; intros cur; cbn [Strings.split_go].
  - discriminate.
  - destruct (Ascii.eqb c sep); [discriminate | apply IH].
Qed.

(** [strings.Split] never returns an empty slice, so the map built from
    it is never empty: the guard [len(delMap) <= 0] of [supportDelete]
    never holds. *)
Lemma delMap_not_empty (del : string) :
  (Z.of_nat (size (list_to_set (Strings.Split del ",") : gset string)) <=? 0) = false.
Proof.
  apply Z.leb_gt.
  destruct (Strings.Split del ",") as [| k ks] eqn:E.
  - exfalso. exact (split_go_not_nil _ _ _ E).
  - assert (N : size (list_to_set (k :: ks) : gset string) <> 0%nat).
    { apply size_non_empty_iff. cbn [list_to_set]. intros Hempty.
      apply (not_elem_of_empty (C := gset string) k). rewrite <- Hempty.
      apply elem_of_union_l, elem_of_singleton_2. reflexivity. }
    lia.
Qed.

(** C1, where the code departs from it. When DELETE is set and names
    none of tr, ps, df and dt, [supportDelete] collects no condition and
    still executes its statement: [delete from "table"] without a
    where-clause and without parameters. *)
Theorem supportDelete_unknown_keys_delete_all (h : host) (table timeRange projectSlug : string)
    (dtf dtt : GoTime.Time) (env : gmap string string) (del : string) (g : Z) (hist : list event) :
  env !! "DELETE" = Some del -> del <> "" ->
  (forall k, In k ["tr"; "ps"; "df"; "dt"] -> ~ In k (Strings.Split del ",")) ->
  exists deleted evs,
    supportDelete h table timeRange projectSlug dtf dtt env g hist
    = (deleted, g,
       exec_event SDelete ("delete from " +:+ quoted table) []
         (db_Exec h hist ("delete from " +:+ quoted table) []) :: evs).
Proof.
  intros Hdel Hne Hkeys. unfold supportDelete. rewrite Hdel.
  rewrite (proj2 (String.eqb_neq del "") Hne). rewrite delMap_not_empty.
  assert (K : forall k, In k ["tr"; "ps"; "df"; "dt"] ->
            bool_decide (k ∈ (list_to_set (Strings.Split del ",") : gset string)) = false).
  { intros k Hk. apply bool_decide_eq_false_2. rewrite elem_of_list_to_set, list_elem_of_In.
    now apply Hkeys. }
  unfold delete_conds. rewrite !K by (cbn; tauto). cbn [length Z.of_nat Z.ltb Z.compare].
  rewrite run_bind, run_Exec.
  destruct (db_Exec h hist _ []) as [err | res].
  - rewrite run_ret. eexists _, _. reflexivity.
  - rewrite run_bind, run_GetRowsAffected.
    destruct (RowsAffected res); rewrite run_ret; eexists _, _; reflexivity.
Qed.

(** The theorem applies: DELETE=x. *)
Lemma supportDelete_unknown_keys_delete_all_witness :
  exists deleted evs,
    supportDelete (Samples.host_at 2024 3 15 Samples.one_row 1 "")
      "metric_commits" "30d" "envoy"
      (GoTime.Date 2024 2 1 0 0 0 0 GoTime.UTC) (GoTime.Date 2024 3 1 0 0 0 0 GoTime.UTC)
      {[ "DELETE" := "x" ]} 0 []
    = (deleted, 0,
       exec_event SDelete ("delete from " +:+ quoted "metric_commits") []
         (db_Exec (Samples.host_at 2024 3 15 Samples.one_row 1 "") []
            ("delete from " +:+ quoted "metric_commits") []) :: evs).
Proof.
  apply (supportDelete_unknown_keys_delete_all _ _ _ _ _ _ _ "x").
  - reflexivity.
  - discriminate.
  - intros k Hk Hin. cbn in Hk, Hin.
    destruct Hin as [<- | []]. repeat (destruct Hk as [Hk | Hk]; [discriminate |]). exact Hk.
Defined.

(** With a key it knows, [supportDelete] collects a condition, and the
    statement gets its where-clause. *)
Lemma delete_conds_known_key (delMap : gset string) (timeRange projectSlug : string)
    (dtf dtt : GoTime.Time) :
  (exists k, In k ["tr"; "ps"; "df"; "dt"] /\ k ∈ delMap) ->
  fst (delete_conds delMap timeRange projectSlug dtf dtt) <> [].
Proof.
  intros (k & Hk & Hin). unfold delete_conds.
  assert (K : bool_decide ("tr" ∈ delMap) = true \/ bool_decide ("ps" ∈ delMap) = true
              \/ bool_decide ("df" ∈ delMap) = true \/ bool_decide ("dt" ∈ delMap) = true).
  { cbn in Hk. destruct Hk as [<- | [<- | [<- | [<- | []]]]];
      rewrite (bool_decide_eq_true_2 _ Hin); tauto. }
  destruct (bool_decide ("tr" ∈ delMap)), (bool_decide ("ps" ∈ delMap)),
    (bool_decide ("df" ∈ delMap)), (bool_decide ("dt" ∈ delMap));
    cbn; try discriminate.
  destruct K as [K | [K | [K | K]]]; discriminate.
Qed.

Example supportDelete_by_time_range :
  (supportDelete (Samples.host_at 2024 3 15 Samples.one_row 1 "")
     "metric_commits" "30d" "envoy"
     (GoTime.Date 2024 2 1 0 0 0 0 GoTime.UTC) (GoTime.Date 2024 3 1 0 0 0 0 GoTime.UTC)
     {[ "DELETE" := "tr,dt" ]} 0 []).2
  = [ {| ev_site := SDelete;
         ev_op := OpExec ("delete from " +:+ quoted "metric_commits"
                          +:+ " where time_range = $1 and date_to = $2")
                    [AString "30d"; ATime (GoTime.Date 2024 3 1 0 0 0 0 GoTime.UTC)];
         ev_err := None; ev_rows := None |};
      {| ev_site := SDelete; ev_op := OpRowsAffected; ev_err := None; ev_rows := Some 1 |} ].
Proof. vm_compute. reflexivity. Qed.

(** ** Failures: which ones end the run *)

Lemma sound_nil (b : bool) : sound b [].
Proof. left. constructor. Qed.

Lemma sound_app (b : bool) (evs1 evs2 : list event) :
  no_fatal evs1 -> sound b evs2 -> sound b (evs1 ++ evs2).
Proof.
  intros H1 [H2 | (-> & pre & ev & -> & Hpre & Hev)].
  - left. now apply Forall_app.
  - right. split; [reflexivity |]. exists (evs1 ++ pre), ev.
    split; [now rewrite app_assoc | split; [now apply Forall_app | exact Hev]].
Qed.

Lemma sound_cons (b : bool) (ev : event) (evs : list event) :
  fatal ev = false -> sound b evs -> sound b (ev :: evs).
Proof. intros H. apply (sound_app b [ev]). now constructor. Qed.

Lemma sound_fatal (ev : event) : fatal ev = true -> sound true [ev].
Proof. intros H. right. split; [reflexivity |]. exists [], ev. repeat split; [constructor | exact H]. Qed.

Lemma sound_no_error (evs : list event) : sound false evs -> no_fatal evs.
Proof. intros [H | [N _]]; [exact H | discriminate]. Qed.

Lemma quiet_nil (g : Z) : quiet g g [].
Proof. split; [reflexivity | constructor]. Qed.

Lemma quiet_unchanged (g g' : Z) (evs : list event) :
  quiet g g' evs -> existsb changed_rows evs = false.
Proof.
  intros [_ H]. induction H as [| ev evs Hev _ IH]; [reflexivity |].
  cbn [existsb]. rewrite IH, orb_false_r. unfold changed_rows.
  destruct (ev_site ev); try reflexivity. contradiction.
Qed.

Lemma not_failed_not_fatal (ev : event) : ev_err ev = None -> fatal ev = false.
Proof. intros H. unfold fatal, failed. now rewrite H. Qed.

Lemma tolerated_not_fatal (ev : event) : tolerated ev = true -> fatal ev = false.
Proof. intros H. unfold fatal. rewrite H. apply andb_false_r. Qed.

Lemma rechecking_not_fatal (ev : event) : rechecking ev = true -> fatal ev = false.
Proof. intros H. unfold fatal. rewrite H, !orb_true_r. apply andb_false_r. Qed.

Lemma broken_stream_not_fatal (ev : event) : ev_op ev = OpNext -> fatal ev = false.
Proof.
  intros H. unfold fatal, broken_stream. rewrite H.
  destruct (failed ev); [| reflexivity]. cbn. now rewrite orb_true_r.
Qed.

Lemma scans_ok_no_fatal (s : site) (scans : list (error + list string)) :
  scans_ok scans -> no_fatal (scan_event s <$> scans).
Proof.
  intros H. apply Forall_fmap. eapply Forall_impl; [exact H |].
  intros row Hrow. now apply not_failed_not_fatal.
Qed.

Lemma site_tolerated_no_fatal (evs : list event) :
  Forall (fun ev => ev_site ev = SDelete \/ ev_site ev = SCleanup \/ ev_site ev = SRecheck) evs ->
  no_fatal evs.
Proof.
  intros H. eapply Forall_impl; [exact H |]. intros ev Hs.
  destruct Hs as [E | [E | E]].
  - apply tolerated_not_fatal. unfold tolerated. now rewrite E.
  - apply tolerated_not_fatal. unfold tolerated. now rewrite E.
  - apply rechecking_not_fatal. unfold rechecking. now rewrite E.
Qed.

(** The scans up to the first that fails. *)
Lemma scans_until_failure (s : site) (scans : list (error + list string)) (i : nat)
    (row : error + list string) :
  list_find (fun r => is_Some (err_of r)) scans = Some (i, row) ->
  scan_event s <$> take (S i) scans = (scan_event s <$> take i scans) ++ [scan_event s row]
  /\ scans_ok (take i scans) /\ is_Some (err_of row).
Proof.
  intros H. apply list_find_Some in H. destruct H as (Hi & Hrow & Hbefore).
  rewrite (take_S_r _ _ _ Hi), fmap_app. split; [reflexivity | split; [| exact Hrow]].
  apply Forall_lookup. intros j r Hj.
  assert (Hlt : (j < i)%nat).
  { apply lookup_lt_Some in Hj. rewrite length_take in Hj. lia. }
  rewrite lookup_take_lt in Hj by exact Hlt.
  specialize (Hbefore j r Hj Hlt).
  destruct (err_of r) eqn:E; [| reflexivity]. exfalso. apply Hbefore. eauto.
Qed.

Section RunFacts.
Context (h : host) {C : Calendar}.
Import GoTime.

(** [isCalculated] leaves [gFinalState] alone, runs no batch, and
    returns an error right after the first fatal failure. *)
Lemma isCalculated_sound (s : site) (table projectSlug timeRange : string)
    (env : gmap string string) (dtf dtt : Time) (g : Z) (hist : list event) :
  s = SFreshness \/ s = SRecheck ->
  let '(res, g', evs) := isCalculated h s table projectSlug timeRange env dtf dtt g hist in
  quiet g g' evs /\ sound (is_some (snd res)) evs.
Proof.
  intros Hs. rewrite isCalculated_run. cbv zeta.
  assert (Hsite : s <> SBatch) by (destruct Hs as [-> | ->]; discriminate).
  assert (Hscans : forall l, Forall (fun ev => ev_site ev <> SBatch) (scan_event s <$> l)).
  { intros l. apply Forall_fmap, Forall_forall. intros; exact Hsite. }
  destruct (db_Query h hist _ _) as [e | rows] eqn:Hq.
  - split; [split; [reflexivity | repeat constructor; exact Hsite] |].
    cbn [snd]. destruct (is_undefined_table e) eqn:Hu.
    + left. constructor; [| constructor].
      destruct Hs as [-> | ->];
        [apply tolerated_not_fatal; cbn; exact Hu | now apply rechecking_not_fatal].
    + destruct Hs as [-> | ->].
      * apply sound_fatal. unfold fatal, failed, tolerated, missing_table, broken_stream, rechecking.
        cbn. now rewrite Hu.
      * left. constructor; [| constructor]. now apply rechecking_not_fatal.
  - assert (Hqe : fatal (query_event s (isCalculated_sql table)
                           (isCalculated_args projectSlug timeRange dtf dtt) (inr rows)) = false)
      by (now apply not_failed_not_fatal).
    destruct (list_find _ (r_scans rows)) as [[i row] |] eqn:Hfind.
    + destruct (scans_until_failure s _ _ _ Hfind) as (Heq & Hok & [e He]).
      split; [split; [reflexivity | constructor; [exact Hsite | apply Hscans]] |].
      cbn [snd]. rewrite He. cbn [is_some]. apply sound_cons; [exact Hqe |].
      rewrite Heq. destruct Hs as [-> | ->].
      * apply sound_app; [now apply scans_ok_no_fatal |].
        apply sound_fatal. unfold fatal, failed, tolerated, missing_table, broken_stream, rechecking.
        cbn. now rewrite He.
      * left. apply site_tolerated_no_fatal. rewrite <- Heq.
        apply Forall_fmap, Forall_forall. intros; cbn; tauto.
    + assert (Hok : scans_ok (r_scans rows)).
      { apply Forall_forall. intros r Hr. destruct (err_of r) eqn:E; [| reflexivity].
        exfalso. eapply list_find_None in Hfind. rewrite Forall_forall in Hfind.
        apply (Hfind r Hr). rewrite E. eauto. }
      split; [split; [cbn [fst snd]; reflexivity |] |].
      { constructor; [exact Hsite |]. apply Forall_app. split; [apply Hscans |].
        repeat constructor; exact Hsite. }
      cbn [fst snd]. apply sound_cons; [exact Hqe |].
      apply sound_app; [now apply scans_ok_no_fatal |].
      apply sound_cons; [now apply broken_stream_not_fatal |].
      unfold rows_err_event. destruct (r_err rows) as [e |] eqn:He; cbn [snd is_some].
      * destruct Hs as [-> | ->].
        -- apply sound_fatal. reflexivity.
        -- left. constructor; [| constructor]. now apply rechecking_not_fatal.
      * left. constructor; [| constructor]. now apply not_failed_not_fatal.
Qed.

Lemma needsCalculation_sound (s : site) (table projectSlug timeRange : string)
    (env : gmap string string) (g : Z) (hist : list event) :
  s = SFreshness \/ s = SRecheck ->
  let '(res, g', evs) := needsCalculation h s table projectSlug timeRange env g hist in
  quiet g g' evs /\ sound (is_some (snd res)) evs.
Proof.
  intros Hs. unfold needsCalculation.
  destruct (one_of timeRange _).
  - unfold currentTimeRange. rewrite !run_bind, run_Now, run_ret. cbn [app].
    destruct (timeRangeAt _ timeRange env) as [dtf dtt]. rewrite run_bind.
    pose proof (isCalculated_sound s table projectSlug timeRange env dtf dtt g
                  (hist ++ [ {| ev_site := STimeRange; ev_op := OpNow;
                                ev_err := None; ev_rows := None |} ]) Hs) as H.
    destruct (isCalculated h s _ _ _ _ _ _ g _) as [[[isCalc err] g'] evs].
    destruct H as [[-> Hq] Hsound]. cbn [snd] in Hsound.
    destruct err; rewrite run_ret; cbn [snd app]; rewrite app_nil_r;
      (split; [split; [reflexivity | constructor; [discriminate | exact Hq]]
              | apply sound_cons; [reflexivity | exact Hsound]]).
  - destruct (one_of timeRange ["c"]).
    + destruct (env !! "DATE_FROM") as [dtFrom |];
        [| rewrite run_ret; split; [apply quiet_nil | apply sound_nil]].
      destruct (env !! "DATE_TO") as [dtTo |];
        [| rewrite run_ret; split; [apply quiet_nil | apply sound_nil]].
      destruct (lib.TimeParseAny dtFrom) as [f |];
        [| rewrite run_ret; split; [apply quiet_nil | apply sound_nil]].
      destruct (lib.TimeParseAny dtTo) as [t |];
        [| rewrite run_ret; split; [apply quiet_nil | apply sound_nil]].
      rewrite run_bind.
      pose proof (isCalculated_sound s table projectSlug timeRange env
                    (lib.DayStart f) (lib.DayStart t) g hist Hs) as H.
      destruct (isCalculated h s _ _ _ _ _ _ g hist) as [[[isCalc err] g'] evs].
      destruct H as [[-> Hq] Hsound]. cbn [snd] in Hsound.
      destruct err; rewrite run_ret; cbn [snd]; rewrite app_nil_r;
        (split; [split; [reflexivity | exact Hq] | exact Hsound]).
    + rewrite run_ret. split; [apply quiet_nil | apply sound_nil].
Qed.

(** [supportDelete] and [supportCleanup] never stop the run. *)
Lemma supportDelete_sound (table timeRange projectSlug : string) (dtf dtt : Time)
    (env : gmap string string) (g : Z) (hist : list event) :
  let '(_, g', evs) := supportDelete h table timeRange projectSlug dtf dtt env g hist in
  quiet g g' evs /\ no_fatal evs.
Proof.
  unfold supportDelete.
  destruct (env !! "DELETE") as [del |]; [| rewrite run_ret; split; [apply quiet_nil | constructor]].
  destruct (String.eqb del ""); [rewrite run_ret; split; [apply quiet_nil | constructor] |].
  destruct (_ <=? 0); [rewrite run_ret; split; [apply quiet_nil | constructor] |].
  destruct (delete_conds _ timeRange projectSlug dtf dtt) as [conds args].
  rewrite run_bind, run_Exec.
  destruct (db_Exec h hist _ args) as [err | res].
  - rewrite run_ret. split; [split; [reflexivity | repeat constructor; discriminate] |].
    apply site_tolerated_no_fatal. repeat constructor.
  - rewrite run_bind, run_GetRowsAffected.
    destruct (RowsAffected res); rewrite run_ret;
      (split; [split; [reflexivity | repeat constructor; discriminate]
              | apply site_tolerated_no_fatal; repeat constructor]).
Qed.

Lemma supportCleanup_sound (table timeRange projectSlug : string) (dtf dtt : Time)
    (env : gmap string string) (g : Z) (hist : list event) :
  let '(_, g', evs) := supportCleanup h table timeRange projectSlug dtf dtt env g hist in
  quiet g g' evs /\ no_fatal evs.
Proof.
  unfold supportCleanup.
  destruct (env !! "CLEANUP") as [cl |]; [| rewrite run_ret; split; [apply quiet_nil | constructor]].
  destruct (String.eqb cl ""); [rewrite run_ret; split; [apply quiet_nil | constructor] |].
  rewrite run_bind, run_Exec.
  destruct (db_Exec h hist _ _) as [err | res].
  - rewrite run_ret. split; [split; [reflexivity | repeat constructor; discriminate] |].
    apply site_tolerated_no_fatal. constructor; [cbn; tauto | constructor].
  - rewrite run_bind, run_GetRowsAffected. rewrite run_ret.
    split; [split; [reflexivity | repeat constructor; discriminate] |].
    apply site_tolerated_no_fatal.
    constructor; [cbn; tauto | constructor; [cbn; tauto | constructor]].
Qed.

End RunFacts.

Section CalculateFacts.
Context (h : host).

Lemma exec_batch_sound (query : string) (args : list arg) (changes : bool) (g : Z) (hist : list event) :
  let '(res, g', evs) := exec_batch h query args changes g hist in
  g' = g /\ sound (is_some (fst res)) evs /\
  (fst res = None -> snd res = changes || existsb changed_rows evs).
Proof.
  unfold exec_batch. rewrite run_bind, run_Exec.
  destruct (db_Exec h hist query args) as [err | rslt].
  - rewrite run_ret. cbn [app fst snd is_some].
    split; [reflexivity | split; [now apply sound_fatal | discriminate]].
  - rewrite run_bind, run_GetRowsAffected.
    destruct (RowsAffected rslt) as [err | nRows]; rewrite run_ret; cbn [app fst snd is_some err_of val_of].
    + split; [reflexivity | split; [| discriminate]].
      apply sound_cons; [reflexivity | now apply sound_fatal].
    + split; [reflexivity | split; [left; repeat constructor |]].
      intros _. cbn [existsb changed_rows ev_site ev_rows].
      destruct changes, (0 <? nRows); reflexivity.
Qed.

Variables (table projectSlug timeRange dtFrom dtTo : string) (calcDt : GoTime.Time).
Variables (nColumns : nat) (l : Z) (colNames : list string).

Lemma upsert_rows_sound (scans : list (error + list string)) (st : upsert) (g : Z) (hist : list event) :
  let '(res, g', evs) :=
    upsert_rows h table projectSlug timeRange dtFrom dtTo calcDt nColumns l colNames scans st g hist in
  g' = g /\ sound (is_some (fst res)) evs /\
  (fst res = None -> u_changes (snd res) = u_changes st || existsb changed_rows evs).
Proof.
  revert st g hist. induction scans as [| row rest IH]; intros st g hist.
  - cbn [upsert_rows]. rewrite run_ret. cbn [fst snd is_some existsb].
    split; [reflexivity | split; [apply sound_nil | now rewrite orb_false_r]].
  - cbn [upsert_rows]. rewrite run_bind, run_Scan.
    destruct row as [err | vals].
    + rewrite run_ret. cbn [app fst snd is_some].
      split; [reflexivity | split; [now apply sound_fatal | discriminate]].
    + set (ep := if u_ep st =? 0 then Z.of_nat nColumns else u_ep st).
      set (args := u_args st ++ _ ++ _).
      destruct (gMaxPlaceholders - (6 + ep) <=? u_p st + (6 + ep)).
      * rewrite run_bind.
        match goal with
        | |- context [exec_batch h ?q ?a ?c ?g0 ?h0] =>
            pose proof (exec_batch_sound q a c g0 h0) as Hb;
            destruct (exec_batch h q a c g0 h0) as [[[err changes] g1] e1]
        end.
        cbn [fst snd] in Hb. destruct Hb as (-> & Hs & Hc).
        destruct err as [e |].
        -- rewrite run_ret. cbn [app fst snd is_some]. rewrite app_nil_r.
           split; [reflexivity | split; [| discriminate]].
           apply sound_cons; [reflexivity | exact Hs].
        -- match goal with
           | |- context [upsert_rows _ _ _ _ _ _ _ _ _ _ rest ?st' ?g' ?hist'] =>
               specialize (IH st' g' hist');
               destruct (upsert_rows h table projectSlug timeRange dtFrom dtTo calcDt
                           nColumns l colNames rest st' g' hist') as [[res g2] e2]
           end.
           destruct IH as (-> & Hs2 & Hc2). cbn [u_changes] in Hc2.
           split; [reflexivity | split].
           ++ cbn [app]. apply sound_cons; [reflexivity |].
              apply sound_app; [now apply sound_no_error | exact Hs2].
           ++ intros Hn. rewrite (Hc2 Hn), (Hc eq_refl).
              cbn [app existsb]. rewrite existsb_app.
              change (changed_rows {| ev_site := SSource; ev_op := OpScan;
                                      ev_err := err_of (inr vals : error + list string);
                                      ev_rows := None |}) with false.
              cbn [orb]. now rewrite orb_assoc.
      * match goal with
        | |- context [upsert_rows _ _ _ _ _ _ _ _ _ _ rest ?st' ?g' ?hist'] =>
            specialize (IH st' g' hist');
            destruct (upsert_rows h table projectSlug timeRange dtFrom dtTo calcDt
                        nColumns l colNames rest st' g' hist') as [[res g2] e2]
        end.
        destruct IH as (-> & Hs2 & Hc2). cbn [u_changes] in Hc2.
        split; [reflexivity | split].
        -- cbn [app]. apply sound_cons; [reflexivity | exact Hs2].
        -- intros Hn. rewrite (Hc2 Hn). reflexivity.
Qed.

Lemma final_flush_sound (st : upsert) (g : Z) (hist : list event) :
  let '(res, g', evs) := final_flush h l colNames st g hist in
  g' = g /\ sound (is_some (fst res)) evs /\
  (fst res = None -> u_changes (snd res) = u_changes st || existsb changed_rows evs).
Proof.
  unfold final_flush.
  destruct (0 <? Z.of_nat (length (u_args st))).
  - rewrite run_bind.
    pose proof (exec_batch_sound (u_query st +:+ conflict_clause l colNames) (u_args st)
                  (u_changes st) g hist) as Hb.
    destruct (exec_batch h _ (u_args st) (u_changes st) g hist) as [[[err changes] g1] e1].
    cbn [fst snd] in Hb. destruct Hb as (-> & Hs & Hc).
    destruct err as [e |]; rewrite run_ret; cbn [fst snd is_some u_changes]; rewrite app_nil_r.
    + split; [reflexivity | split; [exact Hs | discriminate]].
    + split; [reflexivity | split; [exact Hs | intros _; now apply Hc]].
  - rewrite run_ret. cbn [fst snd is_some existsb].
    split; [reflexivity | split; [apply sound_nil | now rewrite orb_false_r]].
Qed.

End CalculateFacts.

(** [calculate] returns an error right after its first failed call, and
    sets [gFinalState] to 1 exactly when it returns none and a batch
    changed rows. *)
Lemma calculate_sound (h : host) (sqlQuery table projectSlug timeRange dtFrom dtTo : string)
    (ppt : bool) (env : gmap string string) (g : Z) (hist : list event) :
  let '(err, g', evs) :=
    calculate h sqlQuery table projectSlug timeRange dtFrom dtTo ppt env g hist in
  sound (is_some err) evs /\ g' = final_state g err evs.
Proof.
  unfold calculate, final_state.
  rewrite run_bind, run_Query.
  destruct (db_Query h hist sqlQuery []) as [err | rows].
  { rewrite run_ret. cbn [app is_some negb andb]. split; [now apply sound_fatal | reflexivity]. }
  rewrite run_bind, run_ColumnTypes.
  destruct (r_columns rows) as [err | columns].
  { rewrite run_ret. cbn [app is_some negb andb].
    split; [| reflexivity]. apply sound_cons; [reflexivity | now apply sound_fatal]. }
  destruct (createTable_text table columns ppt env) as [err | [createTable colNames]].
  { rewrite run_ret. cbn [app is_some negb andb]. split; [| reflexivity]. left. repeat constructor. }
  rewrite run_bind, run_Exec.
  destruct (db_Exec h _ createTable []) as [err | res].
  { rewrite run_ret. cbn [app is_some negb andb]. split; [| reflexivity].
    do 2 (apply sound_cons; [reflexivity |]). now apply sound_fatal. }
  rewrite run_bind, run_Now. rewrite run_bind.
  match goal with
  | |- context [upsert_rows h ?a ?b ?c ?d ?e ?f ?n ?l ?cn ?scans ?st ?g' ?hist'] =>
      pose proof (upsert_rows_sound h a b c d e f n l cn scans st g' hist') as Hloop;
      destruct (upsert_rows h a b c d e f n l cn scans st g' hist') as [[[err st1] g1] e1]
  end.
  cbn [fst snd] in Hloop. destruct Hloop as (-> & Hs1 & Hc1). cbn [u_changes upsert_init orb] in Hc1.
  destruct err as [e |].
  { rewrite run_ret. cbn [app is_some negb andb]. rewrite app_nil_r. split; [| reflexivity].
    do 4 (apply sound_cons; [reflexivity |]). exact Hs1. }
  specialize (Hc1 eq_refl). apply sound_no_error in Hs1.
  rewrite run_bind, run_NextEnd. rewrite run_bind.
  assert (Hnext : no_fatal [next_event SSource rows])
    by (constructor; [now apply broken_stream_not_fatal | constructor]).
  match goal with
  | |- context [final_flush h ?l ?cn ?st ?g' ?hist'] =>
      pose proof (final_flush_sound h l cn st g' hist') as Hfin;
      destruct (final_flush h l cn st g' hist') as [[[err st2] g2] e2]
  end.
  cbn [fst snd] in Hfin. destruct Hfin as (-> & Hs2 & Hc2).
  destruct err as [e |].
  { rewrite run_ret. cbn [app is_some negb andb]. rewrite app_nil_r. split; [| reflexivity].
    do 4 (apply sound_cons; [reflexivity |]). apply sound_app; [assumption |].
    apply sound_cons; [now apply broken_stream_not_fatal | assumption]. }
  specialize (Hc2 eq_refl). apply sound_no_error in Hs2.
  rewrite run_bind, run_RowsErr.
  destruct (r_err rows) as [e |].
  { rewrite run_ret. cbn [app is_some negb andb]. split; [| reflexivity].
    do 4 (apply sound_cons; [reflexivity |]).
    apply sound_app; [assumption |]. apply sound_cons; [now apply broken_stream_not_fatal |].
    apply sound_app; [assumption |]. now apply sound_fatal. }
  rewrite run_bind.
  assert (Hev : forall tail,
            existsb changed_rows
              ([ {| ev_site := SSource; ev_op := OpQuery sqlQuery [];
                    ev_err := err_of (inr rows : error + Rows); ev_rows := None |} ]
               ++ [ {| ev_site := SSource; ev_op := OpColumnTypes;
                       ev_err := err_of (inr columns : error + list ColumnType); ev_rows := None |} ]
               ++ [ {| ev_site := SCreate; ev_op := OpExec createTable [];
                       ev_err := err_of (inr res : error + Result); ev_rows := None |} ]
               ++ [ {| ev_site := SCalcDt; ev_op := OpNow; ev_err := None; ev_rows := None |} ]
               ++ e1 ++ [next_event SSource rows] ++ e2
               ++ [ {| ev_site := SSource; ev_op := OpRowsErr; ev_err := None; ev_rows := None |} ]
               ++ tail)
            = u_changes st2 || existsb changed_rows tail).
  { intros tail. cbn [app existsb]. rewrite !existsb_app. cbn [existsb].
    change (changed_rows {| ev_site := SSource; ev_op := OpQuery sqlQuery [];
                            ev_err := err_of (inr rows : error + Rows); ev_rows := None |}) with false.
    change (changed_rows {| ev_site := SSource; ev_op := OpColumnTypes;
                            ev_err := err_of (inr columns : error + list ColumnType);
                            ev_rows := None |}) with false.
    change (changed_rows {| ev_site := SCreate; ev_op := OpExec createTable [];
                            ev_err := err_of (inr res : error + Result); ev_rows := None |}) with false.
    change (changed_rows {| ev_site := SCalcDt; ev_op := OpNow; ev_err := None; ev_rows := None |})
      with false.
    change (changed_rows {| ev_site := SSource; ev_op := OpRowsErr; ev_err := None; ev_rows := None |})
      with false.
    change (changed_rows (next_event SSource rows)) with false.
    cbn [orb]. rewrite Hc2, Hc1, ?existsb_app. cbn [existsb].
    change (changed_rows {| ev_site := SSource; ev_op := OpRowsErr; ev_err := None; ev_rows := None |})
      with false.
    cbn [orb]. now rewrite ?orb_assoc. }
  assert (Hsound : sound false
            ([ {| ev_site := SSource; ev_op := OpQuery sqlQuery [];
                  ev_err := err_of (inr rows : error + Rows); ev_rows := None |} ]
             ++ [ {| ev_site := SSource; ev_op := OpColumnTypes;
                     ev_err := err_of (inr columns : error + list ColumnType); ev_rows := None |} ]
             ++ [ {| ev_site := SCreate; ev_op := OpExec createTable [];
                     ev_err := err_of (inr res : error + Result); ev_rows := None |} ]
             ++ [ {| ev_site := SCalcDt; ev_op := OpNow; ev_err := None; ev_rows := None |} ]
             ++ e1 ++ [next_event SSource rows] ++ e2
             ++ [ {| ev_site := SSource; ev_op := OpRowsErr; ev_err := None; ev_rows := None |} ]
             ++ [])).
  { cbn [app]. do 4 (apply sound_cons; [reflexivity |]).
    apply sound_app; [assumption |]. apply sound_cons; [now apply broken_stream_not_fatal |].
    apply sound_app; [assumption |].
    left. repeat constructor. }
  specialize (Hev []). cbn [existsb] in Hev. rewrite orb_false_r in Hev.
  destruct (u_changes st2) eqn:Hch.
  - unfold set_gFinalState. rewrite run_ret. cbn [is_some negb andb].
    change ([] ++ [] : list event) with ([] : list event).
    split; [exact Hsound |]. now rewrite Hev.
  - rewrite !run_ret. cbn [is_some negb andb].
    change ([] ++ [] : list event) with ([] : list event).
    split; [exact Hsound |]. now rewrite Hev.
Qed.

(** ** The whole run: [calcMetric] and [main] *)

Lemma wp_ret {A} (a : A) (g : Z) (hist : list event) (Q : A -> Z -> list event -> Prop) :
  Q a g [] -> wp (mret a) g hist Q.
Proof. intros H. exact H. Qed.

Lemma wp_bind {A B} (m : M A) (f : A -> M B) (g : Z) (hist : list event)
    (Q : B -> Z -> list event -> Prop) :
  wp m g hist (fun a g1 e1 => wp (f a) g1 (hist ++ e1) (fun b g2 e2 => Q b g2 (e1 ++ e2))) ->
  wp (m ≫= f) g hist Q.
Proof.
  unfold wp. rewrite run_bind. destruct (m g hist) as [[a g1] e1].
  destruct (f a g1 (hist ++ e1)) as [[b g2] e2]. auto.
Qed.

Lemma wp_mono {A} (m : M A) (g : Z) (hist : list event) (P Q : A -> Z -> list event -> Prop) :
  wp m g hist P -> (forall a g' evs, P a g' evs -> Q a g' evs) -> wp m g hist Q.
Proof. unfold wp. destruct (m g hist) as [[a g'] evs]. auto. Qed.

Lemma final_state_quiet (g g1 : Z) (err : option error) (e1 e2 : list event) :
  quiet g g1 e1 -> final_state g1 err e2 = final_state g err (e1 ++ e2).
Proof.
  intros Hq. unfold final_state. rewrite existsb_app, (quiet_unchanged _ _ _ Hq).
  destruct Hq as [-> _]. reflexivity.
Qed.

(** A quiet step without fatal failure in front of a computation. *)
Lemma run_spec_shift (g g1 g' : Z) (err : option error) (e1 e2 : list event) :
  quiet g g1 e1 -> no_fatal e1 -> run_spec g1 err g' e2 -> run_spec g err g' (e1 ++ e2).
Proof.
  intros Hq Hn [Hs ->]. split; [now apply sound_app | now apply final_state_quiet].
Qed.

(** A quiet step that fails, the error returned at once. *)
Lemma run_spec_stop (g g1 : Z) (e : error) (e1 : list event) :
  quiet g g1 e1 -> sound true e1 -> run_spec g (Some e) g1 (e1 ++ []).
Proof.
  intros [-> _] Hs. rewrite app_nil_r. split; [exact Hs | reflexivity].
Qed.

Lemma run_spec_done (g : Z) (err : option error) : run_spec g err g [].
Proof.
  split; [apply sound_nil |]. unfold final_state. cbn. now rewrite andb_false_r.
Qed.

Section WholeRun.
Context (h : host) {C : Calendar}.

Lemma isCalculated_recheck (table projectSlug timeRange : string)
    (env : gmap string string) (dtf dtt : GoTime.Time) (g : Z) (hist : list event) :
  no_fatal (isCalculated h SRecheck table projectSlug timeRange env dtf dtt g hist).2.
Proof.
  rewrite isCalculated_run. cbv zeta. apply site_tolerated_no_fatal.
  assert (Hscans : forall l,
            Forall (fun ev => ev_site ev = SDelete \/ ev_site ev = SCleanup \/ ev_site ev = SRecheck)
              (scan_event SRecheck <$> l)).
  { intros l. apply Forall_fmap, Forall_forall. intros; cbn; tauto. }
  destruct (db_Query h hist _ _) as [e | rows].
  - cbn [snd]. constructor; [cbn; tauto | constructor].
  - destruct (list_find _ _) as [[i row] |].
    + cbn [snd]. constructor; [cbn; tauto | apply Hscans].
    + cbn [snd]. constructor; [cbn; tauto |]. apply Forall_app.
      split; [apply Hscans | repeat constructor; cbn; tauto].
Qed.

(** The freshness check after a delete: whatever fails in it is passed
    over. *)
Lemma needsCalculation_recheck (table projectSlug timeRange : string)
    (env : gmap string string) (g : Z) (hist : list event) :
  wp (needsCalculation h SRecheck table projectSlug timeRange env) g hist
     (fun _ g' evs => quiet g g' evs /\ no_fatal evs).
Proof.
  pose proof (needsCalculation_sound h SRecheck table projectSlug timeRange env g hist
                ltac:(now right)) as Hs.
  unfold wp. unfold needsCalculation in *.
  destruct (one_of timeRange _).
  - unfold currentTimeRange in *. rewrite !run_bind, run_Now, run_ret in *. cbn [app] in *.
    destruct (timeRangeAt _ timeRange env) as [dtf dtt]. rewrite run_bind in *.
    pose proof (isCalculated_recheck table projectSlug timeRange env dtf dtt g
                  (hist ++ [ {| ev_site := STimeRange; ev_op := OpNow;
                                ev_err := None; ev_rows := None |} ])) as Hn.
    destruct (isCalculated h SRecheck _ _ _ _ _ _ g _) as [[[isCalc err] g'] evs].
    cbn [snd] in Hn.
    destruct err; rewrite run_ret in *; cbn [app] in *; rewrite app_nil_r in *;
      (split; [tauto | constructor; [reflexivity | exact Hn]]).
  - destruct (one_of timeRange ["c"]).
    + destruct (env !! "DATE_FROM") as [dtFrom |];
        [| rewrite run_ret in *; split; [tauto | constructor]].
      destruct (env !! "DATE_TO") as [dtTo |];
        [| rewrite run_ret in *; split; [tauto | constructor]].
      destruct (lib.TimeParseAny dtFrom) as [f |];
        [| rewrite run_ret in *; split; [tauto | constructor]].
      destruct (lib.TimeParseAny dtTo) as [t |];
        [| rewrite run_ret in *; split; [tauto | constructor]].
      rewrite run_bind in *.
      pose proof (isCalculated_recheck table projectSlug timeRange env
                    (lib.DayStart f) (lib.DayStart t) g hist) as Hn.
      destruct (isCalculated h SRecheck _ _ _ _ _ _ g hist) as [[[isCalc err] g'] evs].
      cbn [snd] in Hn.
      destruct err; rewrite run_ret in *; rewrite app_nil_r in *; (split; [tauto | exact Hn]).
    + rewrite run_ret in *. split; [tauto | constructor].
Qed.

(** [calcMetric] returns an error right after the first fatal failure,
    and sets [gFinalState] to 1 exactly when it returns no error and a
    batch changed rows. *)
Lemma calcMetric_sound (environ : list string) (g : Z) (hist : list event) :
  wp (calcMetric h environ) g hist (run_spec g).
Proof.
  unfold calcMetric.
  set (env := parse_environ environ).
  destruct (missing_required env); [apply wp_ret, run_spec_done |].
  (* sql.Open *)
  apply wp_bind. unfold wp at 1. rewrite run_Open.
  destruct (sql_Open h hist _) as [err |].
  { apply wp_ret. apply run_spec_stop; [split; [reflexivity | repeat constructor; discriminate] |].
    now apply sound_fatal. }
  apply (wp_mono _ _ _ (run_spec g));
    [| intros a g' evs H; apply (run_spec_shift g g);
       [split; [reflexivity | repeat constructor; discriminate]
       | repeat constructor | exact H]].
  (* drop table *)
  apply wp_bind.
  apply (wp_mono _ _ _ (fun e g1 e1 => quiet g g1 e1 /\ sound (is_some e) e1)).
  { destruct (has_key env "DROP").
    - apply wp_bind. unfold wp at 1. rewrite run_Exec. apply wp_ret. rewrite app_nil_r.
      split; [split; [reflexivity | repeat constructor; discriminate] |].
      destruct (db_Exec h _ _ []) as [err | res]; [now apply sound_fatal | left; repeat constructor].
    - apply wp_ret. split; [apply quiet_nil | apply sound_nil]. }
  intros e g1 e1 [Hq1 Hs1].
  destruct e as [err |]; [apply wp_ret; now apply run_spec_stop |].
  apply (wp_mono _ _ _ (run_spec g1));
    [| intros a g' evs H; apply (run_spec_shift g g1);
       [exact Hq1 | now apply sound_no_error | exact H]].
  clear Hs1 Hq1.
  (* needsCalculation *)
  apply wp_bind.
  eapply wp_mono; [apply (needsCalculation_sound h SFreshness); now left |].
  intros [[[needsCalc dtf] dtt] err] g2 e2 [Hq2 Hs2]. cbn [snd] in Hs2.
  destruct err as [e |]; [apply wp_ret; now apply run_spec_stop |].
  apply (wp_mono _ _ _ (run_spec g2));
    [| intros a g' evs H; apply (run_spec_shift g1 g2);
       [exact Hq2 | now apply sound_no_error | exact H]].
  clear Hs2 Hq2.
  (* supportDelete *)
  apply wp_bind.
  eapply wp_mono; [apply (supportDelete_sound h) |].
  intros deleted g3 e3 [Hq3 Hn3].
  apply (wp_mono _ _ _ (run_spec g3));
    [| intros a g' evs H; apply (run_spec_shift g2 g3); [exact Hq3 | exact Hn3 | exact H]].
  clear Hq3 Hn3.
  (* the freshness check again *)
  apply wp_bind.
  apply (wp_mono _ _ _ (fun _ g4 e4 => quiet g3 g4 e4 /\ no_fatal e4)).
  { destruct deleted.
    - apply wp_bind. eapply wp_mono; [apply needsCalculation_recheck |].
      intros [[[n f] t] e] g4 e4 [Hq4 Hn4]. apply wp_ret. now rewrite app_nil_r.
    - apply wp_ret. split; [apply quiet_nil | constructor]. }
  intros [[needsCalc' dtf'] dtt'] g4 e4 [Hq4 Hn4].
  apply (wp_mono _ _ _ (run_spec g4));
    [| intros a g' evs H; apply (run_spec_shift g3 g4); [exact Hq4 | exact Hn4 | exact H]].
  clear Hq4 Hn4.
  destruct (negb (if negb needsCalc' then has_key env "FORCE_CALC" else needsCalc'));
    [apply wp_ret, run_spec_done |].
  (* the query template *)
  apply wp_bind. unfold wp at 1. rewrite run_ReadFile.
  destruct (ioutil_ReadFile h _ _) as [err | contents].
  { apply wp_ret. apply run_spec_stop; [split; [reflexivity | repeat constructor; discriminate] |].
    now apply sound_fatal. }
  apply (wp_mono _ _ _ (run_spec g4));
    [| intros a g' evs H; apply (run_spec_shift g4 g4);
       [split; [reflexivity | repeat constructor; discriminate]
       | repeat constructor | exact H]].
  (* calculate *)
  apply wp_bind.
  eapply wp_mono; [apply calculate_sound |].
  intros err g5 e5 [Hs5 Hg5].
  destruct err as [e |].
  { apply wp_ret. rewrite app_nil_r. split; [exact Hs5 | exact Hg5]. }
  (* supportCleanup *)
  apply wp_bind.
  eapply wp_mono; [apply (supportCleanup_sound h) |].
  intros [] g6 e6 [[-> Hq6] Hn6]. apply wp_ret. rewrite app_nil_r.
  split.
  - apply sound_app; [now apply sound_no_error |]. now left.
  - rewrite Hg5. unfold final_state. cbn [is_some negb andb].
    rewrite existsb_app.
    rewrite (quiet_unchanged g4 g4 e6) by (split; [reflexivity | exact Hq6]).
    now rewrite orb_false_r.
Qed.

End WholeRun.

Section Main.
Context (h : host) (C : Calendar).

(** [main]: the clock, [calcMetric], the clock again, and the exit code
    from the error and [gFinalState]. *)
Lemma main_run (environ : list string) (g : Z) (hist : list event) :
  main h environ g hist
  = let '(err, g1, evs) := calcMetric h environ g (hist ++ [clock_event SMain]) in
    let g2 := if is_some err then -1 else g1 in
    (if is_some err then 1 else if g2 =? 0 then 66 else 0,
     g2, clock_event SMain :: evs ++ [clock_event SMain]).
Proof.
  unfold main. rewrite run_bind, run_Now. rewrite run_bind.
  fold (clock_event SMain).
  destruct (calcMetric h environ g (hist ++ [clock_event SMain])) as [[err g1] evs].
  destruct err as [e |].
  - reflexivity.
  - cbn [is_some].
    cbv [mbind M_bind bind mret M_ret ret Now history emit get_gFinalState].
    change (0 =? 0) with true. cbn [negb andb].
    destruct (g1 =? 0); reflexivity.
Qed.

(** The exit code and the events of a run, from [calcMetric]. *)
Lemma run_calcMetric (environ : list string) :
  let '(err, g1, evs) := calcMetric h environ 0 [clock_event SMain] in
  run h C environ
  = (if is_some err then 1 else if existsb changed_rows evs then 0 else 66,
     clock_event SMain :: evs ++ [clock_event SMain])
  /\ sound (is_some err) evs.
Proof.
  unfold run. rewrite main_run. cbn [app].
  pose proof (calcMetric_sound h environ 0 [clock_event SMain]) as Hs. unfold wp in Hs.
  destruct (calcMetric h environ 0 [clock_event SMain]) as [[err g1] evs].
  destruct Hs as [Hs ->]. split; [| exact Hs].
  unfold final_state. destruct err as [e |]; cbn [is_some negb andb]; [reflexivity |].
  destruct (existsb changed_rows evs); reflexivity.
Qed.

Lemma changed_rows_trace (evs : list event) :
  existsb changed_rows (clock_event SMain :: evs ++ [clock_event SMain])
  = existsb changed_rows evs.
Proof. cbn [existsb]. rewrite existsb_app. cbn. now rewrite orb_false_r. Qed.

End Main.

(** C4, as the code has it. The exit code is 1 exactly when [calcMetric]
    returns an error. It is 0 exactly when [calcMetric] returns no error
    and some batch of the upsert reported at least one affected row. It
    is 66 exactly when [calcMetric] returns no error and no batch reported
    an affected row: nothing had to be computed, or the computation ran
    and changed no row. *)
Theorem exit_code_contract (h : host) (C : Calendar) (environ : list string) :
  let err := (calcMetric h environ 0 [clock_event SMain]).1.1 in
  let code := (run h C environ).1 in
  let trace := (run h C environ).2 in
  (code = 1 <-> err <> None) /\
  (code = 0 <-> err = None /\ existsb changed_rows trace = true) /\
  (code = 66 <-> err = None /\ existsb changed_rows trace = false).
Proof.
  cbv zeta. pose proof (run_calcMetric h C environ) as H.
  destruct (calcMetric h environ 0 [clock_event SMain]) as [[err g1] evs].
  destruct H as [-> _]. cbn [fst snd]. rewrite changed_rows_trace.
  destruct err as [e |]; cbn [is_some].
  - repeat split; try congruence; try lia; intros [N _]; discriminate.
  - destruct (existsb changed_rows evs); repeat split; try congruence; try lia;
      intros H; try (destruct H; discriminate); try (exfalso; now apply H).
Qed.

(** C4 as stated fails. The destination table does not exist and the
    source query returns no row: the computation is performed (the table
    is created) and succeeds, and the exit code is 66, not 0. The same
    happens when the query returns a row and the database reports no
    affected row. *)
Lemma computed_but_exit_66 :
  let empty := run (Samples.host_at 2024 3 15 Samples.no_rows 1 "") spec_calendar Samples.environ in
  let unchanged := run (Samples.host_at 2024 3 15 Samples.one_row 0 "") spec_calendar Samples.environ in
  (@calcMetric (Samples.host_at 2024 3 15 Samples.no_rows 1 "") spec_calendar
     Samples.environ 0 [clock_event SMain]).1.1 = None
  /\ computation_performed empty.2 = true /\ empty.1 = 66
  /\ computation_performed unchanged.2 = true /\ unchanged.1 = 66.
Proof. cbv zeta. repeat split; vm_compute; reflexivity. Qed.

(** * Further properties of the code *)

(** ** Identifiers: [toDBIdentifier] *)

Lemma lower_byte_dash (c : ascii) :
  Ascii.eqb (Strings.lower_byte c) "-" = Ascii.eqb c "-".
Proof. destruct c as [[] [] [] [] [] [] [] []]; reflexivity. Qed.

Lemma identifier_byte_idem (c : ascii) :
  is_ascii c = true -> identifier_byte (identifier_byte c) = identifier_byte c.
Proof. destruct c as [[] [] [] [] [] [] [] []]; intros H; try reflexivity; discriminate H. Qed.

Lemma identifier_byte_clean (c : ascii) :
  is_ascii c = true ->
  identifier_byte c <> "-"%char /\ is_upper (identifier_byte c) = false
  /\ is_ascii (identifier_byte c) = true.
Proof.
  destruct c as [[] [] [] [] [] [] [] []]; intros H; try discriminate H;
    (split; [discriminate | split; reflexivity]).
Qed.

Lemma prefix_byte (c d : ascii) (r : string) :
  String.prefix (String c EmptyString) (String d r) = Ascii.eqb d c.
Proof.
  cbn. destruct (ascii_dec c d) as [-> | N].
  - rewrite Ascii.eqb_refl. now destruct r.
  - symmetry. apply Ascii.eqb_neq. congruence.
Qed.

(** [toDBIdentifier] works byte by byte. *)
Lemma toDBIdentifier_cons (c : ascii) (r : string) :
  toDBIdentifier (String c r) = String (identifier_byte c) (toDBIdentifier r).
Proof.
  unfold toDBIdentifier, Strings.Replace. cbn [Strings.ToLower Strings.replace_go].
  rewrite prefix_byte, lower_byte_dash. unfold identifier_byte.
  destruct (Ascii.eqb c "-"); reflexivity.
Qed.

(** X1. On ASCII input [toDBIdentifier] is a byte-for-byte translation: a
    dash becomes an underscore, a letter A to Z its lower case, and every
    other byte (digits, dots, spaces, quotes) stays. *)
Theorem toDBIdentifier_bytes (a : string) :
  Forall (fun c => is_ascii c = true) (bytes a) ->
  bytes (toDBIdentifier a) = identifier_byte <$> bytes a.
Proof.
  intros _. induction a as [| c r IH]; [reflexivity |].
  rewrite toDBIdentifier_cons. unfold bytes in *. cbn. now rewrite IH.
Qed.

(** The theorem applies: a project name with a dash and a quote. *)
Lemma toDBIdentifier_bytes_witness :
  bytes (toDBIdentifier "Cloud-Native's") = identifier_byte <$> bytes "Cloud-Native's".
Proof.
  apply toDBIdentifier_bytes. unfold bytes. cbn.
  repeat (constructor; [reflexivity |]). constructor.
Defined.

(** X2. An identifier made by [toDBIdentifier] from ASCII input holds no dash
    and no upper-case letter, and [toDBIdentifier] leaves it as it is. *)
Theorem toDBIdentifier_idempotent (a : string) :
  Forall (fun c => is_ascii c = true) (bytes a) ->
  Forall (fun c => c <> "-"%char /\ is_upper c = false) (bytes (toDBIdentifier a)) /\
  toDBIdentifier (toDBIdentifier a) = toDBIdentifier a.
Proof.
  induction a as [| c r IH]; intros H.
  - split; [constructor | reflexivity].
  - unfold bytes in H. cbn in H. apply Forall_cons in H as [Hc Hr].
    destruct (IH Hr) as [IH1 IH2].
    rewrite !toDBIdentifier_cons. split.
    + unfold bytes. cbn. constructor; [| exact IH1].
      destruct (identifier_byte_clean c Hc) as (? & ? & _). now split.
    + now rewrite identifier_byte_idem, IH2.
Qed.

(** The theorem applies: a project name with a dash, a dot and upper-case letters. *)
Lemma toDBIdentifier_idempotent_witness :
  Forall (fun c => c <> "-"%char /\ is_upper c = false)
    (bytes (toDBIdentifier "Cloud-Native.Foundation")) /\
  toDBIdentifier (toDBIdentifier "Cloud-Native.Foundation")
  = toDBIdentifier "Cloud-Native.Foundation".
Proof.
  apply toDBIdentifier_idempotent. unfold bytes. cbn.
  repeat (constructor; [reflexivity |]). constructor.
Defined.

(** ** The configuration: the loop of [calcMetric] over [os.Environ()] *)

Lemma rev_app_append (a b : string) : String.rev_app a b = String.rev a +:+ b.
Proof.
  unfold String.rev. revert b. induction a as [| c a IH]; intros b; [reflexivity |].
  cbn [String.rev_app]. rewrite (IH (String c b)), (IH (String c EmptyString)).
  now rewrite append_assoc.
Qed.

Lemma Join_cons (x : string) (l : list string) (sep : string) :
  l <> [] -> Strings.Join (x :: l) sep = x +:+ sep +:+ Strings.Join l sep.
Proof. destruct l; [congruence | reflexivity]. Qed.

(** [strings.Join] undoes [strings.Split]. *)
Lemma Join_split_go (sep : ascii) (s cur : string) :
  Strings.Join (Strings.split_go sep s cur) (String sep EmptyString) = String.rev_app cur s.
Proof.
  revert cur. induction s as [| c r IH]; intros cur; cbn [Strings.split_go].
  - cbn [Strings.Join]. reflexivity.
  - destruct (Ascii.eqb_spec c sep) as [-> | N].
    + rewrite Join_cons by apply split_go_not_nil.
      rewrite IH. cbn [String.rev_app]. now rewrite (rev_app_append cur).
    + rewrite IH. reflexivity.
Qed.

(** The first piece of a split holds what was read before. *)
Lemma split_go_head (sep : ascii) (s cur : string) :
  exists x rest, Strings.split_go sep s cur = String.rev_app cur x :: rest.
Proof.
  revert cur. induction s as [| c r IH]; intros cur; cbn [Strings.split_go].
  - exists EmptyString, []. reflexivity.
  - destruct (Ascii.eqb c sep).
    + exists EmptyString, (Strings.split_go sep r EmptyString). reflexivity.
    + destruct (IH (String c cur)) as (x & rest & ->). exists (String c x), rest. reflexivity.
Qed.

(** A key without the separator is the first piece. *)
Lemma split_go_key (sep : ascii) (key value cur : string) :
  has_byte sep key = false ->
  Strings.split_go sep (key +:+ String sep value) cur
  = String.rev_app cur key :: Strings.split_go sep value EmptyString.
Proof.
  revert cur. induction key as [| c r IH]; intros cur H.
  - change (EmptyString +:+ String sep value) with (String sep value).
    cbn [Strings.split_go]. now rewrite Ascii.eqb_refl.
  - unfold has_byte, bytes in H. cbn in H. apply orb_false_elim in H as [Hc Hr].
    rewrite append_cons. cbn [Strings.split_go]. rewrite Ascii.eqb_sym, Hc.
    rewrite (IH _ Hr). reflexivity.
Qed.

Lemma prefix_cons (a b : ascii) (s1 s2 : string) :
  String.prefix (String a s1) (String b s2) = Ascii.eqb a b && String.prefix s1 s2.
Proof.
  cbn [String.prefix]. destruct (ascii_dec a b) as [-> | N].
  - now rewrite Ascii.eqb_refl.
  - apply Ascii.eqb_neq in N. now rewrite N.
Qed.

Lemma prefix_nil (s : string) : String.prefix EmptyString s = true.
Proof. now destruct s. Qed.

Lemma HasPrefix_gPrefix (pair : string) :
  Strings.HasPrefix pair gPrefix = true -> exists p, pair = gPrefix +:+ p.
Proof.
  unfold Strings.HasPrefix, gPrefix. intros H.
  destruct pair as [| a [| b [| c p]]]; try discriminate H.
  - rewrite prefix_cons in H. apply andb_prop in H as [_ H]. discriminate H.
  - rewrite !prefix_cons in H. apply andb_prop in H as [_ H]. apply andb_prop in H as [_ H].
    discriminate H.
  - rewrite !prefix_cons in H.
    apply andb_prop in H as [Ha H]. apply andb_prop in H as [Hb H]. apply andb_prop in H as [Hc _].
    apply Ascii.eqb_eq in Ha, Hb, Hc. subst a b c. exists p. reflexivity.
Qed.

Lemma parse_environ_app (environ : list string) (pair : string) :
  parse_environ (environ ++ [pair]) = environ_step (parse_environ environ) pair.
Proof. unfold parse_environ. now rewrite fold_left_app. Qed.

(** What a variable [V3_key=value] does to the configuration. *)
Lemma environ_step_assign (env : gmap string string) (key value : string) :
  has_byte "=" key = false ->
  environ_step env (gPrefix +:+ key +:+ "=" +:+ value) = <[ key := value ]> env.
Proof.
  intros Hkey. unfold environ_step, Strings.HasPrefix, Strings.Split, gPrefix.
  rewrite !append_cons. change (EmptyString +:+ key +:+ "=" +:+ value) with (key +:+ String "=" value).
  rewrite !prefix_cons, prefix_nil, !Ascii.eqb_refl. cbn [andb].
  cbn [Strings.split_go Ascii.eqb Bool.eqb andb].
  rewrite (split_go_key "=" key value _ Hkey).
  destruct (Strings.split_go "=" value EmptyString) as [| v vs] eqn:E;
    [exfalso; exact (split_go_not_nil _ _ _ E) |].
  rewrite <- E, (Join_split_go "=" value EmptyString).
  cbn [String.rev_app String.length Strings.drop_bytes]. reflexivity.
Qed.

(** One pass of the loop leaves the configuration alone or sets the key
    that the name of the variable gives. *)
Lemma environ_step_cases (env : gmap string string) (pair : string) :
  environ_step env pair = env \/
  exists k v, environ_step env pair = <[ k := v ]> env /\ variable_name pair = gPrefix +:+ k.
Proof.
  unfold environ_step, variable_name.
  destruct (Strings.HasPrefix pair gPrefix) eqn:Hp; [| now left].
  destruct (Strings.Split pair "=") as [| k0 [| v0 vs]] eqn:Hs; [now left | now left |].
  right. eexists _, _. split; [reflexivity |]. cbn [hd].
  apply HasPrefix_gPrefix in Hp as [p ->].
  unfold Strings.Split, gPrefix in Hs. rewrite !append_cons in Hs.
  cbn [Strings.split_go Ascii.eqb Bool.eqb] in Hs.
  destruct (split_go_head "=" (EmptyString +:+ p) "_3V") as (x & rest & Hx).
  rewrite Hx in Hs. inversion Hs; subst k0. reflexivity.
Qed.

Lemma variable_name_assign (key value : string) :
  has_byte "=" key = false -> variable_name (gPrefix +:+ key +:+ "=" +:+ value) = gPrefix +:+ key.
Proof.
  intros Hkey. unfold variable_name, Strings.Split, gPrefix. rewrite !append_cons.
  change (EmptyString +:+ key +:+ "=" +:+ value) with (key +:+ String "=" value).
  cbn [Strings.split_go Ascii.eqb Bool.eqb].
  rewrite (split_go_key "=" key value _ Hkey). reflexivity.
Qed.

(** X3. In the variables of the process, where every name occurs once, a
    variable [V3_key=value] sets [key] to [value], wherever it stands in
    the list and whatever bytes the value holds (also [=]). *)
Theorem parse_environ_assign (environ : list string) (key value : string) :
  NoDup (variable_name <$> environ) ->
  In (gPrefix +:+ key +:+ "=" +:+ value) environ ->
  has_byte "=" key = false ->
  parse_environ environ !! key = Some value.
Proof.
  intros Hnodup Hin Hkey. induction environ as [| pair environ IH] using rev_ind.
  - contradiction.
  - rewrite fmap_app in Hnodup. apply NoDup_app in Hnodup as (Hnd & Hother & _).
    rewrite parse_environ_app.
    apply in_app_or in Hin as [Hin | [E | []]].
    + destruct (environ_step_cases (parse_environ environ) pair) as [-> | (k & v & -> & Hname)];
        [now apply IH |].
      destruct (decide (k = key)) as [-> | Hk]; [| rewrite lookup_insert_ne by exact Hk; now apply IH].
      exfalso. apply (Hother (gPrefix +:+ key)).
      * rewrite <- (variable_name_assign key value Hkey).
        apply list_elem_of_fmap_2, list_elem_of_In. exact Hin.
      * cbn [fmap list_fmap]. rewrite Hname. now left.
    + subst pair. rewrite environ_step_assign by exact Hkey. apply lookup_insert_eq.
Qed.

(** The theorem applies: the metric in the sample environment, and a
    value with an equals sign in the middle of a list. *)
Lemma parse_environ_assign_witness :
  parse_environ Samples.environ !! "METRIC" = Some "commits" /\
  parse_environ ("V3_PARAM_is_bot=!= true" :: Samples.environ) !! "PARAM_is_bot" = Some "!= true".
Proof.
  split.
  - apply parse_environ_assign;
      [apply (bool_decide_unpack _); vm_compute; reflexivity | cbn; tauto | reflexivity].
  - apply parse_environ_assign;
      [apply (bool_decide_unpack _); vm_compute; reflexivity | cbn; tauto | reflexivity].
Defined.

(** X4. Every entry of the configuration is a variable of the environment
    whose name starts with [V3_], with the prefix cut off: no other
    variable is read, and none is made up. *)
Theorem parse_environ_lookup (environ : list string) (key value : string) :
  parse_environ environ !! key = Some value ->
  In (gPrefix +:+ key +:+ "=" +:+ value) environ.
Proof.
  induction environ as [| pair environ IH] using rev_ind.
  - cbn. rewrite lookup_empty. discriminate.
  - rewrite parse_environ_app. intros H. apply in_or_app.
    unfold environ_step in H.
    destruct (Strings.HasPrefix pair gPrefix) eqn:Hp; [| left; auto].
    destruct (Strings.Split pair "=") as [| k0 [| v0 vs]] eqn:Hs; [left; auto | left; auto |].
    destruct (decide (Strings.drop_bytes (String.length gPrefix) k0 = key)) as [Hk | Hk].
    + right. left. rewrite Hk, lookup_insert_eq in H. inversion H; subst value; clear H.
      apply HasPrefix_gPrefix in Hp as [p ->].
      pose proof (Join_split_go "=" (gPrefix +:+ p) EmptyString) as HJ.
      unfold Strings.Split in Hs. rewrite Hs in HJ.
      rewrite Join_cons in HJ by discriminate. cbn [String.rev_app] in HJ.
      rewrite <- HJ at 1.
      assert (Hk0 : k0 = gPrefix +:+ key).
      { unfold gPrefix in Hs. rewrite !append_cons in Hs. cbn [Strings.split_go Ascii.eqb Bool.eqb] in Hs.
        destruct (split_go_head "=" (EmptyString +:+ p) "_3V") as (x & rest & Hx).
        rewrite Hx in Hs. inversion Hs; subst k0. cbn [String.rev_app] in Hk.
        cbn [String.length gPrefix Strings.drop_bytes] in Hk. unfold gPrefix in Hk.
        cbn [String.length Strings.drop_bytes] in Hk. subst x. reflexivity. }
      rewrite Hk0. now rewrite !append_assoc.
    + rewrite lookup_insert_ne in H by exact Hk. left; auto.
Qed.

(** The theorem applies: the table of the sample environment. *)
Lemma parse_environ_lookup_witness :
  In (gPrefix +:+ "TABLE" +:+ "=" +:+ "metric_commits") Samples.environ.
Proof. apply parse_environ_lookup. vm_compute. reflexivity. Defined.

(** ** [calcMetric] before the computation *)

Lemma find_first {A} (f : A -> bool) (l : list A) (x : A) :
  List.find f l = Some x ->
  exists pre post, l = pre ++ x :: post /\ f x = true /\ Forall (fun y => f y = false) pre.
Proof.
  induction l as [| a l IH]; [discriminate |].
  cbn [List.find]. destruct (f a) eqn:Ha.
  - intros [= ->]. exists [], l. repeat split; [exact Ha | constructor].
  - intros H. destruct (IH H) as (pre & post & -> & Hx & Hpre).
    exists (a :: pre), post. repeat split; [exact Hx | now constructor].
Qed.

Lemma has_key_false (env : gmap string string) (k : string) :
  has_key env k = false <-> env !! k = None.
Proof. unfold has_key. destruct (env !! k); split; congruence. Qed.

Lemma has_key_true (env : gmap string string) (k : string) :
  has_key env k = true <-> is_Some (env !! k).
Proof.
  unfold has_key. destruct (env !! k); split; try congruence; eauto.
  intros [? ?]. discriminate.
Qed.

(** X5. When a variable of [gRequired] is not set, the run ends with exit
    code 1 before anything is opened or executed: it only reads the clock,
    at the start and at the end of [main]. The error names the first
    variable of [gRequired] that is missing. *)
Theorem missing_variable_stops_early (h : host) (C : Calendar) (environ : list string)
    (key : string) :
  In key gRequired -> parse_environ environ !! key = None ->
  run h C environ = (1, [clock_event SMain; clock_event SMain]) /\
  exists k pre post,
    (calcMetric h environ 0 [clock_event SMain]).1.1 = Some (ErrMissingEnv k) /\
    gRequired = pre ++ k :: post /\ parse_environ environ !! k = None /\
    Forall (fun k' => is_Some (parse_environ environ !! k')) pre.
Proof.
  intros Hin Hnone.
  destruct (missing_required (parse_environ environ)) as [k |] eqn:Hm.
  - unfold run. rewrite main_run. unfold calcMetric. rewrite Hm, run_ret.
    split; [reflexivity |].
    unfold missing_required in Hm. apply find_first in Hm as (pre & post & E & Hk & Hpre).
    exists k, pre, post. cbn [fst]. repeat split; [exact E | |].
    + apply has_key_false. now apply negb_true_iff in Hk.
    + eapply Forall_impl; [exact Hpre |]. intros k' Hk'. apply has_key_true.
      now apply negb_false_iff in Hk'.
  - exfalso. unfold missing_required in Hm.
    pose proof (List.find_none _ _ Hm key Hin) as Hk. cbn beta in Hk.
    apply negb_false_iff, has_key_true in Hk. rewrite Hnone in Hk. destruct Hk; discriminate.
Qed.

(** The theorem applies: neither TABLE nor TIME_RANGE is set, TABLE is the one named. *)
Lemma missing_variable_stops_early_witness :
  run (Samples.host_at 2024 3 15 Samples.one_row 1 "") spec_calendar
    ["V3_CONN=postgres://db"; "V3_METRIC=commits"; "V3_PROJECT_SLUG=envoy"]
  = (1, [clock_event SMain; clock_event SMain]) /\
  exists k pre post,
    (calcMetric (C := spec_calendar) (Samples.host_at 2024 3 15 Samples.one_row 1 "")
       ["V3_CONN=postgres://db"; "V3_METRIC=commits"; "V3_PROJECT_SLUG=envoy"]
       0 [clock_event SMain]).1.1 = Some (ErrMissingEnv k) /\
    gRequired = pre ++ k :: post /\
    parse_environ ["V3_CONN=postgres://db"; "V3_METRIC=commits"; "V3_PROJECT_SLUG=envoy"] !! k = None /\
    Forall (fun k' => is_Some (parse_environ
              ["V3_CONN=postgres://db"; "V3_METRIC=commits"; "V3_PROJECT_SLUG=envoy"] !! k')) pre.
Proof.
  apply (missing_variable_stops_early _ _ _ "TIME_RANGE").
  - cbn. tauto.
  - vm_compute. reflexivity.
Defined.

Lemma one_of_valid (timeRange : string) :
  ~ In timeRange valid_time_ranges ->
  one_of timeRange ["7d"; "7dp"; "30d"; "30dp"; "q"; "qp"; "ty"; "typ"; "y"; "yp"; "2y"; "2yp"; "a"] = false
  /\ one_of timeRange ["c"] = false.
Proof.
  intros H. split; apply one_of_false; intros Hin; apply H; unfold valid_time_ranges;
    cbn in *; tauto.
Qed.

(** X6. With DROP set the table is dropped as soon as the database is open,
    before the time range is looked at: also a run that an unknown
    TIME_RANGE ends with exit code 1 has executed the drop. The table
    dropped is the one named by TABLE as it is, also under PPT, where
    every later statement goes to the table of the project. *)
Theorem drop_precedes_validation (h : host) (C : Calendar) (environ : list string) :
  let env := parse_environ environ in
  let opened := {| ev_site := SOpen; ev_op := OpOpen (get_or_empty env "CONN");
                   ev_err := None; ev_rows := None |} in
  let dropTable := "drop table if exists " +:+ quoted (get_or_empty env "TABLE") in
  missing_required env = None ->
  sql_Open h [clock_event SMain] (get_or_empty env "CONN") = None ->
  has_key env "DROP" = true ->
  ~ In (get_or_empty env "TIME_RANGE") valid_time_ranges ->
  run h C environ
  = (1, [clock_event SMain; opened;
         exec_event SDropTable dropTable [] (db_Exec h [clock_event SMain; opened] dropTable []);
         clock_event SMain]).
Proof.
  intros env opened dropTable Hreq Hopen Hdrop Hrange.
  unfold run. rewrite main_run.
  change ([] ++ [clock_event SMain]) with [clock_event SMain].
  unfold calcMetric. fold env. rewrite Hreq.
  rewrite run_bind, run_Open, Hopen. rewrite Hdrop.
  rewrite !run_bind, run_Exec, run_ret. cbn [app].
  fold opened. fold dropTable.
  destruct (db_Exec h [clock_event SMain; opened] dropTable []) as [err | res] eqn:He.
  - cbn [err_of]. rewrite run_ret. reflexivity.
  - cbn [err_of]. rewrite run_bind. unfold needsCalculation.
    destruct (one_of_valid _ Hrange) as [-> ->]. rewrite !run_ret. reflexivity.
Qed.

(** The theorem applies: DROP and PPT with the unknown range 90d. *)
Lemma drop_precedes_validation_witness :
  let environ := ["V3_CONN=postgres://db"; "V3_METRIC=commits"; "V3_TABLE=metric_commits";
                  "V3_PROJECT_SLUG=envoy"; "V3_TIME_RANGE=90d"; "V3_DROP=1"; "V3_PPT=1"] in
  let h := Samples.host_at 2024 3 15 Samples.one_row 1 "" in
  let opened := {| ev_site := SOpen; ev_op := OpOpen "postgres://db";
                   ev_err := None; ev_rows := None |} in
  let dropTable := "drop table if exists " +:+ quoted "metric_commits" in
  run h spec_calendar environ
  = (1, [clock_event SMain; opened;
         exec_event SDropTable dropTable [] (db_Exec h [clock_event SMain; opened] dropTable []);
         clock_event SMain]).
Proof.
  cbv zeta.
  apply (drop_precedes_validation (Samples.host_at 2024 3 15 Samples.one_row 1 "") spec_calendar
           ["V3_CONN=postgres://db"; "V3_METRIC=commits"; "V3_TABLE=metric_commits";
            "V3_PROJECT_SLUG=envoy"; "V3_TIME_RANGE=90d"; "V3_DROP=1"; "V3_PPT=1"]).
  - vm_compute. reflexivity.
  - reflexivity.
  - vm_compute. reflexivity.
  - vm_compute. intuition discriminate.
Defined.

(** ** The query template *)

Lemma replace_go_no_brace (old' new s : string) :
  has_byte "{" s = false -> Strings.replace_go (String "{" old') new s 0 = s.
Proof.
  induction s as [| c r IH]; intros H; [reflexivity |].
  unfold has_byte, bytes in H. cbn [String.list_ascii_of_string existsb] in H.
  apply orb_false_elim in H as [Hc Hr].
  cbn [Strings.replace_go]. rewrite prefix_cons, Hc. cbn [andb]. now rewrite (IH Hr).
Qed.

(** X7. A query file without an opening brace has no placeholder: the query
    executed is the text of the file, whatever the configuration. *)
Theorem render_sql_without_braces (contents projectSlug dtfs dtts : string)
    (env : gmap string string) :
  has_byte "{" contents = false ->
  render_sql contents projectSlug dtfs dtts env = contents.
Proof.
  intros H. unfold render_sql, Strings.Replace.
  rewrite (replace_go_no_brace _ _ _ H).
  assert (H1 : (if negb (String.eqb (get_or_empty env "LIMIT") "")
                then Strings.replace_go "{{limit}}" (get_or_empty env "LIMIT") contents 0
                else contents) = contents).
  { destruct (String.eqb (get_or_empty env "LIMIT") ""); cbn [negb];
      [reflexivity | now apply replace_go_no_brace]. }
  rewrite H1. clear H1.
  assert (H2 : (if negb (String.eqb (get_or_empty env "OFFSET") "")
                then Strings.replace_go "{{offset}}" (get_or_empty env "OFFSET") contents 0
                else contents) = contents).
  { destruct (String.eqb (get_or_empty env "OFFSET") ""); cbn [negb];
      [reflexivity | now apply replace_go_no_brace]. }
  rewrite H2. clear H2.
  assert (H3 : forall l : list (string * string),
            fold_left
              (fun sql kv =>
                 if Strings.HasPrefix kv.1 "PARAM_"
                 then Strings.replace_go ("{{" +:+ Strings.drop_bytes 6 kv.1 +:+ "}}") kv.2 sql 0
                 else sql) l contents = contents).
  { induction l as [| kv l IH]; [reflexivity |]. cbn [fold_left].
    destruct (Strings.HasPrefix kv.1 "PARAM_"); [| exact IH].
    rewrite !append_cons. now rewrite (replace_go_no_brace _ _ _ H). }
  rewrite H3. rewrite (replace_go_no_brace _ _ _ H). now apply replace_go_no_brace.
Qed.

(** The theorem applies: a query without placeholders. *)
Lemma render_sql_without_braces_witness :
  render_sql "select count(*) as cnt from commits" "envoy" "'2024-02-01'" "'2024-03-01'"
    {[ "PARAM_is_bot" := "!= true"; "LIMIT" := "10" ]}
  = "select count(*) as cnt from commits".
Proof. apply render_sql_without_braces. reflexivity. Defined.

(** With its placeholders, the query of a file is the text with the
    configuration filled in. *)
Example render_sql_ex :
  render_sql "select * from c where p = '{{project_slug}}' and bot {{is_bot}} and d >= {{date_from}} limit {{limit}}"
    "envoy" "'2024-02-01'" "'2024-03-01'" {[ "PARAM_is_bot" := "!= true"; "LIMIT" := "10" ]}
  = "select * from c where p = 'envoy' and bot != true and d >= '2024-02-01' limit 10".
Proof. vm_compute. reflexivity. Qed.

(** ** [time.go]: [DayStart] and [NextDayStart] *)

Section Days.
Import GoTime TimeFacts.

(** [DayStart] is midnight UTC of the day [dt] shows on its own wall
    clock. *)
Lemma DayStart_unix (dt : Time) : unix_ns (lib.DayStart dt) = wall_day dt * nsPerDay.
Proof.
  rewrite (aligned_day_of _ (DayStart_aligned dt)). unfold lib.DayStart.
  now rewrite Date_midnight_day, civil_roundtrip.
Qed.

Lemma time_eq (t u : Time) : unix_ns t = unix_ns u -> zone t = zone u -> t = u.
Proof. destruct t, u. cbn. now intros -> ->. Qed.

Lemma wall_day_UTC (t : Time) :
  zone t = UTC -> wall_day t * nsPerDay <= unix_ns t < wall_day t * nsPerDay + nsPerDay.
Proof.
  intros Hz. unfold wall_day, wall_sec. rewrite Hz. unfold UTC. rewrite Z.add_0_r.
  rewrite Z.div_div by (unfold nsPerSecond, secondsPerDay; lia).
  unfold nsPerDay. replace (secondsPerDay * nsPerSecond) with (nsPerSecond * secondsPerDay) by lia.
  unfold nsPerSecond, secondsPerDay. Z.div_mod_to_equations. lia.
Qed.

End Days.

(** X8. For a time in UTC, [DayStart] rounds down to the day: the result is
    a midnight UTC, not after the time and less than 24 hours before
    it. *)
Theorem DayStart_floor (dt : GoTime.Time) :
  GoTime.zone dt = GoTime.UTC ->
  GoTime.day_aligned (lib.DayStart dt) /\
  GoTime.unix_ns (lib.DayStart dt) <= GoTime.unix_ns dt
    < GoTime.unix_ns (lib.DayStart dt) + GoTime.nsPerDay.
Proof.
  intros Hz. split; [apply TimeFacts.DayStart_aligned |].
  rewrite DayStart_unix. now apply wall_day_UTC.
Qed.

(** The theorem applies: the last second of 29 February 2024. *)
Lemma DayStart_floor_witness :
  GoTime.day_aligned (lib.DayStart (GoTime.Date 2024 2 29 23 59 59 999 GoTime.UTC)) /\
  GoTime.unix_ns (lib.DayStart (GoTime.Date 2024 2 29 23 59 59 999 GoTime.UTC))
    <= GoTime.unix_ns (GoTime.Date 2024 2 29 23 59 59 999 GoTime.UTC)
    < GoTime.unix_ns (lib.DayStart (GoTime.Date 2024 2 29 23 59 59 999 GoTime.UTC)) + GoTime.nsPerDay.
Proof. apply DayStart_floor. reflexivity. Defined.

(** X9. The times [DayStart] leaves as they are are the midnights UTC; so
    [DayStart] applied twice is [DayStart]. *)
Theorem DayStart_fixes_midnights (dt : GoTime.Time) :
  (lib.DayStart dt = dt <-> GoTime.day_aligned dt) /\
  lib.DayStart (lib.DayStart dt) = lib.DayStart dt.
Proof.
  assert (Hfix : forall t, GoTime.day_aligned t -> lib.DayStart t = t).
  { intros t Ht. apply time_eq.
    - rewrite DayStart_unix. destruct (TimeFacts.aligned_fields t Ht) as (-> & _ & _).
      symmetry. now apply TimeFacts.aligned_day_of.
    - destruct Ht as [-> _]. reflexivity. }
  split.
  - split; [| apply Hfix]. intros <-. apply TimeFacts.DayStart_aligned.
  - apply Hfix, TimeFacts.DayStart_aligned.
Qed.

(** X10. [NextDayStart] is the midnight UTC exactly 24 hours after
    [DayStart]. *)
Theorem NextDayStart_next_day (dt : GoTime.Time) :
  GoTime.day_aligned (lib.NextDayStart dt) /\
  GoTime.unix_ns (lib.NextDayStart dt) = GoTime.unix_ns (lib.DayStart dt) + GoTime.nsPerDay.
Proof.
  pose proof (TimeFacts.DayStart_aligned dt) as Ha. unfold lib.NextDayStart.
  pose proof (TimeFacts.AddDate_aligned (lib.DayStart dt) 0 0 1 Ha) as Hn.
  split; [exact Hn |].
  rewrite (TimeFacts.aligned_day_of _ Hn), (TimeFacts.aligned_day_of _ Ha).
  rewrite TimeFacts.AddDate_days by exact Ha. lia.
Qed.

(** ** Dates are compared by day *)

(** X11. The freshness check and the cleanup look at the days of the two
    bounds only: two times that show the same day on their wall clocks,
    whatever the hour and the zone, give the same query, and so the same
    answer. *)
Theorem freshness_by_day (h : host) (s : site) (table projectSlug timeRange : string)
    (env : gmap string string) (dtf dtt dtf' dtt' : GoTime.Time) :
  GoTime.wall_day dtf = GoTime.wall_day dtf' ->
  GoTime.wall_day dtt = GoTime.wall_day dtt' ->
  isCalculated h s table projectSlug timeRange env dtf dtt
  = isCalculated h s table projectSlug timeRange env dtf' dtt' /\
  supportCleanup h table timeRange projectSlug dtf dtt env
  = supportCleanup h table timeRange projectSlug dtf' dtt' env.
Proof.
  intros Hf Ht.
  assert (Ef : lib.DayStart dtf = lib.DayStart dtf').
  { apply time_eq; [| reflexivity]. now rewrite !DayStart_unix, Hf. }
  assert (Et : lib.DayStart dtt = lib.DayStart dtt').
  { apply time_eq; [| reflexivity]. now rewrite !DayStart_unix, Ht. }
  unfold isCalculated, supportCleanup. rewrite Ef, Et. split; reflexivity.
Qed.

(** The theorem applies: two hours of 1 February and of 1 March 2024. *)
Lemma freshness_by_day_witness :
  isCalculated Samples.host_of_tables SFreshness "metric_commits" "envoy" "30d" ∅
    (GoTime.Date 2024 2 1 10 30 0 0 GoTime.UTC) (GoTime.Date 2024 3 1 0 0 0 0 GoTime.UTC)
  = isCalculated Samples.host_of_tables SFreshness "metric_commits" "envoy" "30d" ∅
      (GoTime.Date 2024 2 1 0 0 0 0 GoTime.UTC) (GoTime.Date 2024 3 1 23 59 59 0 GoTime.UTC) /\
  supportCleanup Samples.host_of_tables "metric_commits" "30d" "envoy"
    (GoTime.Date 2024 2 1 10 30 0 0 GoTime.UTC) (GoTime.Date 2024 3 1 0 0 0 0 GoTime.UTC) ∅
  = supportCleanup Samples.host_of_tables "metric_commits" "30d" "envoy"
      (GoTime.Date 2024 2 1 0 0 0 0 GoTime.UTC) (GoTime.Date 2024 3 1 23 59 59 0 GoTime.UTC) ∅.
Proof. apply freshness_by_day; reflexivity. Defined.

(** ** [time.go]: [ToYMDHMS] and [TimeParseAny] *)

Section Layouts.
Import GoTime TimeFacts Parse.

Lemma append_nil_l (s : string) : EmptyString +:+ s = s.
Proof. reflexivity. Qed.

(** [%02d] and [%04d] of a number that fits. *)
Lemma Sprintf_2 (n : Z) : 0 <= n < 100 -> fmt.Sprintf_0d 2 n = two_digits n.
Proof.
  intros H.
  assert (Hall : forallb (fun k => String.eqb (fmt.Sprintf_0d 2 (Z.of_nat k)) (two_digits (Z.of_nat k)))
                   (seq 0 (Z.to_nat 100)) = true) by (vm_compute; reflexivity).
  rewrite forallb_forall in Hall. specialize (Hall (Z.to_nat n)).
  rewrite Z2Nat.id in Hall by lia. apply String.eqb_eq, Hall, in_seq. lia.
Qed.

Lemma Sprintf_4 (n : Z) : 0 <= n < 10000 -> fmt.Sprintf_0d 4 n = four_digits n.
Proof.
  intros H.
  assert (Hall : forallb (fun k => String.eqb (fmt.Sprintf_0d 4 (Z.of_nat k)) (four_digits (Z.of_nat k)))
                   (seq 0 (Z.to_nat 10000)) = true) by (vm_compute; reflexivity).
  rewrite forallb_forall in Hall. specialize (Hall (Z.to_nat n)).
  rewrite Z2Nat.id in Hall by lia. apply String.eqb_eq, Hall, in_seq. lia.
Qed.

Lemma digit_char_spec (d : Z) :
  0 <= d <= 9 ->
  isDigit (digit_char d) = true /\ digit (digit_char d) = d /\
  Ascii.eqb (digit_char d) " " = false /\ Ascii.eqb (digit_char d) "." = false /\
  Ascii.eqb (digit_char d) "," = false.
Proof.
  intros H.
  assert (E : d = 0 \/ d = 1 \/ d = 2 \/ d = 3 \/ d = 4 \/ d = 5 \/ d = 6 \/ d = 7 \/ d = 8 \/ d = 9)
    by lia.
  repeat destruct E as [-> | E]; try subst d; repeat split; reflexivity.
Qed.

Lemma getnum_two (n : Z) (rest : string) (fixed : bool) :
  0 <= n < 100 -> getnum (two_digits n +:+ rest) fixed = Some (n, rest).
Proof.
  intros H. unfold two_digits. rewrite !append_cons, append_nil_l. unfold getnum.
  destruct (digit_char_spec (n / 10)) as (-> & -> & _); [Z.div_mod_to_equations; lia |].
  destruct (digit_char_spec (n mod 10)) as (-> & -> & _); [Z.div_mod_to_equations; lia |].
  do 2 f_equal. Z.div_mod_to_equations. lia.
Qed.

Lemma getyear_four (n : Z) (rest : string) :
  0 <= n < 10000 -> getyear (four_digits n +:+ rest) = Some (n, rest).
Proof.
  intros H. unfold four_digits, two_digits. rewrite !append_cons, append_nil_l. unfold getyear.
  destruct (digit_char_spec (n / 1000)) as (-> & -> & _); [Z.div_mod_to_equations; lia |].
  destruct (digit_char_spec (n / 100 mod 10)) as (-> & -> & _); [Z.div_mod_to_equations; lia |].
  destruct (digit_char_spec (n mod 100 / 10)) as (-> & -> & _); [Z.div_mod_to_equations; lia |].
  destruct (digit_char_spec (n mod 100 mod 10)) as (-> & -> & _); [Z.div_mod_to_equations; lia |].
  cbn [andb]. do 2 f_equal. Z.div_mod_to_equations. lia.
Qed.

Lemma parse_cons (c : chunk) (cs : list chunk) (value : string) (f : fields) :
  parse (c :: cs) value f
  = match step c value f with
    | Some (v, f') => parse cs v f'
    | None => None
    end.
Proof. reflexivity. Qed.

Lemma step_year (y : Z) (rest : string) (f : fields) :
  0 <= y < 10000 ->
  step stdLongYear (four_digits y +:+ rest) f
  = Some (rest, {| f_year := y; f_month := f_month f; f_day := f_day f;
                   f_hour := f_hour f; f_min := f_min f; f_sec := f_sec f; f_nsec := f_nsec f |}).
Proof. intros H. unfold step. now rewrite getyear_four. Qed.

Lemma step_month (m : Z) (rest : string) (f : fields) :
  1 <= m <= 12 ->
  step stdZeroMonth (two_digits m +:+ rest) f
  = Some (rest, {| f_year := f_year f; f_month := m; f_day := f_day f;
                   f_hour := f_hour f; f_min := f_min f; f_sec := f_sec f; f_nsec := f_nsec f |}).
Proof.
  intros H. unfold step. rewrite getnum_two by lia. cbn [mbind option_bind].
  destruct (Z.leb_spec m 0); [lia |]. destruct (Z.ltb_spec 12 m); [lia |]. reflexivity.
Qed.

Lemma step_day (d : Z) (rest : string) (f : fields) :
  0 <= d < 100 ->
  step stdZeroDay (two_digits d +:+ rest) f
  = Some (rest, {| f_year := f_year f; f_month := f_month f; f_day := d;
                   f_hour := f_hour f; f_min := f_min f; f_sec := f_sec f; f_nsec := f_nsec f |}).
Proof. intros H. unfold step. now rewrite getnum_two by lia. Qed.

Lemma step_hour (x : Z) (rest : string) (f : fields) :
  0 <= x < 24 ->
  step stdHour (two_digits x +:+ rest) f
  = Some (rest, {| f_year := f_year f; f_month := f_month f; f_day := f_day f;
                   f_hour := x; f_min := f_min f; f_sec := f_sec f; f_nsec := f_nsec f |}).
Proof.
  intros H. unfold step. rewrite getnum_two by lia. cbn [mbind option_bind].
  destruct (Z.leb_spec 24 x); [lia |]. reflexivity.
Qed.

Lemma step_minute (x : Z) (rest : string) (f : fields) :
  0 <= x < 60 ->
  step stdZeroMinute (two_digits x +:+ rest) f
  = Some (rest, {| f_year := f_year f; f_month := f_month f; f_day := f_day f;
                   f_hour := f_hour f; f_min := x; f_sec := f_sec f; f_nsec := f_nsec f |}).
Proof.
  intros H. unfold step. rewrite getnum_two by lia. cbn [mbind option_bind].
  destruct (Z.leb_spec 60 x); [lia |]. reflexivity.
Qed.

(** The seconds at the end of the value. *)
Lemma step_second_last (x : Z) (f : fields) :
  0 <= x < 60 ->
  step stdZeroSecond (two_digits x) f
  = Some (EmptyString, {| f_year := f_year f; f_month := f_month f; f_day := f_day f;
                          f_hour := f_hour f; f_min := f_min f; f_sec := x; f_nsec := 0 |}).
Proof.
  intros H. unfold step. rewrite <- (append_nil_r (two_digits x)).
  rewrite getnum_two by lia. cbn [mbind option_bind].
  destruct (Z.leb_spec 60 x); [lia |]. reflexivity.
Qed.

Lemma step_literal (c : ascii) (rest : string) (f : fields) :
  Ascii.eqb c " " = false ->
  step (literal c) (String c EmptyString +:+ rest) f = Some (rest, f).
Proof.
  intros H. rewrite append_cons, append_nil_l. unfold step, skip. rewrite H, Ascii.eqb_refl.
  reflexivity.
Qed.

(** A space of the layout before a number of the value. *)
Lemma step_space (n : Z) (rest : string) (f : fields) :
  0 <= n < 100 ->
  step (literal " ") (" " +:+ two_digits n +:+ rest) f = Some (two_digits n +:+ rest, f).
Proof.
  intros H. rewrite append_cons, append_nil_l. unfold step, skip.
  cbn [Ascii.eqb Bool.eqb cutspace mbind option_bind]. unfold two_digits. rewrite !append_cons.
  cbn [cutspace].
  destruct (digit_char_spec (n / 10)) as (_ & _ & -> & _); [Z.div_mod_to_equations; lia |].
  reflexivity.
Qed.

(** A byte of the layout that the value does not have. *)
Lemma step_literal_end (c : ascii) (f : fields) :
  Ascii.eqb c " " = false -> step (literal c) EmptyString f = None.
Proof. intros H. unfold step, skip. now rewrite H. Qed.

Lemma step_literal_other (c d : ascii) (rest : string) (f : fields) :
  Ascii.eqb c " " = false -> Ascii.eqb d c = false ->
  step (literal c) (String d EmptyString +:+ rest) f = None.
Proof.
  intros H Hd. rewrite append_cons, append_nil_l. unfold step, skip. now rewrite H, Hd.
Qed.

End Layouts.

Section RoundTrip.
Import GoTime TimeFacts Parse.

(** [TimeParseAny], layout by layout. *)
Lemma TimeParseAny_layouts (s : string) :
  lib.TimeParseAny s
  = match parse [stdLongYear; literal "-"; stdZeroMonth; literal "-"; stdZeroDay; literal "T";
                 stdHour; literal ":"; stdZeroMinute; literal ":"; stdZeroSecond; literal "Z"]
            s no_fields with
    | Some t => Some t
    | None =>
    match parse [stdLongYear; literal "-"; stdZeroMonth; literal "-"; stdZeroDay; literal " ";
                 stdHour; literal ":"; stdZeroMinute; literal ":"; stdZeroSecond]
            s no_fields with
    | Some t => Some t
    | None =>
    match parse [stdLongYear; literal "-"; stdZeroMonth; literal "-"; stdZeroDay; literal " ";
                 stdHour; literal ":"; stdZeroMinute]
            s no_fields with
    | Some t => Some t
    | None =>
    match parse [stdLongYear; literal "-"; stdZeroMonth; literal "-"; stdZeroDay; literal " ";
                 stdHour]
            s no_fields with
    | Some t => Some t
    | None =>
    match parse [stdLongYear; literal "-"; stdZeroMonth; literal "-"; stdZeroDay] s no_fields with
    | Some t => Some t
    | None =>
    match parse [stdLongYear; literal "-"; stdZeroMonth] s no_fields with
    | Some t => Some t
    | None =>
    match parse [stdLongYear] s no_fields with
    | Some t => Some t
    | None => None
    end end end end end end end.
Proof. reflexivity. Qed.

(** The day of a time is a day of its month. *)
Lemma Day_le_daysIn (t : Time) : Day t <= daysIn (Month t) (Year t).
Proof.
  unfold Month, Day, YearDay0, Year.
  pose proof (yearDay_spec (wall_day t)) as Hy.
  destruct (yearDay (wall_day t)) as [y yd]. cbn [fst snd].
  destruct Hy as [_ Hrange]. unfold leap_days in Hrange.
  unfold monthDay, daysIn.
  destruct (isLeap y); cbn [andb] in *;
    repeat (match goal with
            | |- context [if ?a <? ?b then _ else _] => destruct (Z.ltb_spec a b)
            end);
    cbn;
    repeat (match goal with
            | |- context [daysBefore ?x] =>
                let v := eval vm_compute in (daysBefore x) in change (daysBefore x) with v
            end);
    lia.
Qed.

Lemma clock_range (t : Time) :
  0 <= Hour t < 24 /\ 0 <= Minute t < 60 /\ 0 <= Second t < 60.
Proof.
  unfold Hour, Minute, Second, secondsPerDay. repeat split; Z.div_mod_to_equations; lia.
Qed.

Lemma clock_sum (t : Time) :
  wall_day t * secondsPerDay + Hour t * 3600 + Minute t * 60 + Second t = wall_sec t.
Proof.
  unfold Hour, Minute, Second, wall_day, secondsPerDay. Z.div_mod_to_equations. lia.
Qed.

(** The date at the head of the value, for the layouts that have one. *)
Lemma parse_ymd (cs : list chunk) (y m d : Z) (rest : string) :
  0 <= y < 10000 -> 1 <= m <= 12 -> 0 <= d < 100 ->
  parse (stdLongYear :: literal "-" :: stdZeroMonth :: literal "-" :: stdZeroDay :: cs)
    (four_digits y +:+ "-" +:+ two_digits m +:+ "-" +:+ two_digits d +:+ rest) no_fields
  = parse cs rest {| f_year := y; f_month := m; f_day := d;
                     f_hour := 0; f_min := 0; f_sec := 0; f_nsec := 0 |}.
Proof.
  intros Hy Hm Hd.
  rewrite parse_cons, step_year by lia.
  rewrite parse_cons, step_literal by reflexivity.
  rewrite parse_cons, step_month by lia.
  rewrite parse_cons, step_literal by reflexivity.
  rewrite parse_cons, step_day by lia.
  reflexivity.
Qed.

Lemma parse_ym (cs : list chunk) (y m : Z) (rest : string) :
  0 <= y < 10000 -> 1 <= m <= 12 ->
  parse (stdLongYear :: literal "-" :: stdZeroMonth :: cs)
    (four_digits y +:+ "-" +:+ two_digits m +:+ rest) no_fields
  = parse cs rest {| f_year := y; f_month := m; f_day := -1;
                     f_hour := 0; f_min := 0; f_sec := 0; f_nsec := 0 |}.
Proof.
  intros Hy Hm.
  rewrite parse_cons, step_year by lia.
  rewrite parse_cons, step_literal by reflexivity.
  rewrite parse_cons, step_month by lia.
  reflexivity.
Qed.

Lemma ToYMDHMS_digits (dt : Time) :
  0 <= Year dt <= 9999 ->
  lib.ToYMDHMS dt
  = four_digits (Year dt) +:+ "-" +:+ two_digits (Month dt) +:+ "-" +:+ two_digits (Day dt)
    +:+ " " +:+ two_digits (Hour dt) +:+ ":" +:+ two_digits (Minute dt) +:+ ":" +:+
    two_digits (Second dt).
Proof.
  intros Hy. pose proof (Month_range dt). pose proof (Day_range dt).
  destruct (clock_range dt) as (? & ? & ?).
  unfold lib.ToYMDHMS. now rewrite Sprintf_4, !Sprintf_2 by lia.
Qed.

End RoundTrip.

(** X12. [TimeParseAny] reads back what [ToYMDHMS] writes, for the years 0 to
    9999: the result is the second that [dt] shows on its wall clock,
    taken as a time in UTC. For a [dt] in UTC that is [dt] without its
    nanoseconds. *)
Theorem TimeParseAny_ToYMDHMS (dt : GoTime.Time) :
  0 <= GoTime.Year dt <= 9999 ->
  lib.TimeParseAny (lib.ToYMDHMS dt)
  = Some {| GoTime.unix_ns := (GoTime.unix_ns dt / GoTime.nsPerSecond + GoTime.zone dt)
                              * GoTime.nsPerSecond;
            GoTime.zone := GoTime.UTC |}.
Proof.
  intros Hy. rewrite ToYMDHMS_digits by exact Hy.
  pose proof (TimeFacts.Month_range dt) as Hm. pose proof (TimeFacts.Day_range dt) as Hd.
  destruct (clock_range dt) as (Hh & Hmi & Hs).
  rewrite TimeParseAny_layouts.
  rewrite !parse_ymd by lia.
  rewrite (parse_cons (Parse.literal "T")), step_literal_other by reflexivity.
  rewrite parse_cons, step_space by lia.
  rewrite parse_cons, step_hour by lia.
  rewrite parse_cons, step_literal by reflexivity.
  rewrite parse_cons, step_minute by lia.
  rewrite parse_cons, step_literal by reflexivity.
  rewrite parse_cons, step_second_last by lia.
  cbn [Parse.parse Parse.f_year Parse.f_month Parse.f_day Parse.f_hour Parse.f_min
       Parse.f_sec Parse.f_nsec].
  unfold Parse.finish.
  cbn [Parse.f_year Parse.f_month Parse.f_day Parse.f_hour Parse.f_min Parse.f_sec Parse.f_nsec].
  pose proof (Day_le_daysIn dt) as Hdays.
  destruct (Z.ltb_spec (GoTime.Month dt) 0); [lia |].
  destruct (Z.ltb_spec (GoTime.Day dt) 0); [lia |].
  destruct (Z.ltb_spec (GoTime.Day dt) 1); [lia |].
  destruct (Z.ltb_spec (Parse.daysIn (GoTime.Month dt) (GoTime.Year dt)) (GoTime.Day dt)); [lia |].
  cbn [orb]. f_equal. apply time_eq; [| reflexivity].
  unfold GoTime.Date. cbn [GoTime.unix_ns].
  rewrite TimeFacts.civil_roundtrip.
  pose proof (clock_sum dt) as Hsum. unfold GoTime.wall_sec in Hsum.
  unfold GoTime.UTC. rewrite <- Hsum. unfold GoTime.secondsPerDay. lia.
Qed.

(** The theorem applies: two seconds before the end of 29 February 2024. *)
Lemma TimeParseAny_ToYMDHMS_witness :
  lib.TimeParseAny (lib.ToYMDHMS (GoTime.Date 2024 2 29 23 59 58 999 GoTime.UTC))
  = Some {| GoTime.unix_ns :=
              (GoTime.unix_ns (GoTime.Date 2024 2 29 23 59 58 999 GoTime.UTC) / GoTime.nsPerSecond
               + GoTime.zone (GoTime.Date 2024 2 29 23 59 58 999 GoTime.UTC)) * GoTime.nsPerSecond;
            GoTime.zone := GoTime.UTC |}.
Proof. apply TimeParseAny_ToYMDHMS. vm_compute. split; discriminate. Defined.

Section PartialDates.
Import GoTime TimeFacts Parse.

Lemma parse_y (cs : list chunk) (y : Z) (rest : string) :
  0 <= y < 10000 ->
  parse (stdLongYear :: cs) (four_digits y +:+ rest) no_fields
  = parse cs rest {| f_year := y; f_month := -1; f_day := -1;
                     f_hour := 0; f_min := 0; f_sec := 0; f_nsec := 0 |}.
Proof. intros Hy. rewrite parse_cons, step_year by lia. reflexivity. Qed.

(** The value ends where the layout goes on. *)
Lemma parse_literal_end (c : ascii) (cs : list chunk) (f : fields) :
  Ascii.eqb c " " = false -> parse (literal c :: cs) EmptyString f = None.
Proof. intros H. rewrite parse_cons, step_literal_end by exact H. reflexivity. Qed.

Lemma parse_space_hour_end (cs : list chunk) (f : fields) :
  parse (literal " " :: stdHour :: cs) EmptyString f = None.
Proof. reflexivity. Qed.

(** The layout ends where the value goes on. *)
Lemma parse_value_left (c : ascii) (rest : string) (f : fields) :
  parse [] (String c EmptyString +:+ rest) f = None.
Proof. reflexivity. Qed.

End PartialDates.

(** X13. A date given by its year, or by its year and month, is the first day
    of that year or month at 00:00:00 UTC: [2023-10] is 1 October
    2023. *)
Theorem TimeParseAny_year_month (y m : Z) :
  0 <= y <= 9999 -> 1 <= m <= 12 ->
  lib.TimeParseAny (fmt.Sprintf_0d 4 y) = Some (GoTime.Date y 1 1 0 0 0 0 GoTime.UTC) /\
  lib.TimeParseAny (fmt.Sprintf_0d 4 y +:+ "-" +:+ fmt.Sprintf_0d 2 m)
  = Some (GoTime.Date y m 1 0 0 0 0 GoTime.UTC).
Proof.
  intros Hy Hm. rewrite Sprintf_4, Sprintf_2 by lia. split.
  - rewrite <- (append_nil_r (four_digits y)). rewrite TimeParseAny_layouts.
    rewrite !parse_y by lia. rewrite !parse_literal_end by reflexivity.
    reflexivity.
  - rewrite <- (append_nil_r (two_digits m)). rewrite TimeParseAny_layouts.
    rewrite !parse_ym by lia. rewrite !parse_literal_end by reflexivity.
    cbn [Parse.parse]. unfold Parse.finish.
    cbn [Parse.f_year Parse.f_month Parse.f_day Parse.f_hour Parse.f_min Parse.f_sec Parse.f_nsec].
    destruct (Z.ltb_spec m 0); [lia |].
    change (-1 <? 0) with true. cbn [orb]. change (1 <? 1) with false. cbn [orb].
    assert (Hdays : 28 <= Parse.daysIn m y).
    { unfold Parse.daysIn.
      assert (E : m = 1 \/ m = 2 \/ m = 3 \/ m = 4 \/ m = 5 \/ m = 6 \/ m = 7 \/ m = 8 \/ m = 9
                  \/ m = 10 \/ m = 11 \/ m = 12) by lia.
      repeat destruct E as [-> | E]; try subst m; destruct (GoTime.isLeap y); vm_compute;
        discriminate. }
    destruct (Z.ltb_spec (Parse.daysIn m y) 1); [lia |]. reflexivity.
Qed.

(** The theorem applies: October 2023, the date of the sample configuration. *)
Lemma TimeParseAny_year_month_witness :
  lib.TimeParseAny (fmt.Sprintf_0d 4 2023) = Some (GoTime.Date 2023 1 1 0 0 0 0 GoTime.UTC) /\
  lib.TimeParseAny (fmt.Sprintf_0d 4 2023 +:+ "-" +:+ fmt.Sprintf_0d 2 10)
  = Some (GoTime.Date 2023 10 1 0 0 0 0 GoTime.UTC).
Proof. apply TimeParseAny_year_month; lia. Defined.

(** X14. A date [YYYY-MM-DD] is that day at 00:00:00 UTC when the month has
    such a day, and an error when it has not: 30 February is not carried
    over into March. *)
Theorem TimeParseAny_date (y m d : Z) :
  0 <= y <= 9999 -> 1 <= m <= 12 -> 0 <= d <= 99 ->
  lib.TimeParseAny (fmt.Sprintf_0d 4 y +:+ "-" +:+ fmt.Sprintf_0d 2 m +:+ "-" +:+ fmt.Sprintf_0d 2 d)
  = if (1 <=? d) && (d <=? Parse.daysIn m y)
    then Some (GoTime.Date y m d 0 0 0 0 GoTime.UTC)
    else None.
Proof.
  intros Hy Hm Hd. rewrite Sprintf_4, !Sprintf_2 by lia.
  rewrite <- (append_nil_r (two_digits d)). rewrite TimeParseAny_layouts.
  rewrite !parse_ymd by lia.
  rewrite parse_literal_end by reflexivity. rewrite !parse_space_hour_end.
  rewrite (parse_ym [] y m ("-" +:+ two_digits d +:+ "")) by lia.
  rewrite (parse_y [] y ("-" +:+ two_digits m +:+ "-" +:+ two_digits d +:+ "")) by lia.
  rewrite !parse_value_left.
  cbn [Parse.parse]. unfold Parse.finish.
  cbn [Parse.f_year Parse.f_month Parse.f_day Parse.f_hour Parse.f_min Parse.f_sec Parse.f_nsec].
  destruct (Z.ltb_spec m 0); [lia |]. destruct (Z.ltb_spec d 0); [lia |].
  destruct (Z.ltb_spec d 1), (Z.leb_spec 1 d); try lia; cbn [orb andb]; [reflexivity |].
  destruct (Z.ltb_spec (Parse.daysIn m y) d), (Z.leb_spec d (Parse.daysIn m y)); try lia;
    reflexivity.
Qed.

(** The theorem applies: 29 February 2023, which is no day. *)
Lemma TimeParseAny_date_witness :
  lib.TimeParseAny (fmt.Sprintf_0d 4 2023 +:+ "-" +:+ fmt.Sprintf_0d 2 2 +:+ "-" +:+ fmt.Sprintf_0d 2 29)
  = if (1 <=? 29) && (29 <=? Parse.daysIn 2 2023)
    then Some (GoTime.Date 2023 2 29 0 0 0 0 GoTime.UTC)
    else None.
Proof. apply TimeParseAny_date; lia. Defined.

(** ** The time window: how long it is *)

Section WindowLength.
Context {C : Calendar} {L : CalendarLaws C}.
Import GoTime TimeFacts.

Lemma no_consecutive_leap (y : Z) : isLeap y = true -> isLeap (y + 1) = false.
Proof.
  rewrite !isLeap_mod. intros H. apply andb_prop in H as [H _]. apply Z.eqb_eq in H.
  apply andb_false_intro1. apply Z.eqb_neq. Z.div_mod_to_equations. lia.
Qed.

(** Twelve months are 365 or 366 days. *)
Lemma monthStart_year (y m : Z) : 365 <= monthStart y (m + 12) - monthStart y m <= 366.
Proof.
  replace (m + 12) with (m + 12 * 1) by lia. rewrite <- monthStart_shift_year.
  unfold monthStart.
  replace (y + 1 + (m - 1) / 12) with (y + (m - 1) / 12 + 1) by lia.
  rewrite daysSinceEpoch_succ. unfold leapDay, leap_days.
  pose proof (no_consecutive_leap (y + (m - 1) / 12)) as Hl.
  destruct (isLeap (y + (m - 1) / 12)), (isLeap (y + (m - 1) / 12 + 1)),
    (3 <=? (m - 1) mod 12 + 1); cbn [andb]; lia.
Qed.

(** Twenty-four months are 730 or 731 days. *)
Lemma monthStart_two_years (y m : Z) : 730 <= monthStart y (m + 24) - monthStart y m <= 731.
Proof.
  replace (m + 24) with (m + 12 * 2) by lia. rewrite <- monthStart_shift_year.
  unfold monthStart.
  replace (y + 2 + (m - 1) / 12) with (y + (m - 1) / 12 + 1 + 1) by lia.
  rewrite !daysSinceEpoch_succ. unfold leapDay, leap_days.
  pose proof (no_consecutive_leap (y + (m - 1) / 12)) as Hl.
  pose proof (no_consecutive_leap (y + (m - 1) / 12 + 1)) as Hl'.
  destruct (isLeap (y + (m - 1) / 12)), (isLeap (y + (m - 1) / 12 + 1)),
    (isLeap (y + (m - 1) / 12 + 1 + 1)), (3 <=? (m - 1) mod 12 + 1); cbn [andb];
    try (specialize (Hl eq_refl); discriminate Hl);
    try (specialize (Hl' eq_refl); discriminate Hl'); lia.
Qed.

Lemma daysBefore_quarter (leap : bool) (r : Z) :
  0 <= r <= 8 ->
  89 <= daysBefore (r + 3 + 1) + (if leap && (3 <=? r + 3 + 1) then 1 else 0)
        - (daysBefore (r + 1) + (if leap && (3 <=? r + 1) then 1 else 0)) <= 92.
Proof.
  intros H.
  assert (E : r = 0 \/ r = 1 \/ r = 2 \/ r = 3 \/ r = 4 \/ r = 5 \/ r = 6 \/ r = 7 \/ r = 8) by lia.
  destruct leap; repeat (destruct E as [-> | E]); try subst r; vm_compute; split; discriminate.
Qed.

Lemma daysBefore_quarter_end (leap : bool) (r : Z) :
  9 <= r <= 11 ->
  89 <= 365 + daysBefore (r - 9 + 1) + (if leap && (3 <=? r - 9 + 1) then 1 else 0)
        - daysBefore (r + 1) <= 92.
Proof.
  intros H. assert (E : r = 9 \/ r = 10 \/ r = 11) by lia.
  destruct leap; repeat (destruct E as [-> | E]); try subst r; vm_compute; split; discriminate.
Qed.

(** Three months are between 89 and 92 days. *)
Lemma monthStart_quarter (y m : Z) : 89 <= monthStart y (m + 3) - monthStart y m <= 92.
Proof.
  unfold monthStart.
  assert (Hr : 0 <= (m - 1) mod 12 < 12) by (Z.div_mod_to_equations; lia).
  destruct (Z.le_gt_cases ((m - 1) mod 12) 8) as [E | E].
  - replace ((m + 3 - 1) / 12) with ((m - 1) / 12) by (Z.div_mod_to_equations; lia).
    replace ((m + 3 - 1) mod 12) with ((m - 1) mod 12 + 3) by (Z.div_mod_to_equations; lia).
    unfold leapDay.
    pose proof (daysBefore_quarter (isLeap (y + (m - 1) / 12)) ((m - 1) mod 12) ltac:(lia)).
    lia.
  - replace ((m + 3 - 1) / 12) with ((m - 1) / 12 + 1) by (Z.div_mod_to_equations; lia).
    replace ((m + 3 - 1) mod 12) with ((m - 1) mod 12 - 9) by (Z.div_mod_to_equations; lia).
    replace (y + ((m - 1) / 12 + 1)) with (y + (m - 1) / 12 + 1) by lia.
    rewrite daysSinceEpoch_succ. unfold leapDay, leap_days.
    pose proof (daysBefore_quarter_end (isLeap (y + (m - 1) / 12 + 1)) ((m - 1) mod 12) ltac:(lia)).
    replace (3 <=? (m - 1) mod 12 + 1) with true by (symmetry; apply Z.leb_le; lia).
    rewrite andb_true_r. destruct (isLeap (y + (m - 1) / 12)); lia.
Qed.

(** The window that ends at the midnight [t] and starts whole months and
    years before it: its length in days. *)
Lemma months_window (t : Time) (years months : Z) :
  day_aligned t ->
  window_length (AddDate t years months 0, t)
  = (monthStart (Year t) (Month t) - monthStart (Year t) (Month t + 12 * years + months))
    * nsPerDay.
Proof.
  intros Ht. pose proof (AddDate_aligned t years months 0 Ht) as Hf.
  unfold window_length. cbn [fst snd].
  rewrite (aligned_day_of _ Hf), (aligned_day_of _ Ht), AddDate_day by exact Ht.
  rewrite (aligned_day_fields t Ht). lia.
Qed.

Lemma months_window_range (p : bool) (t : Time) (years months lo hi : Z) :
  day_aligned t ->
  (forall y m, lo <= monthStart y m - monthStart y (m + 12 * years + months) <= hi) ->
  exists d,
    window_length (shifted p years months 0 (AddDate t years months 0, t)) = d * nsPerDay
    /\ lo <= d <= hi.
Proof.
  intros Ht Hrange. destruct p; cbn [shifted fst snd].
  - eexists. split; [apply months_window; now apply AddDate_aligned | apply Hrange].
  - eexists. split; [now apply months_window | apply Hrange].
Qed.

Lemma days_window_range (p : bool) (t : Time) (days : Z) :
  day_aligned t ->
  exists d,
    window_length (shifted p 0 0 days (AddDate t 0 0 days, t)) = d * nsPerDay
    /\ - days <= d <= - days.
Proof.
  intros Ht. exists (- days). split; [now apply (window_length_days 0 0) | lia].
Qed.

End WindowLength.

(** X15. The window of a time-range code is a whole number of days long:
    seven for 7d; 30 for 30d by days and 28 to 31 (a calendar month) for
    30d by months; 89 to 92 for q; 365 or 366 for y; 730 or 731 for 2y;
    at most 365 for ty; the same for the code with a p. The calendar
    windows are therefore not all of one length, and the window of [a]
    is the 47482 days from 1970 to 2100 whatever the clock says. *)
Theorem window_length_in_days (C : Calendar) (L : CalendarLaws C) (now : GoTime.Time)
    (timeRange : string) (env : gmap string string) :
  In timeRange ["7d"; "7dp"; "30d"; "30dp"; "q"; "qp"; "ty"; "typ"; "y"; "yp"; "2y"; "2yp"; "a"] ->
  exists d,
    window_length (timeRangeAt now timeRange env) = d * GoTime.nsPerDay /\
    fst (window_days_range timeRange env) <= d <= snd (window_days_range timeRange env).
Proof.
  intros Hin.
  assert (Hm1 : forall y m, 28 <= GoTime.monthStart y m - GoTime.monthStart y (m + 12 * 0 + -1) <= 31).
  { intros y m. pose proof (TimeFacts.monthStart_succ y (m - 1)) as H.
    replace (m - 1 + 1) with m in H by lia. replace (m + 12 * 0 + -1) with (m - 1) by lia. exact H. }
  assert (Hm3 : forall y m, 89 <= GoTime.monthStart y m - GoTime.monthStart y (m + 12 * 0 + -3) <= 92).
  { intros y m. pose proof (monthStart_quarter y (m - 3)) as H.
    replace (m - 3 + 3) with m in H by lia. replace (m + 12 * 0 + -3) with (m - 3) by lia. exact H. }
  assert (Hy1 : forall y m, 365 <= GoTime.monthStart y m - GoTime.monthStart y (m + 12 * -1 + 0) <= 366).
  { intros y m. pose proof (monthStart_year y (m - 12)) as H.
    replace (m - 12 + 12) with m in H by lia. replace (m + 12 * -1 + 0) with (m - 12) by lia. exact H. }
  assert (Hy2 : forall y m, 730 <= GoTime.monthStart y m - GoTime.monthStart y (m + 12 * -2 + 0) <= 731).
  { intros y m. pose proof (monthStart_two_years y (m - 24)) as H.
    replace (m - 24 + 24) with m in H by lia. replace (m + 12 * -2 + 0) with (m - 24) by lia. exact H. }
  assert (Hday := TimeFacts.DayStart_aligned now).
  assert (Hty : exists d,
            GoTime.unix_ns (lib.DayStart now) - GoTime.unix_ns (YearStart now) = d * GoTime.nsPerDay
            /\ 0 <= d <= 365).
  { destruct (year_to_date now) as (Hy & Hd & Hdiff).
    exists (day_of (lib.DayStart now) - day_of (YearStart now)).
    rewrite (TimeFacts.aligned_day_of _ Hy), (TimeFacts.aligned_day_of _ Hd) in *.
    unfold GoTime.nsPerDay, GoTime.secondsPerDay, GoTime.nsPerSecond in *. lia. }
  cbn in Hin.
  repeat (destruct Hin as [Hin | Hin]; [subst timeRange |]); try contradiction;
    unfold window_days_range; cbn [one_of existsb String.eqb Ascii.eqb Bool.eqb orb andb fst snd];
    try (open_code; destruct (has_key env _);
         first [ apply (days_window_range _ _ (-7)) | apply (days_window_range _ _ (-30))
               | apply months_window_range ];
         auto using WeekStart_aligned, MonthStart_aligned, QuarterStart_aligned, YearStart_aligned;
         fail).
  - (* ty *) open_code. unfold window_length. cbn [fst snd]. exact Hty.
  - (* typ *) open_code. unfold window_length, GoTime.Add. cbn [fst snd GoTime.unix_ns].
    destruct Hty as (d & Hd & Hr). exists d. split; [lia | exact Hr].
  - (* 2y *) open_code. destruct (has_key env _).
    + now apply months_window_range.
    + apply months_window_range; [| exact Hy2].
      destruct (Z.rem (GoTime.Year now) 2 =? 1);
        [apply TimeFacts.AddDate_aligned |]; apply YearStart_aligned.
  - (* 2yp *) open_code. destruct (has_key env _).
    + now apply months_window_range.
    + apply months_window_range; [| exact Hy2].
      destruct (Z.rem (GoTime.Year now) 2 =? 1);
        [apply TimeFacts.AddDate_aligned |]; apply YearStart_aligned.
  - (* a *) rewrite timeRangeAt_a. exists 47482. split; [reflexivity | lia].
Qed.

(** The theorem applies: the quarter before 15 March 2024. *)
Lemma window_length_in_days_witness :
  exists d,
    window_length (@timeRangeAt spec_calendar (GoTime.Date 2024 3 15 12 0 0 0 GoTime.UTC) "q" ∅)
    = d * GoTime.nsPerDay /\
    fst (window_days_range "q" ∅) <= d <= snd (window_days_range "q" ∅).
Proof.
  apply (window_length_in_days spec_calendar spec_calendar_laws). cbn. tauto.
Defined.

(** ** Maintenance: the statement of [supportDelete] *)

Lemma delete_conds_chosen (delMap : gset string) (timeRange projectSlug : string)
    (dtf dtt : GoTime.Time) :
  let chosen := List.filter (fun k => bool_decide (k.1.1 ∈ delMap))
                  (delete_keys timeRange projectSlug dtf dtt) in
  delete_conds delMap timeRange projectSlug dtf dtt
  = (imap (fun i k => k.1.2 +:+ " = $" +:+ itoa (Z.of_nat i + 1)) chosen, snd <$> chosen).
Proof.
  unfold delete_conds, delete_keys. cbn [List.filter fst snd].
  destruct (bool_decide ("tr" ∈ delMap)), (bool_decide ("ps" ∈ delMap)),
    (bool_decide ("df" ∈ delMap)), (bool_decide ("dt" ∈ delMap)); reflexivity.
Qed.

(** X16. With DELETE set, [supportDelete] executes one statement. Its
    conditions are those of the keys named in DELETE, in the order tr,
    ps, df, dt whatever the order in DELETE and however often a key is
    repeated; they are numbered [$1], [$2], ... without gap and joined
    with [and], and the values are bound in the same order, so that every
    placeholder gets the value of its column. The answer is true exactly
    when the statement succeeded and reported at least one row. *)
Theorem supportDelete_statement (h : host) (table timeRange projectSlug : string)
    (dtf dtt : GoTime.Time) (env : gmap string string) (del : string)
    (g : Z) (hist : list event) :
  env !! "DELETE" = Some del -> del <> EmptyString ->
  let chosen := List.filter (fun k => bool_decide (k.1.1 ∈ Strings.Split del ","))
                  (delete_keys timeRange projectSlug dtf dtt) in
  let conds := imap (fun i k => k.1.2 +:+ " = $" +:+ itoa (Z.of_nat i + 1)) chosen in
  let delQuery := "delete from " +:+ quoted table +:+
                  (match chosen with
                   | [] => EmptyString
                   | _ :: _ => " where " +:+ Strings.Join conds " and "
                   end) in
  let answer := db_Exec h hist delQuery (snd <$> chosen) in
  exists evs,
    supportDelete h table timeRange projectSlug dtf dtt env g hist
    = (match answer with
       | inr res => match RowsAffected res with inr rows => 0 <? rows | inl _ => false end
       | inl _ => false
       end, g,
       exec_event SDelete delQuery (snd <$> chosen) answer :: evs)
    /\ Forall (fun ev => ev_site ev = SDelete /\ ev_op ev = OpRowsAffected) evs.
Proof.
  intros Hdel Hne chosen conds delQuery answer.
  unfold supportDelete. rewrite Hdel.
  destruct (String.eqb_spec del "") as [-> | _]; [congruence |].
  rewrite delMap_not_empty, delete_conds_chosen. cbv zeta.
  assert (Hchosen : List.filter
                      (fun k => bool_decide (k.1.1 ∈ (list_to_set (Strings.Split del ",") : gset string)))
                      (delete_keys timeRange projectSlug dtf dtt) = chosen).
  { subst chosen. apply List.filter_ext. intros k. apply bool_decide_ext.
    apply elem_of_list_to_set. }
  rewrite Hchosen. fold conds.
  assert (Hq : (if 0 <? Z.of_nat (length conds)
                then ("delete from " +:+ quoted table) +:+ " where " +:+ Strings.Join conds " and "
                else "delete from " +:+ quoted table) = delQuery).
  { subst delQuery conds. destruct chosen as [| k ks].
    - cbn [imap length]. change (0 <? Z.of_nat 0) with false. cbv iota.
      now rewrite append_nil_r.
    - cbn [imap length].
      match goal with |- context [0 <? ?x] => destruct (Z.ltb_spec 0 x); [| lia] end.
      now rewrite append_assoc. }
  rewrite Hq. rewrite run_bind, run_Exec. fold answer.
  destruct answer as [err | res].
  - rewrite run_ret. exists []. split; [reflexivity | constructor].
  - rewrite run_bind, run_GetRowsAffected.
    destruct (RowsAffected res) as [err | rows]; rewrite run_ret; eexists [_];
      (split; [reflexivity | repeat constructor]).
Qed.

(** The theorem applies: DELETE=dt,tr,dt. *)
Lemma supportDelete_statement_witness :
  let h := Samples.host_at 2024 3 15 Samples.one_row 1 "" in
  let dtf := GoTime.Date 2024 2 1 0 0 0 0 GoTime.UTC in
  let dtt := GoTime.Date 2024 3 1 0 0 0 0 GoTime.UTC in
  let chosen := List.filter (fun k => bool_decide (k.1.1 ∈ Strings.Split "dt,tr,dt" ","))
                  (delete_keys "30d" "envoy" dtf dtt) in
  let conds := imap (fun i k => k.1.2 +:+ " = $" +:+ itoa (Z.of_nat i + 1)) chosen in
  let delQuery := "delete from " +:+ quoted "metric_commits" +:+
                  (match chosen with
                   | [] => EmptyString
                   | _ :: _ => " where " +:+ Strings.Join conds " and "
                   end) in
  let answer := db_Exec h [] delQuery (snd <$> chosen) in
  exists evs,
    supportDelete h "metric_commits" "30d" "envoy" dtf dtt {[ "DELETE" := "dt,tr,dt" ]} 0 []
    = (match answer with
       | inr res => match RowsAffected res with inr rows => 0 <? rows | inl _ => false end
       | inl _ => false
       end, 0,
       exec_event SDelete delQuery (snd <$> chosen) answer :: evs)
    /\ Forall (fun ev => ev_site ev = SDelete /\ ev_op ev = OpRowsAffected) evs.
Proof.
  cbv zeta.
  apply (supportDelete_statement (Samples.host_at 2024 3 15 Samples.one_row 1 "")
           "metric_commits" "30d" "envoy" (GoTime.Date 2024 2 1 0 0 0 0 GoTime.UTC)
           (GoTime.Date 2024 3 1 0 0 0 0 GoTime.UTC) {[ "DELETE" := "dt,tr,dt" ]} "dt,tr,dt" 0 []).
  - reflexivity.
  - discriminate.
Defined.

(** The statement of the case above: the condition on the time range
    comes first although DELETE names it last. *)
Example supportDelete_statement_ex :
  (supportDelete (Samples.host_at 2024 3 15 Samples.one_row 1 "") "metric_commits" "30d" "envoy"
     (GoTime.Date 2024 2 1 0 0 0 0 GoTime.UTC) (GoTime.Date 2024 3 1 0 0 0 0 GoTime.UTC)
     {[ "DELETE" := "dt,tr,dt" ]} 0 []).2 !! 0%nat
  = Some (exec_event SDelete
            ("delete from " +:+ quoted "metric_commits" +:+ " where time_range = $1 and date_to = $2")
            [AString "30d"; ATime (GoTime.Date 2024 3 1 0 0 0 0 GoTime.UTC)]
            (inr {| RowsAffected := inr 1 |})).
Proof. vm_compute. reflexivity. Qed.

(** ** The schema inferencer: which column lists are accepted *)

Section Schema.
Context (env : gmap string string).

Lemma column_loop_types (l i : Z) (columns : list ColumnType)
    (createTable : string) (colNames : list string) (namesMap : gset string)
    (text : string) (names : list string) :
  column_loop env l i columns createTable colNames namesMap = inr (text, names) ->
  Forall (fun c => snd (dbTypeName c env) = None) columns /\ names = colNames ++ (Name <$> columns).
Proof.
  revert i createTable colNames namesMap.
  induction columns as [| column rest IH]; intros i createTable colNames namesMap H.
  - cbn [column_loop] in H. inversion H; subst. split; [constructor | now rewrite app_nil_r].
  - apply column_loop_cons in H. destruct H as (Htp & _ & H).
    apply IH in H. destruct H as [Hrest ->]. split; [now constructor |].
    now rewrite <- app_assoc.
Qed.

Lemma column_loop_accepts (l i : Z) (columns : list ColumnType)
    (createTable : string) (colNames : list string) (namesMap : gset string) :
  Forall (fun c => snd (dbTypeName c env) = None) columns ->
  NoDup (Name <$> columns) ->
  (forall c, In c columns -> Name c ∉ namesMap) ->
  exists text names, column_loop env l i columns createTable colNames namesMap = inr (text, names).
Proof.
  revert i createTable colNames namesMap.
  induction columns as [| column rest IH]; intros i createTable colNames namesMap Htp Hnd Hnew.
  - eexists _, _. reflexivity.
  - cbn [column_loop]. apply Forall_cons in Htp as [Hc Hrest].
    destruct (dbTypeName column env) as [tp err]. cbn [snd] in Hc. subst err.
    rewrite bool_decide_eq_false_2 by (apply Hnew; now left).
    cbn [fmap list_fmap] in Hnd. apply NoDup_cons in Hnd as [Hfirst Hnd].
    apply IH; [exact Hrest | exact Hnd |].
    intros c Hin. rewrite elem_of_union, elem_of_singleton. intros [Heq | Hold].
    + apply Hfirst. rewrite <- Heq. apply list_elem_of_fmap. exists c.
      split; [reflexivity | now apply list_elem_of_In].
    + apply (Hnew c); [now right | exact Hold].
Qed.

End Schema.

Lemma createTable_text_types (table : string) (columns : list ColumnType) (ppt : bool)
    (env : gmap string string) (text : string) (colNames : list string) :
  createTable_text table columns ppt env = inr (text, colNames) ->
  Forall (fun c => snd (dbTypeName c env) = None) columns /\ colNames = Name <$> columns.
Proof.
  unfold createTable_text.
  destruct (column_loop env _ 0 columns _ [] ∅) as [err | [createTable names]] eqn:E;
    [discriminate |].
  intros [= _ <-]. now apply column_loop_types in E.
Qed.

(** X17. The DDL text is built exactly when [dbTypeName] knows the type of
    every column and no two columns have the same name. The column names
    it hands to the upsert are then those of the query, in the order of
    the query, the order in which the values of a row are bound. *)
Theorem schema_accepted_iff (table : string) (columns : list ColumnType) (ppt : bool)
    (env : gmap string string) :
  (is_Some (val_of (createTable_text table columns ppt env))
   <-> Forall (fun c => snd (dbTypeName c env) = None) columns /\ NoDup (Name <$> columns))
  /\ (forall text colNames,
        createTable_text table columns ppt env = inr (text, colNames) ->
        colNames = Name <$> columns).
Proof.
  split; [split |].
  - destruct (createTable_text table columns ppt env) as [err | [text names]] eqn:E.
    + cbn. intros [? ?]. discriminate.
    + intros _. split.
      * now apply createTable_text_types in E.
      * now apply createTable_text_NoDup in E.
  - intros [Htp Hnd]. unfold createTable_text.
    destruct (column_loop_accepts env (Z.of_nat (length columns) - 1) 0 columns
                (createTable_head table) [] ∅ Htp Hnd) as (text & names & ->).
    + intros c _. apply not_elem_of_empty.
    + cbn. eauto.
  - intros text colNames E. now apply createTable_text_types in E.
Qed.

(** X18. When the type of a column of the source query is not known to
    [dbTypeName] (and GUESS_TYPE is not set), [calculate] returns an
    error after the query and the reading of its column types: it
    executes no statement, and [gFinalState] stays as it was. *)
Theorem unknown_type_rejected (h : host) (sqlQuery table projectSlug timeRange dtFrom dtTo : string)
    (ppt : bool) (env : gmap string string) (g : Z) (hist : list event)
    (rows : Rows) (columns : list ColumnType) :
  db_Query h hist sqlQuery [] = inr rows ->
  r_columns rows = inr columns ->
  Exists (fun c => snd (dbTypeName c env) <> None) columns ->
  exists err,
    calculate h sqlQuery table projectSlug timeRange dtFrom dtTo ppt env g hist
    = (Some err, g, [query_event SSource sqlQuery [] (inr rows); columns_event SSource rows]).
Proof.
  intros Hq Hc Hbad. unfold calculate.
  rewrite run_bind, run_Query, Hq. rewrite run_bind, run_ColumnTypes, Hc.
  destruct (createTable_text table columns ppt env) as [err | [createTable colNames]] eqn:E.
  - exists err. rewrite run_ret. unfold query_event, columns_event. rewrite Hc. reflexivity.
  - exfalso. apply createTable_text_types in E as [Htp _].
    apply Exists_exists in Hbad as (c & Hin & Hc'). rewrite Forall_forall in Htp.
    apply Hc', Htp, Hin.
Qed.

(** The theorem applies: a column of type INT4. *)
Lemma unknown_type_rejected_witness :
  let rows := {| r_columns := inr [column_of "cnt" "INT4"; column_of "label" "TEXT"];
                 r_scans := [inr ["1"; "a"]]; r_err := None |} in
  let h := Samples.host_at 2024 3 15 rows 1 "" in
  exists err,
    calculate h "select 1 as cnt, 'a' as label" "metric_commits" "envoy" "30d"
      "'2024-02-01'" "'2024-03-01'" false ∅ 0 []
    = (Some err, 0,
       [query_event SSource "select 1 as cnt, 'a' as label" [] (inr rows); columns_event SSource rows]).
Proof.
  cbv zeta.
  apply (unknown_type_rejected _ _ _ _ _ _ _ _ _ _ _ _
           [column_of "cnt" "INT4"; column_of "label" "TEXT"]).
  - reflexivity.
  - reflexivity.
  - apply Exists_cons_hd. vm_compute. discriminate.
Defined.

(** ** The batch upsert engine: what the batches carry *)

Section BatchArgs.
Context (h : host).

Lemma exec_batch_args (query : string) (args : list arg) (changes : bool) (g : Z) (hist : list event) :
  concat (batch_args <$> (exec_batch h query args changes g hist).2) = args.
Proof.
  destruct (exec_batch_run h query args changes g hist) as (res & evs & -> & Hevs).
  cbn [snd fmap list_fmap concat]. unfold batch_args at 1. cbn [exec_event ev_site ev_op].
  assert (E : concat (batch_args <$> evs) = []).
  { induction Hevs as [| ev evs Hop _ IH]; [reflexivity |].
    cbn [fmap list_fmap concat]. fold (fmap (M := list) batch_args evs). rewrite IH.
    unfold batch_args. rewrite Hop. now destruct (ev_site ev). }
  fold (fmap (M := list) batch_args evs). rewrite E. apply app_nil_r.
Qed.

Variables (table projectSlug timeRange dtFrom dtTo : string) (calcDt : GoTime.Time).
Variables (nColumns : nat) (l : Z) (colNames : list string).

(** The row loop: the batches executed and the rows still collected are
    the rows read so far, in order. *)
Lemma upsert_rows_args (rows : list (list string)) (st : upsert) (g : Z) (hist : list event) :
  let '(res, _, evs) :=
    upsert_rows h table projectSlug timeRange dtFrom dtTo calcDt nColumns l colNames
      (inr <$> rows) st g hist in
  fst res = None ->
  concat (batch_args <$> evs) ++ u_args (snd res)
  = u_args st ++ rows_args timeRange projectSlug calcDt dtFrom dtTo nColumns (u_i st) rows.
Proof.
  revert st g hist. induction rows as [| vals rest IH]; intros st g hist.
  - cbn [fmap list_fmap upsert_rows]. rewrite run_ret. cbn [fst snd rows_args]. intros _.
    now rewrite app_nil_r.
  - cbn [fmap list_fmap upsert_rows]. fold (fmap (M := list) (@inr error (list string)) rest).
    rewrite run_bind, run_Scan.
    set (ep := if u_ep st =? 0 then Z.of_nat nColumns else u_ep st).
    set (args := u_args st ++ _ ++ _).
    assert (Hargs : args = u_args st
                           ++ row_args timeRange projectSlug calcDt dtFrom dtTo nColumns (u_i st + 1) vals)
      by reflexivity.
    destruct (gMaxPlaceholders - (6 + ep) <=? u_p st + (6 + ep)).
    + rewrite run_bind.
      match goal with
      | |- context [exec_batch h ?q args ?c ?g' ?hist'] =>
          pose proof (exec_batch_args q args c g' hist') as Hb;
          destruct (exec_batch h q args c g' hist') as [[[err changes] g1] e1]
      end.
      cbn [snd] in Hb. destruct err as [e |].
      * rewrite run_ret. cbn [fst]. discriminate.
      * match goal with
        | |- context [upsert_rows _ _ _ _ _ _ _ _ _ _ _ ?st' ?g' ?hist'] =>
            specialize (IH st' g' hist')
        end.
        destruct (upsert_rows _ _ _ _ _ _ _ _ _ _ _ _ g1 _) as [[res g2] e2].
        intros Hres. specialize (IH Hres). cbn [u_args u_i app] in IH.
        cbn [app fmap list_fmap concat]. fold (fmap (M := list) batch_args (e1 ++ e2)).
        rewrite fmap_app, concat_app, Hb. cbn [batch_args ev_site].
        cbn [rows_args]. rewrite <- !app_assoc. rewrite IH. rewrite Hargs.
        now rewrite <- !app_assoc.
    + match goal with
      | |- context [upsert_rows _ _ _ _ _ _ _ _ _ _ _ ?st' ?g' ?hist'] =>
          specialize (IH st' g' hist')
      end.
      destruct (upsert_rows _ _ _ _ _ _ _ _ _ _ _ _ g _) as [[res g2] e2].
      intros Hres. specialize (IH Hres). cbn [u_args u_i] in IH.
      cbn [app fmap list_fmap concat]. fold (fmap (M := list) batch_args e2).
      cbn [batch_args ev_site app]. rewrite IH, Hargs. cbn [rows_args]. now rewrite <- !app_assoc.
Qed.

Lemma final_flush_args (st : upsert) (g : Z) (hist : list event) :
  concat (batch_args <$> (final_flush h l colNames st g hist).2) = u_args st.
Proof.
  unfold final_flush.
  destruct (Z.ltb_spec 0 (Z.of_nat (length (u_args st)))) as [Hlen | Hlen].
  - rewrite run_bind.
    pose proof (exec_batch_args (u_query st +:+ conflict_clause l colNames) (u_args st)
                  (u_changes st) g hist) as Hb.
    destruct (exec_batch h _ (u_args st) (u_changes st) g hist) as [[[err changes] g1] e1].
    cbn [snd] in Hb. destruct err; rewrite run_ret; cbn [snd]; now rewrite app_nil_r.
  - rewrite run_ret. cbn [snd fmap list_fmap concat]. destruct (u_args st); [reflexivity |].
    cbn [length] in Hlen. lia.
Qed.

End BatchArgs.

(** X19. When [calculate] returns without error, its batches carry every row
    of the source query exactly once and in the order read: the
    parameters of all the batches, one batch after the other, are the
    parameters of the rows. Every row binds the same time of computation,
    and the rows are numbered 1, 2, ... through all the batches. *)
Theorem batches_carry_every_row (h : host)
    (sqlQuery table projectSlug timeRange dtFrom dtTo : string)
    (ppt : bool) (env : gmap string string) (g : Z) (hist : list event)
    (rows : Rows) (columns : list ColumnType) (vals : list (list string)) :
  db_Query h hist sqlQuery [] = inr rows ->
  r_columns rows = inr columns ->
  r_scans rows = inr <$> vals ->
  (calculate h sqlQuery table projectSlug timeRange dtFrom dtTo ppt env g hist).1.1 = None ->
  exists calcDt,
    concat (batch_args <$> (calculate h sqlQuery table projectSlug timeRange dtFrom dtTo ppt env g hist).2)
    = rows_args timeRange projectSlug calcDt dtFrom dtTo (length columns) 0 vals.
Proof.
  intros Hq Hc Hv.
  destruct (calculate h sqlQuery table projectSlug timeRange dtFrom dtTo ppt env g hist)
    as [[err g'] evs] eqn:E.
  cbn [fst snd]. intros ->.
  unfold calculate in E. rewrite run_bind, run_Query, Hq in E.
  rewrite run_bind, run_ColumnTypes, Hc in E.
  destruct (createTable_text table columns ppt env) as [e | [createTable colNames]];
    [rewrite run_ret in E; discriminate E |].
  rewrite run_bind, run_Exec in E.
  destruct (db_Exec h _ createTable []) as [e | res]; [rewrite run_ret in E; discriminate E |].
  rewrite run_bind, run_Now in E. rewrite run_bind in E.
  match type of E with
  | context [upsert_rows h ?a ?b ?c ?d ?e ?dt ?n ?l ?cn ?scans ?st ?g0 ?hist0] =>
      exists dt;
      pose proof (upsert_rows_args h a b c d e dt n l cn vals st g0 hist0) as Hloop;
      rewrite <- Hv in Hloop
  end.
  destruct (upsert_rows h _ _ _ _ _ _ _ _ _ _ _ g _) as [[[err st] g1] e1].
  destruct err as [e |]; [rewrite run_ret in E; discriminate E |].
  specialize (Hloop eq_refl). cbn [fst snd u_args upsert_init u_i app] in Hloop.
  rewrite run_bind, run_NextEnd in E. unfold next_event in E. rewrite run_bind in E.
  match type of E with
  | context [final_flush h ?l ?cn st ?g0 ?hist0] =>
      pose proof (final_flush_args h l cn st g0 hist0) as Hflush
  end.
  destruct (final_flush h _ colNames st g1 _) as [[[err st'] g2] e2].
  cbn [snd] in Hflush.
  destruct err as [e |]; [rewrite run_ret in E; discriminate E |].
  rewrite run_bind, run_RowsErr in E.
  destruct (r_err rows) as [e |]; [rewrite run_ret in E; discriminate E |].
  rewrite run_bind in E.
  assert (Hset : forall g0 hist0,
            ((if u_changes st' then set_gFinalState 1 else mret tt) g0 hist0).2 = []).
  { intros g0 hist0. destruct (u_changes st'); reflexivity. }
  match type of E with
  | context [(if u_changes st' then set_gFinalState 1 else mret tt) ?g0 ?hist0] =>
      specialize (Hset g0 hist0);
      destruct ((if u_changes st' then set_gFinalState 1 else mret tt) g0 hist0) as [[u g3] e3]
  end.
  cbn [snd] in Hset. subst e3. rewrite run_ret in E. inversion E; subst evs; clear E.
  repeat (rewrite ?fmap_cons, ?fmap_app, ?concat_cons, ?concat_app).
  cbn [fmap list_fmap concat batch_args ev_site app].
  rewrite ?app_nil_r. rewrite Hflush. exact Hloop.
Qed.

Section WholeRows.
Context (h : host).

Lemma exec_batch_whole (nColumns : nat) (query : string) (args : list arg) (changes : bool)
    (g : Z) (hist : list event) (k : Z) :
  0 < k -> Z.of_nat (length args) = k * (6 + Z.of_nat nColumns) ->
  Forall (whole_rows nColumns) (exec_batch h query args changes g hist).2.
Proof.
  intros Hk Hlen. destruct (exec_batch_run h query args changes g hist) as (res & evs & -> & Hevs).
  cbn [snd]. constructor.
  - intros q a _ [= _ <-]. now exists k.
  - eapply Forall_impl; [exact Hevs |]. intros ev Hop q a _ Hq. congruence.
Qed.

Variables (table projectSlug timeRange dtFrom dtTo : string) (calcDt : GoTime.Time).
Variables (nColumns : nat) (l : Z) (colNames : list string).

Lemma upsert_rows_whole (scans : list (error + list string)) (st : upsert) (g : Z) (hist : list event) :
  collects_rows nColumns st ->
  let '(res, _, evs) :=
    upsert_rows h table projectSlug timeRange dtFrom dtTo calcDt nColumns l colNames scans st g hist in
  Forall (whole_rows nColumns) evs /\ (fst res = None -> collects_rows nColumns (snd res)).
Proof.
  revert st g hist. induction scans as [| row rest IH]; intros st g hist Hinv.
  - cbn [upsert_rows]. rewrite run_ret. split; [constructor | intros _; exact Hinv].
  - cbn [upsert_rows]. rewrite run_bind, run_Scan.
    assert (Hscan : whole_rows nColumns {| ev_site := SSource; ev_op := OpScan;
                                           ev_err := err_of row; ev_rows := None |})
      by (intros q a N; discriminate).
    destruct row as [err | vals].
    + rewrite run_ret. cbn [app]. split; [repeat constructor; exact Hscan | discriminate].
    + destruct Hinv as (k & Hk & Hlen).
      set (ep := if u_ep st =? 0 then Z.of_nat nColumns else u_ep st).
      set (args := u_args st ++ _ ++ _).
      assert (Hargs : Z.of_nat (length args) = (k + 1) * (6 + Z.of_nat nColumns)).
      { subst args. rewrite !length_app, length_map, length_scanned. cbn [length]. lia. }
      destruct (gMaxPlaceholders - (6 + ep) <=? u_p st + (6 + ep)).
      * rewrite run_bind.
        match goal with
        | |- context [exec_batch h ?q args ?c ?g' ?hist'] =>
            pose proof (exec_batch_whole nColumns q args c g' hist' (k + 1) ltac:(lia) Hargs) as Hb;
            destruct (exec_batch h q args c g' hist') as [[[err changes] g1] e1]
        end.
        cbn [snd] in Hb. destruct err as [e |].
        -- rewrite run_ret. cbn [app fst snd]. rewrite app_nil_r.
           split; [constructor; assumption | discriminate].
        -- match goal with
           | |- context [upsert_rows _ _ _ _ _ _ _ _ _ _ rest ?st' ?g' ?hist'] =>
               specialize (IH st' g' hist')
           end.
           destruct (upsert_rows _ _ _ _ _ _ _ _ _ _ rest _ g1 _) as [[res g2] e2].
           cbn [app]. destruct IH as [IH1 IH2].
           { exists 0. cbn [u_args length]. lia. }
           split; [constructor; [assumption | apply Forall_app; auto] | exact IH2].
      * match goal with
        | |- context [upsert_rows _ _ _ _ _ _ _ _ _ _ rest ?st' ?g' ?hist'] =>
            specialize (IH st' g' hist')
        end.
        destruct (upsert_rows _ _ _ _ _ _ _ _ _ _ rest _ g _) as [[res g2] e2].
        cbn [app]. destruct IH as [IH1 IH2].
        { exists (k + 1). cbn [u_args]. split; [lia | exact Hargs]. }
        split; [constructor; assumption | exact IH2].
Qed.

Lemma final_flush_whole (st : upsert) (g : Z) (hist : list event) :
  collects_rows nColumns st ->
  Forall (whole_rows nColumns) (final_flush h l colNames st g hist).2.
Proof.
  intros (k & Hk & Hlen). unfold final_flush.
  destruct (Z.ltb_spec 0 (Z.of_nat (length (u_args st)))) as [Hpos | _];
    [| rewrite run_ret; constructor].
  rewrite run_bind.
  pose proof (exec_batch_whole nColumns (u_query st +:+ conflict_clause l colNames) (u_args st)
                (u_changes st) g hist k ltac:(nia) Hlen) as Hb.
  destruct (exec_batch h _ (u_args st) (u_changes st) g hist) as [[[err changes] g1] e1].
  cbn [snd] in Hb. destruct err; rewrite run_ret; cbn [snd]; now rewrite app_nil_r.
Qed.

End WholeRows.

(** X20. No batch of the upsert is empty, and none ends in the middle of a
    row: every statement that [calculate] executes for a batch binds the
    six identity parameters and one parameter per column for each of its
    rows, and has one row at least. *)
Theorem batches_hold_whole_rows (h : host)
    (sqlQuery table projectSlug timeRange dtFrom dtTo : string)
    (ppt : bool) (env : gmap string string) (g : Z) (hist : list event)
    (rows : Rows) (columns : list ColumnType) :
  db_Query h hist sqlQuery [] = inr rows ->
  r_columns rows = inr columns ->
  Forall (whole_rows (length columns))
    (calculate h sqlQuery table projectSlug timeRange dtFrom dtTo ppt env g hist).2.
Proof.
  intros Hq Hc. unfold calculate.
  assert (Hother : forall ev, ev_site ev <> SBatch -> whole_rows (length columns) ev)
    by (intros ev N q a E; contradiction).
  rewrite run_bind, run_Query, Hq. rewrite run_bind, run_ColumnTypes, Hc.
  destruct (createTable_text table columns ppt env) as [err | [createTable colNames]].
  { rewrite run_ret. cbn [snd app]. repeat (constructor; [apply Hother; discriminate |]). constructor. }
  rewrite run_bind, run_Exec.
  destruct (db_Exec h _ createTable []) as [err | res].
  { rewrite run_ret. cbn [snd app]. repeat (constructor; [apply Hother; discriminate |]). constructor. }
  rewrite run_bind, run_Now. rewrite run_bind.
  match goal with
  | |- context [upsert_rows h ?a ?b ?c ?d ?e ?f ?n ?l ?cn ?scans ?st ?g' ?hist'] =>
      pose proof (upsert_rows_whole h a b c d e f n l cn scans st g' hist') as Hloop
  end.
  destruct (upsert_rows h _ _ _ _ _ _ _ _ _ _ _ g _) as [[[err st] g1] e1].
  destruct Hloop as [Hev Hst].
  { exists 0. cbn [upsert_init u_args length]. lia. }
  cbn [fst snd] in Hst.
  assert (Hhead : forall (a b c d : event) evs,
            ev_site a <> SBatch -> ev_site b <> SBatch -> ev_site c <> SBatch ->
            ev_site d <> SBatch -> Forall (whole_rows (length columns)) evs ->
            Forall (whole_rows (length columns)) ([a] ++ [b] ++ [c] ++ [d] ++ evs)).
  { intros a b c d evs Ha Hb Hc' Hd Hevs. cbn [app].
    repeat (constructor; [apply Hother; assumption |]). exact Hevs. }
  destruct err as [e |].
  { rewrite run_ret. cbn [snd]. apply Hhead; try discriminate. now rewrite app_nil_r. }
  rewrite run_bind, run_NextEnd. rewrite run_bind.
  match goal with
  | |- context [final_flush h ?l ?cn st ?g' ?hist'] =>
      pose proof (final_flush_whole h (length columns) l cn st g' hist' (Hst eq_refl)) as Hfinal
  end.
  destruct (final_flush h _ colNames st g1 _) as [[[err st'] g2] e2].
  cbn [snd] in Hfinal.
  assert (Hnext : Forall (whole_rows (length columns)) [next_event SSource rows])
    by (constructor; [apply Hother; discriminate | constructor]).
  assert (Herr : Forall (whole_rows (length columns))
                   [ {| ev_site := SSource; ev_op := OpRowsErr; ev_err := r_err rows; ev_rows := None |} ])
    by (constructor; [apply Hother; discriminate | constructor]).
  destruct err as [e |].
  { rewrite run_ret. cbn [snd]. apply Hhead; try discriminate. rewrite app_nil_r.
    repeat (apply Forall_app; split); assumption. }
  rewrite run_bind, run_RowsErr.
  destruct (r_err rows) as [e |].
  { rewrite run_ret. cbn [snd]. apply Hhead; try discriminate. rewrite app_nil_r.
    repeat (apply Forall_app; split); assumption. }
  rewrite run_bind.
  assert (Hset : forall g' hist',
            ((if u_changes st' then set_gFinalState 1 else mret tt) g' hist').2 = []).
  { intros g' hist'. destruct (u_changes st'); reflexivity. }
  match goal with
  | |- context [(if u_changes st' then set_gFinalState 1 else mret tt) ?g' ?hist'] =>
      specialize (Hset g' hist');
      destruct ((if u_changes st' then set_gFinalState 1 else mret tt) g' hist') as [[u g3] e3]
  end.
  cbn [snd] in Hset. subst e3. rewrite run_ret. cbn [snd]. apply Hhead; try discriminate.
  rewrite !app_nil_r. repeat (apply Forall_app; split); assumption.
Qed.

(** The theorem applies: one row of two columns. *)
Lemma batches_hold_whole_rows_witness :
  Forall (whole_rows (length [ {| Name := "cnt"; DatabaseTypeName := "INT8"; Nullable := (false, true) |};
                               {| Name := "label"; DatabaseTypeName := "TEXT"; Nullable := (true, true) |} ]))
    (calculate (Samples.host_at 2024 3 15 Samples.one_row 1 "")
       "select count(*) as cnt, 'commits' as label" "metric_commits" "envoy" "30d"
       "'2024-02-01'" "'2024-03-01'" false ∅ 0 []).2.
Proof.
  apply (batches_hold_whole_rows _ _ _ _ _ _ _ _ _ _ _ Samples.one_row); reflexivity.
Defined.

(** The theorem applies: one row of two columns. *)
Lemma batches_carry_every_row_witness :
  exists calcDt,
    concat (batch_args <$>
              (calculate (Samples.host_at 2024 3 15 Samples.one_row 1 "")
                 "select count(*) as cnt, 'commits' as label" "metric_commits" "envoy" "30d"
                 "'2024-02-01'" "'2024-03-01'" false ∅ 0 []).2)
    = rows_args "30d" "envoy" calcDt "'2024-02-01'" "'2024-03-01'"
        (length [ {| Name := "cnt"; DatabaseTypeName := "INT8"; Nullable := (false, true) |};
                  {| Name := "label"; DatabaseTypeName := "TEXT"; Nullable := (true, true) |} ])
        0 [["7"; "commits"]].
Proof.
  apply (batches_carry_every_row _ _ _ _ _ _ _ _ _ _ _ Samples.one_row); reflexivity.
Defined.

(** ** The whole run: when the metric is computed *)

Lemma computes_shift (forced : bool) (err : option error) (g g1 : Z) (e1 e2 : list event) :
  quiet g g1 e1 -> computes forced err e2 -> computes forced err (e1 ++ e2).
Proof.
  intros Hq [Ha Hb]. unfold computes, computation_performed in *.
  rewrite !existsb_app, (quiet_unchanged _ _ _ Hq). cbn [orb]. split.
  - intros H. rewrite (Ha H). apply orb_true_r.
  - intros Hf He. rewrite (Hb Hf He). apply orb_true_r.
Qed.

Lemma computes_stop (forced : bool) (e : error) (g g1 : Z) (e1 : list event) :
  quiet g g1 e1 -> computes forced (Some e) (e1 ++ []).
Proof.
  intros Hq. rewrite app_nil_r. split; [| discriminate].
  rewrite (quiet_unchanged _ _ _ Hq). discriminate.
Qed.

Lemma computes_tail (forced : bool) (err : option error) (g g1 : Z) (e1 e2 : list event) :
  computes forced err e1 -> quiet g g1 e2 -> computes forced err (e1 ++ e2).
Proof.
  intros [Ha Hb] Hq. unfold computes, computation_performed in *.
  rewrite !existsb_app, (quiet_unchanged _ _ _ Hq), orb_false_r. split.
  - intros H. now rewrite (Ha H).
  - intros Hf He. now rewrite (Hb Hf He).
Qed.

(** [calculate] changes rows only after it has created the table, and
    returns no error only then. *)
Lemma calculate_computes (h : host) (sqlQuery table projectSlug timeRange dtFrom dtTo : string)
    (ppt : bool) (env : gmap string string) (g : Z) (hist : list event) :
  let '(err, _, evs) :=
    calculate h sqlQuery table projectSlug timeRange dtFrom dtTo ppt env g hist in
  computes true err evs.
Proof.
  unfold calculate, computes.
  rewrite run_bind, run_Query.
  destruct (db_Query h hist sqlQuery []) as [err | rows].
  { rewrite run_ret. cbn. split; [discriminate | intros _; discriminate]. }
  rewrite run_bind, run_ColumnTypes.
  destruct (r_columns rows) as [err | columns].
  { rewrite run_ret. cbn. split; [discriminate | intros _; discriminate]. }
  destruct (createTable_text table columns ppt env) as [err | [createTable colNames]].
  { rewrite run_ret. cbn. split; [discriminate | intros _; discriminate]. }
  rewrite run_bind, run_Exec.
  destruct (db_Exec h _ createTable []) as [err | res].
  { rewrite run_ret. cbn. split; [discriminate | intros _; discriminate]. }
  match goal with
  | |- context [(Now h SCalcDt ≫= ?f) ?g0 ?hist0] => destruct ((Now h SCalcDt ≫= f) g0 hist0) as [[err g1] e1]
  end.
  assert (Hp : computation_performed
                 ([ {| ev_site := SSource; ev_op := OpQuery sqlQuery [];
                       ev_err := err_of (inr rows : error + Rows); ev_rows := None |} ]
                  ++ [ {| ev_site := SSource; ev_op := OpColumnTypes;
                          ev_err := err_of (inr columns : error + list ColumnType);
                          ev_rows := None |} ]
                  ++ [ {| ev_site := SCreate; ev_op := OpExec createTable [];
                          ev_err := err_of (inr res : error + Result); ev_rows := None |} ]
                  ++ e1) = true).
  { unfold computation_performed. cbn [app existsb ev_site ev_op]. reflexivity. }
  split; intros; exact Hp.
Qed.

Section Computes.
Context (h : host) {C : Calendar}.

(** [calcMetric] changes rows only after it has created the table; with
    FORCE_CALC it creates the table whenever it returns no error. *)
Lemma calcMetric_computes (environ : list string) (g : Z) (hist : list event) :
  wp (calcMetric h environ) g hist
     (fun err _ evs => computes (has_key (parse_environ environ) "FORCE_CALC") err evs).
Proof.
  unfold calcMetric.
  set (env := parse_environ environ). set (forced := has_key env "FORCE_CALC").
  assert (Hnone : forall e, computes forced (Some e) []).
  { intros e. split; discriminate. }
  destruct (missing_required env); [apply wp_ret, Hnone |].
  (* sql.Open *)
  apply wp_bind. unfold wp at 1. rewrite run_Open.
  assert (Hq0 : forall (ev : event), ev_site ev <> SBatch -> quiet g g [ev]).
  { intros ev Hev. split; [reflexivity | repeat constructor; exact Hev]. }
  destruct (sql_Open h hist _) as [err |].
  { apply wp_ret. eapply computes_stop. apply Hq0. discriminate. }
  apply (wp_mono _ _ _ (fun err _ evs => computes forced err evs));
    [| intros a g' evs H; eapply computes_shift; [apply Hq0; discriminate | exact H]].
  (* drop table *)
  apply wp_bind.
  apply (wp_mono _ _ _ (fun e g1 e1 => quiet g g1 e1)).
  { destruct (has_key env "DROP").
    - apply wp_bind. unfold wp at 1. rewrite run_Exec. apply wp_ret. rewrite app_nil_r.
      apply Hq0. discriminate.
    - apply wp_ret. apply quiet_nil. }
  intros e g1 e1 Hq1.
  destruct e as [err |]; [apply wp_ret; eapply computes_stop; exact Hq1 |].
  apply (wp_mono _ _ _ (fun err _ evs => computes forced err evs));
    [| intros a g' evs H; eapply computes_shift; [exact Hq1 | exact H]].
  clear Hq1.
  (* needsCalculation *)
  apply wp_bind.
  eapply wp_mono; [apply (needsCalculation_sound h SFreshness); now left |].
  intros [[[needsCalc dtf] dtt] err] g2 e2 [Hq2 _].
  destruct err as [e |]; [apply wp_ret; eapply computes_stop; exact Hq2 |].
  apply (wp_mono _ _ _ (fun err _ evs => computes forced err evs));
    [| intros a g' evs H; eapply computes_shift; [exact Hq2 | exact H]].
  clear Hq2.
  (* supportDelete *)
  apply wp_bind.
  eapply wp_mono; [apply (supportDelete_sound h) |].
  intros deleted g3 e3 [Hq3 _].
  apply (wp_mono _ _ _ (fun err _ evs => computes forced err evs));
    [| intros a g' evs H; eapply computes_shift; [exact Hq3 | exact H]].
  clear Hq3.
  (* the freshness check again *)
  apply wp_bind.
  apply (wp_mono _ _ _ (fun _ g4 e4 => quiet g3 g4 e4)).
  { destruct deleted.
    - apply wp_bind. eapply wp_mono; [apply needsCalculation_recheck |].
      intros [[[n f] t] e] g4 e4 [Hq4 _]. apply wp_ret. now rewrite app_nil_r.
    - apply wp_ret. apply quiet_nil. }
  intros [[needsCalc' dtf'] dtt'] g4 e4 Hq4.
  apply (wp_mono _ _ _ (fun err _ evs => computes forced err evs));
    [| intros a g' evs H; eapply computes_shift; [exact Hq4 | exact H]].
  clear Hq4. fold forced.
  destruct (negb (if negb needsCalc' then forced else needsCalc')) eqn:Hneeds.
  { apply wp_ret. split; [discriminate |]. intros Hf _. rewrite Hf in Hneeds.
    now destruct needsCalc'. }
  (* the query template *)
  apply wp_bind. unfold wp at 1. rewrite run_ReadFile.
  assert (Hq4 : forall (ev : event), ev_site ev <> SBatch -> quiet g4 g4 [ev]).
  { intros ev Hev. split; [reflexivity | repeat constructor; exact Hev]. }
  destruct (ioutil_ReadFile h _ _) as [err | contents].
  { apply wp_ret. eapply computes_stop. apply Hq4. discriminate. }
  apply (wp_mono _ _ _ (fun err _ evs => computes forced err evs));
    [| intros a g' evs H; eapply computes_shift; [apply Hq4; discriminate | exact H]].
  (* calculate *)
  apply wp_bind.
  eapply wp_mono; [apply calculate_computes |].
  intros err g5 e5 [Ha Hb].
  assert (Hc : computes forced err e5).
  { split; [exact Ha | intros _; now apply Hb]. }
  destruct err as [e |].
  { apply wp_ret. now rewrite app_nil_r. }
  (* supportCleanup *)
  apply wp_bind.
  eapply wp_mono; [apply (supportCleanup_sound h) |].
  intros [] g6 e6 [Hq6 _]. apply wp_ret. rewrite app_nil_r.
  eapply computes_tail; [exact Hc | exact Hq6].
Qed.

End Computes.

Lemma computation_performed_trace (evs : list event) :
  computation_performed (clock_event SMain :: evs ++ [clock_event SMain])
  = computation_performed evs.
Proof.
  unfold computation_performed. cbn [existsb]. rewrite existsb_app. cbn.
  now rewrite orb_false_r.
Qed.

(** X21. Exit code 0 is given only by a run that has created the destination
    table (if it was not there) and upserted rows into it: a batch
    reports changed rows only after the [create table] statement has
    succeeded. *)
Theorem exit_zero_means_computed (h : host) (C : Calendar) (environ : list string) :
  (run h C environ).1 = 0 ->
  computation_performed (run h C environ).2 = true /\
  existsb changed_rows (run h C environ).2 = true.
Proof.
  pose proof (run_calcMetric h C environ) as H.
  pose proof (calcMetric_computes h environ 0 [clock_event SMain]) as Hc. unfold wp in Hc.
  destruct (calcMetric h environ 0 [clock_event SMain]) as [[err g1] evs].
  destruct H as [-> _]. cbn [fst snd]. destruct Hc as [Ha _].
  rewrite computation_performed_trace, changed_rows_trace.
  destruct err as [e |]; cbn [is_some]; [discriminate |].
  destruct (existsb changed_rows evs); [| discriminate].
  intros _. split; [now apply Ha | reflexivity].
Qed.

(** The theorem applies: the table is missing and the query has one row. *)
Lemma exit_zero_means_computed_witness :
  computation_performed
    (run (Samples.host_at 2024 3 15 Samples.one_row 1 "") spec_calendar Samples.environ).2 = true /\
  existsb changed_rows
    (run (Samples.host_at 2024 3 15 Samples.one_row 1 "") spec_calendar Samples.environ).2 = true.
Proof. apply exit_zero_means_computed. vm_compute. reflexivity. Defined.

(** X22. With FORCE_CALC set, a run that does not fail computes the metric
    whatever the freshness check has answered: it reads the query,
    creates the table and upserts the rows, and its exit code is 0 or
    66. *)
Theorem force_calc_computes (h : host) (C : Calendar) (environ : list string) :
  has_key (parse_environ environ) "FORCE_CALC" = true ->
  (run h C environ).1 <> 1 ->
  computation_performed (run h C environ).2 = true /\
  ((run h C environ).1 = 0 \/ (run h C environ).1 = 66).
Proof.
  intros Hforce.
  pose proof (run_calcMetric h C environ) as H.
  pose proof (calcMetric_computes h environ 0 [clock_event SMain]) as Hc. unfold wp in Hc.
  destruct (calcMetric h environ 0 [clock_event SMain]) as [[err g1] evs].
  destruct H as [-> _]. cbn [fst snd]. destruct Hc as [_ Hb].
  rewrite computation_performed_trace.
  destruct err as [e |]; cbn [is_some]; [congruence |].
  intros _. split; [now apply Hb |].
  destruct (existsb changed_rows evs); [now left | now right].
Qed.

(** The theorem applies: the metric is in the table already. *)
Lemma force_calc_computes_witness :
  computation_performed
    (run Samples.host_of_tables spec_calendar ("V3_FORCE_CALC=1" :: Samples.environ)).2 = true /\
  ((run Samples.host_of_tables spec_calendar ("V3_FORCE_CALC=1" :: Samples.environ)).1 = 0 \/
   (run Samples.host_of_tables spec_calendar ("V3_FORCE_CALC=1" :: Samples.environ)).1 = 66).
Proof.
  apply force_calc_computes.
  - vm_compute. reflexivity.
  - vm_compute. discriminate.
Defined.

(** The run of the case above was not needed: without FORCE_CALC the
    same database gives exit code 66 and nothing is computed. *)
Example force_calc_ex :
  (run Samples.host_of_tables spec_calendar Samples.environ).1 = 66 /\
  computation_performed (run Samples.host_of_tables spec_calendar Samples.environ).2 = false /\
  (run Samples.host_of_tables spec_calendar ("V3_FORCE_CALC=1" :: Samples.environ)).1 = 0.
Proof. repeat split; vm_compute; reflexivity. Qed.

(** ** The whole run: when the metric is skipped *)

Section Sites.
Context (h : host).

Lemma exec_batch_sites (query : string) (args : list arg) (changes : bool) (g : Z) (hist : list event) :
  Forall (fun ev => ev_site ev = SBatch) (exec_batch h query args changes g hist).2.
Proof.
  unfold exec_batch. rewrite run_bind, run_Exec.
  destruct (db_Exec h hist query args) as [err | rslt].
  - rewrite run_ret. repeat constructor.
  - rewrite run_bind, run_GetRowsAffected.
    destruct (RowsAffected rslt); rewrite run_ret; repeat constructor.
Qed.

Lemma batch_site_computing (evs : list event) :
  Forall (fun ev => ev_site ev = SBatch) evs ->
  Forall (fun ev => In (ev_site ev) computing_sites) evs.
Proof.
  intros H. eapply Forall_impl; [exact H |]. intros ev ->. unfold computing_sites. cbn. tauto.
Qed.

Variables (table projectSlug timeRange dtFrom dtTo : string) (calcDt : GoTime.Time).
Variables (nColumns : nat) (l : Z) (colNames : list string).

Lemma upsert_rows_sites (scans : list (error + list string)) (st : upsert) (g : Z) (hist : list event) :
  Forall (fun ev => In (ev_site ev) computing_sites)
    (upsert_rows h table projectSlug timeRange dtFrom dtTo calcDt nColumns l colNames scans st g hist).2.
Proof.
  revert st g hist. induction scans as [| row rest IH]; intros st g hist.
  - cbn [upsert_rows]. rewrite run_ret. constructor.
  - cbn [upsert_rows]. rewrite run_bind, run_Scan.
    assert (Hscan : In (ev_site {| ev_site := SSource; ev_op := OpScan;
                                   ev_err := err_of row; ev_rows := None |}) computing_sites)
      by (cbn; tauto).
    destruct row as [err | vals].
    + rewrite run_ret. cbn [snd app]. constructor; [exact Hscan | constructor].
    + destruct (_ <=? _).
      * rewrite run_bind.
        match goal with
        | |- context [exec_batch h ?q ?a ?c ?g' ?hist'] =>
            pose proof (batch_site_computing _ (exec_batch_sites q a c g' hist')) as Hb;
            destruct (exec_batch h q a c g' hist') as [[[err changes] g1] e1]
        end.
        cbn [snd] in Hb. destruct err as [e |].
        -- rewrite run_ret. cbn [snd app]. rewrite app_nil_r. constructor; assumption.
        -- match goal with
           | |- context [upsert_rows _ _ _ _ _ _ _ _ _ _ rest ?st' ?g' ?hist'] =>
               specialize (IH st' g' hist')
           end.
           destruct (upsert_rows _ _ _ _ _ _ _ _ _ _ rest _ g1 _) as [[res g2] e2].
           cbn [snd app] in *. constructor; [assumption | apply Forall_app; auto].
      * match goal with
        | |- context [upsert_rows _ _ _ _ _ _ _ _ _ _ rest ?st' ?g' ?hist'] =>
            specialize (IH st' g' hist')
        end.
        destruct (upsert_rows _ _ _ _ _ _ _ _ _ _ rest _ g _) as [[res g2] e2].
        cbn [snd app] in *. constructor; assumption.
Qed.

Lemma final_flush_sites (st : upsert) (g : Z) (hist : list event) :
  Forall (fun ev => In (ev_site ev) computing_sites) (final_flush h l colNames st g hist).2.
Proof.
  unfold final_flush. destruct (0 <? _); [| rewrite run_ret; constructor].
  rewrite run_bind.
  match goal with
  | |- context [exec_batch h ?q ?a ?c ?g' ?hist'] =>
      pose proof (batch_site_computing _ (exec_batch_sites q a c g' hist')) as Hb;
      destruct (exec_batch h q a c g' hist') as [[[err changes] g1] e1]
  end.
  cbn [snd] in Hb. destruct err; rewrite run_ret; cbn [snd]; now rewrite app_nil_r.
Qed.

End Sites.

(** Every call of [calculate] is made at one of its own call sites. *)
Lemma calculate_sites (h : host) (sqlQuery table projectSlug timeRange dtFrom dtTo : string)
    (ppt : bool) (env : gmap string string) (g : Z) (hist : list event) :
  Forall (fun ev => In (ev_site ev) computing_sites)
    (calculate h sqlQuery table projectSlug timeRange dtFrom dtTo ppt env g hist).2.
Proof.
  unfold calculate.
  assert (Hin : forall ev, ev_site ev = SSource \/ ev_site ev = SCreate \/ ev_site ev = SCalcDt ->
                  In (ev_site ev) computing_sites).
  { intros ev [-> | [-> | ->]]; cbn; tauto. }
  rewrite run_bind, run_Query.
  destruct (db_Query h hist sqlQuery []) as [err | rows].
  { rewrite run_ret. cbn [snd app]. repeat (constructor; [apply Hin; cbn; tauto |]). constructor. }
  rewrite run_bind, run_ColumnTypes.
  destruct (r_columns rows) as [err | columns].
  { rewrite run_ret. cbn [snd app]. repeat (constructor; [apply Hin; cbn; tauto |]). constructor. }
  destruct (createTable_text table columns ppt env) as [err | [createTable colNames]].
  { rewrite run_ret. cbn [snd app]. repeat (constructor; [apply Hin; cbn; tauto |]). constructor. }
  rewrite run_bind, run_Exec.
  destruct (db_Exec h _ createTable []) as [err | res].
  { rewrite run_ret. cbn [snd app]. repeat (constructor; [apply Hin; cbn; tauto |]). constructor. }
  rewrite run_bind, run_Now. rewrite run_bind.
  match goal with
  | |- context [upsert_rows h ?a ?b ?c ?d ?e ?f ?n ?l ?cn ?scans ?st ?g' ?hist'] =>
      pose proof (upsert_rows_sites h a b c d e f n l cn scans st g' hist') as Hloop
  end.
  destruct (upsert_rows h _ _ _ _ _ _ _ _ _ _ _ g _) as [[[err st] g1] e1].
  cbn [snd] in Hloop.
  assert (Hhead : forall (a b c d : event) evs,
            In (ev_site a) computing_sites -> In (ev_site b) computing_sites ->
            In (ev_site c) computing_sites -> In (ev_site d) computing_sites ->
            Forall (fun ev => In (ev_site ev) computing_sites) evs ->
            Forall (fun ev => In (ev_site ev) computing_sites) ([a] ++ [b] ++ [c] ++ [d] ++ evs)).
  { intros a b c d evs Ha Hb Hc Hd Hevs. cbn [app]. repeat (constructor; [assumption |]). exact Hevs. }
  destruct err as [e |].
  { rewrite run_ret. cbn [snd]. apply Hhead; try (apply Hin; cbn; tauto). now rewrite app_nil_r. }
  rewrite run_bind, run_NextEnd. rewrite run_bind.
  match goal with
  | |- context [final_flush h ?l ?cn st ?g' ?hist'] =>
      pose proof (final_flush_sites h l cn st g' hist') as Hfinal
  end.
  destruct (final_flush h _ colNames st g1 _) as [[[err st'] g2] e2].
  cbn [snd] in Hfinal.
  assert (Hnext : Forall (fun ev => In (ev_site ev) computing_sites) [next_event SSource rows])
    by (constructor; [apply Hin; cbn; tauto | constructor]).
  assert (Herr : Forall (fun ev => In (ev_site ev) computing_sites)
                   [ {| ev_site := SSource; ev_op := OpRowsErr; ev_err := r_err rows; ev_rows := None |} ])
    by (constructor; [apply Hin; cbn; tauto | constructor]).
  destruct err as [e |].
  { rewrite run_ret. cbn [snd]. apply Hhead; try (apply Hin; cbn; tauto). rewrite app_nil_r.
    repeat (apply Forall_app; split); assumption. }
  rewrite run_bind, run_RowsErr.
  destruct (r_err rows) as [e |].
  { rewrite run_ret. cbn [snd]. apply Hhead; try (apply Hin; cbn; tauto). rewrite app_nil_r.
    repeat (apply Forall_app; split); assumption. }
  rewrite run_bind.
  assert (Hset : forall g' hist',
            ((if u_changes st' then set_gFinalState 1 else mret tt) g' hist').2 = []).
  { intros g' hist'. destruct (u_changes st'); reflexivity. }
  match goal with
  | |- context [(if u_changes st' then set_gFinalState 1 else mret tt) ?g' ?hist'] =>
      specialize (Hset g' hist');
      destruct ((if u_changes st' then set_gFinalState 1 else mret tt) g' hist') as [[u g3] e3]
  end.
  cbn [snd] in Hset. subst e3. rewrite run_ret. cbn [snd]. apply Hhead; try (apply Hin; cbn; tauto).
  rewrite !app_nil_r. repeat (apply Forall_app; split); assumption.
Qed.

Lemma found_fresh_other (evs : list event) :
  Forall (fun ev => ev_site ev <> SFreshness) evs -> existsb found_fresh evs = false.
Proof.
  intros H. induction H as [| ev evs Hev _ IH]; [reflexivity |].
  cbn [existsb]. rewrite IH, orb_false_r. unfold found_fresh.
  destruct (ev_site ev); try reflexivity. contradiction.
Qed.

Lemma found_fresh_no_scan (evs : list event) :
  Forall (fun ev => ev_op ev <> OpScan) evs -> existsb found_fresh evs = false.
Proof.
  intros H. induction H as [| ev evs Hev _ IH]; [reflexivity |].
  cbn [existsb]. rewrite IH, orb_false_r. unfold found_fresh.
  destruct (ev_site ev); try reflexivity. destruct (ev_op ev); try reflexivity. contradiction.
Qed.

Section Fresh.
Context (h : host) {C : Calendar}.

(** What the freshness check has called when it answers "not computed"
    without error: it has read no row. And when it has read a row, it
    returns an error exactly when one of its calls failed. *)
Lemma isCalculated_found (s : site) (table projectSlug timeRange : string)
    (env : gmap string string) (dtf dtt : GoTime.Time) (g : Z) (hist : list event) :
  let '(res, _, evs) := isCalculated h s table projectSlug timeRange env dtf dtt g hist in
  Forall (fun ev => ev_site ev = s) evs /\
  (snd res = None -> fst res = false -> Forall (fun ev => ev_op ev <> OpScan) evs) /\
  (Forall (fun ev => ev_op ev <> OpScan) evs \/ is_some (snd res) = existsb failed evs).
Proof.
  rewrite isCalculated_run. cbv zeta.
  assert (Hscans : forall l, Forall (fun ev => ev_site ev = s) (scan_event s <$> l)).
  { intros l. apply Forall_fmap, Forall_forall. intros; reflexivity. }
  assert (Hok : forall l, scans_ok l -> existsb failed (scan_event s <$> l) = false).
  { intros l Hl. induction Hl as [| r l Hr _ IH]; [reflexivity |].
    cbn [fmap list_fmap existsb]. fold (fmap (scan_event s) l). rewrite IH, orb_false_r.
    unfold failed, scan_event. cbn [ev_err]. now rewrite Hr. }
  destruct (db_Query h hist _ _) as [e | rows].
  - split; [repeat constructor |]. split; [intros _ _ | left]; repeat constructor; discriminate.
  - destruct (list_find _ _) as [[i row] |] eqn:Hfind.
    + split; [constructor; [reflexivity | apply Hscans] |]. split.
      * cbn [fst snd]. intros Hnone. apply list_find_Some in Hfind as (_ & [e He] & _). congruence.
      * right. destruct (scans_until_failure s _ _ _ Hfind) as (Heq & Hbefore & [e He]).
        cbn [fst snd]. rewrite He, Heq. cbn [is_some existsb]. rewrite existsb_app, (Hok _ Hbefore).
        cbn [existsb orb]. unfold failed, scan_event. cbn [ev_err]. now rewrite He.
    + assert (Hall : scans_ok (r_scans rows)).
      { apply Forall_forall. intros r Hr. destruct (err_of r) eqn:E; [| reflexivity].
        exfalso. eapply list_find_None in Hfind. rewrite Forall_forall in Hfind.
        apply (Hfind r Hr). rewrite E. eauto. }
      split; [| split].
      * constructor; [reflexivity |]. apply Forall_app. split; [apply Hscans | repeat constructor].
      * cbn [fst snd]. destruct (r_err rows) as [e |]; [discriminate |].
        intros _ Hempty. apply negb_false_iff, bool_decide_eq_true in Hempty.
        rewrite Hempty. cbn [fmap list_fmap app]. repeat constructor; discriminate.
      * right. cbn [fst snd existsb]. rewrite existsb_app, (Hok _ Hall).
        unfold failed, query_event, next_event, rows_err_event. cbn [existsb ev_err err_of orb].
        destruct (r_err rows); reflexivity.
Qed.

Lemma found_fresh_scan (evs : list event) :
  existsb found_fresh evs = true -> ~ Forall (fun ev => ev_op ev <> OpScan) evs.
Proof. intros Hf Hn. rewrite (found_fresh_no_scan _ Hn) in Hf. discriminate. Qed.

Lemma needsCalculation_found (table projectSlug timeRange : string)
    (env : gmap string string) (g : Z) (hist : list event) :
  let '(res, _, evs) := needsCalculation h SFreshness table projectSlug timeRange env g hist in
  Forall (fun ev => In (ev_site ev) deciding_sites) evs /\
  (snd res = None -> fst (fst (fst res)) = true -> existsb found_fresh evs = false) /\
  (existsb found_fresh evs = true -> is_some (snd res) = existsb failed evs).
Proof.
  assert (Hsite : forall evs, Forall (fun ev => ev_site ev = SFreshness) evs ->
                    Forall (fun ev => In (ev_site ev) deciding_sites) evs).
  { intros evs H. eapply Forall_impl; [exact H |]. intros ev ->. cbn. tauto. }
  unfold needsCalculation.
  destruct (one_of timeRange _).
  - unfold currentTimeRange. rewrite !run_bind, run_Now, run_ret. cbn [app].
    destruct (timeRangeAt _ timeRange env) as [dtf dtt]. rewrite run_bind.
    match goal with
    | |- context [isCalculated h SFreshness ?a ?b ?c ?d ?e ?f ?g0 ?hist0] =>
        pose proof (isCalculated_found SFreshness a b c d e f g0 hist0) as Hf;
        destruct (isCalculated h SFreshness a b c d e f g0 hist0) as [[[isCalc err] g'] evs]
    end.
    destruct Hf as (Hs & Hn & Hfail). cbn [fst snd] in Hn, Hfail.
    assert (Hfail' : existsb found_fresh evs = true -> is_some err = existsb failed evs).
    { intros Hff. destruct Hfail as [Hno | Hfail]; [| exact Hfail].
      now apply found_fresh_scan in Hff. }
    destruct err as [e |]; rewrite run_ret; cbn [app fst snd]; rewrite app_nil_r.
    + split; [constructor; [cbn; tauto | now apply Hsite] |]. split; [discriminate |].
      cbn [existsb]. exact Hfail'.
    + split; [constructor; [cbn; tauto | now apply Hsite] |]. split.
      * intros _ Hneeds. apply negb_true_iff in Hneeds. cbn [existsb found_fresh ev_site].
        cbn [orb]. apply found_fresh_no_scan. now apply Hn.
      * cbn [existsb]. exact Hfail'.
  - destruct (one_of timeRange ["c"]).
    + destruct (env !! "DATE_FROM") as [dtFrom |];
        [| rewrite run_ret; split; [constructor | split; discriminate]].
      destruct (env !! "DATE_TO") as [dtTo |];
        [| rewrite run_ret; split; [constructor | split; discriminate]].
      destruct (lib.TimeParseAny dtFrom) as [f |];
        [| rewrite run_ret; split; [constructor | split; discriminate]].
      destruct (lib.TimeParseAny dtTo) as [t |];
        [| rewrite run_ret; split; [constructor | split; discriminate]].
      rewrite run_bind.
      match goal with
      | |- context [isCalculated h SFreshness ?a ?b ?c ?d ?e ?f ?g0 ?hist0] =>
          pose proof (isCalculated_found SFreshness a b c d e f g0 hist0) as Hf;
          destruct (isCalculated h SFreshness a b c d e f g0 hist0) as [[[isCalc err] g'] evs]
      end.
      destruct Hf as (Hs & Hn & Hfail). cbn [fst snd] in Hn, Hfail.
      assert (Hfail' : existsb found_fresh evs = true -> is_some err = existsb failed evs).
      { intros Hff. destruct Hfail as [Hno | Hfail]; [| exact Hfail].
        now apply found_fresh_scan in Hff. }
      destruct err as [e |]; rewrite run_ret; cbn [fst snd]; rewrite app_nil_r.
      * split; [now apply Hsite |]. split; [discriminate | exact Hfail'].
      * split; [now apply Hsite |]. split; [| exact Hfail'].
        intros _ Hneeds. apply negb_true_iff in Hneeds. apply found_fresh_no_scan. now apply Hn.
    + rewrite run_ret. split; [constructor | split; discriminate].
Qed.

Lemma supportCleanup_sites (table timeRange projectSlug : string) (dtf dtt : GoTime.Time)
    (env : gmap string string) (g : Z) (hist : list event) :
  Forall (fun ev => ev_site ev = SCleanup)
    (supportCleanup h table timeRange projectSlug dtf dtt env g hist).2.
Proof.
  unfold supportCleanup.
  destruct (env !! "CLEANUP") as [cl |]; [| rewrite run_ret; constructor].
  destruct (String.eqb cl ""); [rewrite run_ret; constructor |].
  rewrite run_bind, run_Exec.
  destruct (db_Exec h hist _ _) as [err | res].
  - rewrite run_ret. repeat constructor.
  - rewrite run_bind, run_GetRowsAffected. rewrite run_ret. repeat constructor.
Qed.

(** Without DELETE and FORCE_CALC, [calcMetric] stops after the freshness
    check when that check has read a row: it calls nothing else, leaves
    [gFinalState] as it was, and returns an error exactly when a call has
    failed. *)
Lemma calcMetric_skips (environ : list string) (g : Z) (hist : list event) :
  get_or_empty (parse_environ environ) "DELETE" = EmptyString ->
  has_key (parse_environ environ) "FORCE_CALC" = false ->
  wp (calcMetric h environ) g hist
     (fun err g' evs =>
        existsb found_fresh evs = true ->
        Forall (fun ev => In (ev_site ev) deciding_sites) evs /\ g' = g
        /\ is_some err = existsb failed evs).
Proof.
  intros Hdel Hforce. unfold calcMetric.
  set (env := parse_environ environ) in *.
  destruct (missing_required env); [apply wp_ret; discriminate |].
  (* sql.Open *)
  apply wp_bind. unfold wp at 1. rewrite run_Open.
  destruct (sql_Open h hist _) as [err |]; [apply wp_ret; discriminate |].
  apply (wp_mono _ _ _ (fun err g' evs =>
           existsb found_fresh evs = true ->
           Forall (fun ev => In (ev_site ev) deciding_sites) evs /\ g' = g
           /\ is_some err = existsb failed evs)).
  2:{ intros a g' evs H Hf. cbn [app existsb found_fresh ev_site orb] in Hf.
      destruct (H Hf) as (Hs & -> & Herr). split; [| split; [reflexivity | exact Herr]].
      constructor; [cbn; tauto | exact Hs]. }
  (* drop table *)
  apply wp_bind.
  apply (wp_mono _ _ _ (fun e g1 e1 =>
           g1 = g /\ Forall (fun ev => ev_site ev = SDropTable) e1
           /\ (e = None -> existsb failed e1 = false))).
  { destruct (has_key env "DROP").
    - apply wp_bind. unfold wp at 1. rewrite run_Exec. apply wp_ret. rewrite app_nil_r.
      split; [reflexivity | split; [repeat constructor |]].
      destruct (db_Exec h _ _ []); [discriminate | reflexivity].
    - apply wp_ret. split; [reflexivity | split; [constructor | reflexivity]]. }
  intros e g1 e1 (-> & Hs1 & Hok1).
  assert (Hd1 : Forall (fun ev => In (ev_site ev) deciding_sites) e1).
  { eapply Forall_impl; [exact Hs1 |]. intros ev ->. cbn. tauto. }
  assert (Hf1 : existsb found_fresh e1 = false).
  { apply found_fresh_other. eapply Forall_impl; [exact Hs1 |]. intros ev ->. discriminate. }
  destruct e as [err |]; [apply wp_ret; rewrite app_nil_r; congruence |].
  specialize (Hok1 eq_refl).
  apply (wp_mono _ _ _ (fun err g' evs =>
           existsb found_fresh evs = true ->
           Forall (fun ev => In (ev_site ev) deciding_sites) evs /\ g' = g
           /\ is_some err = existsb failed evs)).
  2:{ intros a g' evs H Hf. rewrite existsb_app, Hf1 in Hf. cbn [orb] in Hf.
      destruct (H Hf) as (Hs & -> & Herr). split; [| split; [reflexivity |]].
      - apply Forall_app. now split.
      - now rewrite existsb_app, Hok1. }
  clear Hs1 Hd1 Hf1 Hok1.
  (* needsCalculation *)
  apply wp_bind.
  match goal with
  | |- wp (needsCalculation h SFreshness ?a ?b ?c ?d) ?g0 ?hist0 _ =>
      pose proof (needsCalculation_found a b c d g0 hist0) as Hfound;
      pose proof (needsCalculation_sound h SFreshness a b c d g0 hist0 ltac:(now left)) as Hsound;
      unfold wp at 1;
      destruct (needsCalculation h SFreshness a b c d g0 hist0) as [[[[[needsCalc dtf] dtt] err] g2] e2]
  end.
  destruct Hfound as (Hs2 & Hn2 & Hfail2). destruct Hsound as [[-> _] _]. cbn [fst snd] in Hn2, Hfail2.
  destruct err as [e |].
  { apply wp_ret. rewrite app_nil_r. intros Hf. split; [exact Hs2 | split; [reflexivity | now apply Hfail2]]. }
  specialize (Hn2 eq_refl).
  (* supportDelete *)
  apply wp_bind. unfold wp at 1.
  assert (Hnodel : supportDelete h
                     (if has_key env "PPT"
                      then get_or_empty env "TABLE" +:+ "_" +:+ toDBIdentifier (get_or_empty env "PROJECT_SLUG")
                      else get_or_empty env "TABLE")
                     (get_or_empty env "TIME_RANGE") (get_or_empty env "PROJECT_SLUG") dtf dtt env g
                     (((hist ++ [ {| ev_site := SOpen; ev_op := OpOpen (get_or_empty env "CONN");
                                     ev_err := None; ev_rows := None |} ]) ++ e1) ++ e2)
                   = (false, g, [])).
  { unfold supportDelete. unfold get_or_empty in Hdel.
    destruct (env !! "DELETE") as [del |]; [| reflexivity].
    cbn in Hdel. subst del. reflexivity. }
  rewrite Hnodel. clear Hnodel.
  apply wp_bind. apply wp_ret. cbn [app].
  destruct needsCalc.
  - (* the metric is computed: no row was read by the freshness check *)
    specialize (Hn2 eq_refl). cbn [negb]. 
    apply (wp_mono _ _ _ (fun _ _ evs => Forall (fun ev => ev_site ev <> SFreshness) evs)).
    2:{ intros a g' evs H Hf. exfalso.
        rewrite existsb_app, Hn2, (found_fresh_other _ H) in Hf. discriminate. }
    apply wp_bind. unfold wp at 1. rewrite run_ReadFile.
    destruct (ioutil_ReadFile h _ _) as [err | contents];
      [apply wp_ret; repeat constructor; discriminate |].
    apply wp_bind.
    match goal with
    | |- wp (calculate h ?a ?b ?c ?d ?e ?f ?p ?v) ?g0 ?hist0 _ =>
        pose proof (calculate_sites h a b c d e f p v g0 hist0) as Hc;
        unfold wp at 1;
        destruct (calculate h a b c d e f p v g0 hist0) as [[err g5] e5]
    end.
    cbn [snd] in Hc.
    assert (Hc' : Forall (fun ev => ev_site ev <> SFreshness) e5).
    { eapply Forall_impl; [exact Hc |]. intros ev Hin E. cbv beta in Hin. rewrite E in Hin. cbn in Hin.
      intuition discriminate. }
    destruct err as [e |].
    { apply wp_ret. rewrite app_nil_r. constructor; [discriminate | exact Hc']. }
    apply wp_bind.
    match goal with
    | |- wp (supportCleanup h ?a ?b ?c ?d ?e ?v) ?g0 ?hist0 _ =>
        pose proof (supportCleanup_sites a b c d e v g0 hist0) as Hcl;
        unfold wp at 1;
        destruct (supportCleanup h a b c d e v g0 hist0) as [[u g6] e6]
    end.
    cbn [snd] in Hcl. apply wp_ret. rewrite app_nil_r.
    constructor; [discriminate |]. apply Forall_app. split; [exact Hc' |].
    eapply Forall_impl; [exact Hcl |]. intros ev E. cbv beta in E. rewrite E. discriminate.
  - cbn [negb]. rewrite Hforce. cbn [negb]. apply wp_ret. intros Hf.
    rewrite !app_nil_r in Hf |- *. split; [assumption | split; [reflexivity | now apply Hfail2]].
Qed.

End Fresh.

(** X23. When the freshness check reads a row for the key of the computation,
    and neither DELETE nor FORCE_CALC is set, the run computes nothing:
    it reads no query file and executes no statement except the drop of
    DROP. Its exit code is 66 when no call has failed, and 1 when a call
    has failed (a later Scan of the check, or the end of its rows). *)
Theorem fresh_metric_is_skipped (h : host) (C : Calendar) (environ : list string) :
  get_or_empty (parse_environ environ) "DELETE" = EmptyString ->
  has_key (parse_environ environ) "FORCE_CALC" = false ->
  existsb found_fresh (run h C environ).2 = true ->
  Forall (fun ev => In (ev_site ev) deciding_sites) (run h C environ).2 /\
  (run h C environ).1 = (if existsb failed (run h C environ).2 then 1 else 66).
Proof.
  intros Hdel Hforce. unfold run. rewrite main_run.
  pose proof (calcMetric_skips h environ 0 ([] ++ [clock_event SMain]) Hdel Hforce) as Hs.
  unfold wp in Hs.
  destruct (calcMetric h environ 0 ([] ++ [clock_event SMain])) as [[err g1] evs].
  cbn [fst snd]. intros Hf.
  cbn [existsb] in Hf. rewrite existsb_app in Hf. cbn in Hf. rewrite orb_false_r in Hf.
  destruct (Hs Hf) as (Hsites & -> & Herr). split.
  - constructor; [cbn; tauto |]. apply Forall_app. split; [exact Hsites |].
    constructor; [cbn; tauto | constructor].
  - cbn [existsb]. rewrite existsb_app. cbn [existsb]. 
    change (failed (clock_event SMain)) with false. cbn [orb]. rewrite orb_false_r, <- Herr.
    destruct err; reflexivity.
Qed.

(** The theorem applies: the metric is in the table already, no call
    fails and the exit code is 66; and when the connection is lost after
    the first row of the check, the exit code is 1. *)
Lemma fresh_metric_is_skipped_witness :
  (Forall (fun ev => In (ev_site ev) deciding_sites)
     (run Samples.host_of_tables spec_calendar Samples.environ).2 /\
   (run Samples.host_of_tables spec_calendar Samples.environ).1 = 66) /\
  (Forall (fun ev => In (ev_site ev) deciding_sites)
     (run Samples.host_breaking_check spec_calendar Samples.environ).2 /\
   (run Samples.host_breaking_check spec_calendar Samples.environ).1 = 1).
Proof.
  split.
  - pose proof (fresh_metric_is_skipped Samples.host_of_tables spec_calendar Samples.environ
                  ltac:(vm_compute; reflexivity) ltac:(vm_compute; reflexivity)
                  ltac:(vm_compute; reflexivity)) as [Hsites Hcode].
    split; [exact Hsites |]. rewrite Hcode. vm_compute. reflexivity.
  - pose proof (fresh_metric_is_skipped Samples.host_breaking_check spec_calendar Samples.environ
                  ltac:(vm_compute; reflexivity) ltac:(vm_compute; reflexivity)
                  ltac:(vm_compute; reflexivity)) as [Hsites Hcode].
    split; [exact Hsites |]. rewrite Hcode. vm_compute. reflexivity.
Defined.

(** ** The whole run: the order of its calls *)

Lemma in_phases_nil (ps : list (list site)) : in_phases ps [].
Proof.
  induction ps as [| p ps IH]; [reflexivity |].
  exists [], []. split; [reflexivity | split; [constructor | exact IH]].
Qed.

Lemma in_phases_cons (p : list site) (ps : list (list site)) (e1 e2 : list event) :
  Forall (fun ev => In (ev_site ev) p) e1 -> in_phases ps e2 -> in_phases (p :: ps) (e1 ++ e2).
Proof. intros H1 H2. exists e1, e2. auto. Qed.

Lemma in_phases_last (p : list site) (ps : list (list site)) (e1 : list event) :
  Forall (fun ev => In (ev_site ev) p) e1 -> in_phases (p :: ps) (e1 ++ []).
Proof. intros H. apply in_phases_cons; [exact H | apply in_phases_nil]. Qed.

Section Phases.
Context (h : host) {C : Calendar}.

Lemma needsCalculation_sites (s : site) (table projectSlug timeRange : string)
    (env : gmap string string) (g : Z) (hist : list event) :
  Forall (fun ev => In (ev_site ev) [STimeRange; s])
    (needsCalculation h s table projectSlug timeRange env g hist).2.
Proof.
  assert (Hsite : forall evs, Forall (fun ev => ev_site ev = s) evs ->
                    Forall (fun ev => In (ev_site ev) [STimeRange; s]) evs).
  { intros evs H. eapply Forall_impl; [exact H |]. intros ev E. cbv beta in E. rewrite E.
    cbn. tauto. }
  unfold needsCalculation.
  destruct (one_of timeRange _).
  - unfold currentTimeRange. rewrite !run_bind, run_Now, run_ret. cbn [app].
    destruct (timeRangeAt _ timeRange env) as [dtf dtt]. rewrite run_bind.
    match goal with
    | |- context [isCalculated h s ?a ?b ?c ?d ?e ?f ?g0 ?hist0] =>
        pose proof (isCalculated_found h s a b c d e f g0 hist0) as Hf;
        destruct (isCalculated h s a b c d e f g0 hist0) as [[[isCalc err] g'] evs]
    end.
    destruct Hf as [Hs _].
    destruct err as [e |]; rewrite run_ret; cbn [app fst snd]; rewrite app_nil_r;
      (constructor; [cbn; tauto | now apply Hsite]).
  - destruct (one_of timeRange ["c"]).
    + destruct (env !! "DATE_FROM") as [dtFrom |]; [| rewrite run_ret; constructor].
      destruct (env !! "DATE_TO") as [dtTo |]; [| rewrite run_ret; constructor].
      destruct (lib.TimeParseAny dtFrom) as [f |]; [| rewrite run_ret; constructor].
      destruct (lib.TimeParseAny dtTo) as [t |]; [| rewrite run_ret; constructor].
      rewrite run_bind.
      match goal with
      | |- context [isCalculated h s ?a ?b ?c ?d ?e ?f ?g0 ?hist0] =>
          pose proof (isCalculated_found h s a b c d e f g0 hist0) as Hf;
          destruct (isCalculated h s a b c d e f g0 hist0) as [[[isCalc err] g'] evs]
      end.
      destruct Hf as [Hs _].
      destruct err as [e |]; rewrite run_ret; cbn [fst snd]; rewrite app_nil_r; now apply Hsite.
    + rewrite run_ret. constructor.
Qed.

Lemma supportDelete_sites (table timeRange projectSlug : string) (dtf dtt : GoTime.Time)
    (env : gmap string string) (g : Z) (hist : list event) :
  Forall (fun ev => In (ev_site ev) [SDelete])
    (supportDelete h table timeRange projectSlug dtf dtt env g hist).2.
Proof.
  unfold supportDelete.
  destruct (env !! "DELETE") as [del |]; [| rewrite run_ret; constructor].
  destruct (String.eqb del ""); [rewrite run_ret; constructor |].
  destruct (_ <=? 0); [rewrite run_ret; constructor |].
  destruct (delete_conds _ timeRange projectSlug dtf dtt) as [conds args].
  rewrite run_bind, run_Exec.
  destruct (db_Exec h hist _ args) as [err | res].
  - rewrite run_ret. repeat constructor.
  - rewrite run_bind, run_GetRowsAffected.
    destruct (RowsAffected res); rewrite run_ret; repeat constructor.
Qed.

Lemma calcMetric_in_phases (environ : list string) (g : Z) (hist : list event) :
  wp (calcMetric h environ) g hist (fun _ _ evs => in_phases phases evs).
Proof.
  unfold calcMetric, phases.
  set (env := parse_environ environ).
  destruct (missing_required env); [apply wp_ret, in_phases_nil |].
  (* sql.Open *)
  apply wp_bind. unfold wp at 1. rewrite run_Open.
  assert (Hone : forall (ev : event) (p : list site), In (ev_site ev) p ->
                   Forall (fun ev => In (ev_site ev) p) [ev]).
  { intros ev p Hin. constructor; [exact Hin | constructor]. }
  destruct (sql_Open h hist _) as [err |].
  { apply wp_ret. apply in_phases_last, Hone. cbn. tauto. }
  eapply wp_mono; [| intros a g' evs H; apply in_phases_cons; [apply Hone; cbn; tauto | exact H]].
  (* drop table *)
  apply wp_bind.
  apply (wp_mono _ _ _ (fun _ _ e1 => Forall (fun ev => In (ev_site ev) [SDropTable]) e1)).
  { destruct (has_key env "DROP").
    - apply wp_bind. unfold wp at 1. rewrite run_Exec. apply wp_ret. rewrite app_nil_r.
      apply Hone. cbn. tauto.
    - apply wp_ret. constructor. }
  intros e g1 e1 Hs1.
  destruct e as [err |]; [apply wp_ret; now apply in_phases_last |].
  eapply wp_mono; [| intros a g' evs H; apply in_phases_cons; [exact Hs1 | exact H]].
  clear Hs1.
  (* needsCalculation *)
  apply wp_bind.
  match goal with
  | |- wp (needsCalculation h SFreshness ?a ?b ?c ?d) ?g0 ?hist0 _ =>
      pose proof (needsCalculation_sites SFreshness a b c d g0 hist0) as Hs2;
      unfold wp at 1;
      destruct (needsCalculation h SFreshness a b c d g0 hist0) as [[[[[needsCalc dtf] dtt] err] g2] e2]
  end.
  cbn [snd] in Hs2.
  destruct err as [e |]; [apply wp_ret; now apply in_phases_last |].
  eapply wp_mono; [| intros a g' evs H; apply in_phases_cons; [exact Hs2 | exact H]].
  clear Hs2.
  (* supportDelete *)
  apply wp_bind.
  match goal with
  | |- wp (supportDelete h ?a ?b ?c ?d ?e ?v) ?g0 ?hist0 _ =>
      pose proof (supportDelete_sites a b c d e v g0 hist0) as Hs3;
      unfold wp at 1;
      destruct (supportDelete h a b c d e v g0 hist0) as [[deleted g3] e3]
  end.
  cbn [snd] in Hs3.
  eapply wp_mono; [| intros a g' evs H; apply in_phases_cons; [exact Hs3 | exact H]].
  clear Hs3.
  (* the freshness check again *)
  apply wp_bind.
  apply (wp_mono _ _ _ (fun _ _ e4 => Forall (fun ev => In (ev_site ev) [STimeRange; SRecheck]) e4)).
  { destruct deleted.
    - apply wp_bind.
      match goal with
      | |- wp (needsCalculation h SRecheck ?a ?b ?c ?d) ?g0 ?hist0 _ =>
          pose proof (needsCalculation_sites SRecheck a b c d g0 hist0) as Hs4;
          unfold wp at 1;
          destruct (needsCalculation h SRecheck a b c d g0 hist0) as [[[[[n f] t] e] g4] e4]
      end.
      apply wp_ret. now rewrite app_nil_r.
    - apply wp_ret. constructor. }
  intros [[needsCalc' dtf'] dtt'] g4 e4 Hs4.
  eapply wp_mono; [| intros a g' evs H; apply in_phases_cons; [exact Hs4 | exact H]].
  clear Hs4.
  destruct (negb (if negb needsCalc' then has_key env "FORCE_CALC" else needsCalc'));
    [apply wp_ret, in_phases_nil |].
  (* the query template *)
  apply wp_bind. unfold wp at 1. rewrite run_ReadFile.
  destruct (ioutil_ReadFile h _ _) as [err | contents].
  { apply wp_ret. apply in_phases_last, Hone. cbn. tauto. }
  eapply wp_mono; [| intros a g' evs H; apply in_phases_cons; [apply Hone; cbn; tauto | exact H]].
  (* calculate *)
  apply wp_bind.
  match goal with
  | |- wp (calculate h ?a ?b ?c ?d ?e ?f ?p ?v) ?g0 ?hist0 _ =>
      pose proof (calculate_sites h a b c d e f p v g0 hist0) as Hc;
      unfold wp at 1;
      destruct (calculate h a b c d e f p v g0 hist0) as [[err g5] e5]
  end.
  cbn [snd] in Hc.
  destruct err as [e |]; [apply wp_ret; now apply in_phases_last |].
  eapply wp_mono; [| intros a g' evs H; apply in_phases_cons; [exact Hc | exact H]].
  (* supportCleanup *)
  apply wp_bind.
  match goal with
  | |- wp (supportCleanup h ?a ?b ?c ?d ?e ?v) ?g0 ?hist0 _ =>
      pose proof (supportCleanup_sites h a b c d e v g0 hist0) as Hcl;
      unfold wp at 1;
      destruct (supportCleanup h a b c d e v g0 hist0) as [[u g6] e6]
  end.
  cbn [snd] in Hcl. apply wp_ret. apply in_phases_last.
  eapply Forall_impl; [exact Hcl |]. intros ev E. cbv beta in E. rewrite E. cbn. tauto.
Qed.

End Phases.

(** X24. The calls of a run come in one order, whatever the configuration and
    whatever the database answers: between the two readings of the clock
    in [main], the database is opened; then comes the drop of DROP; then
    the freshness check; then the delete of DELETE; then the freshness
    check again; then the query file is read; then the computation; then
    the cleanup of CLEANUP. A phase can be empty, and the run can end
    after any phase, but no call of an earlier phase follows a call of a
    later one: nothing is dropped or deleted once the computation has
    begun. *)
Theorem run_in_phases (h : host) (C : Calendar) (environ : list string) :
  exists evs,
    (run h C environ).2 = clock_event SMain :: evs ++ [clock_event SMain]
    /\ in_phases phases evs.
Proof.
  pose proof (run_calcMetric h C environ) as H.
  pose proof (calcMetric_in_phases h environ 0 [clock_event SMain]) as Hp. unfold wp in Hp.
  destruct (calcMetric h environ 0 [clock_event SMain]) as [[err g1] evs].
  destruct H as [-> _]. exists evs. split; [reflexivity | exact Hp].
Qed.
(** ** Failures: what follows them *)

Lemma followed_none (P Q : event -> bool) (evs : list event) :
  Forall (fun ev => P ev = false) evs -> followed P Q evs.
Proof.
  intros H. induction H as [| ev evs Hev _ IH]; [exact I |].
  split; [congruence | exact IH].
Qed.

Lemma followed_app (P Q : event -> bool) (e1 e2 : list event) :
  followed P Q e1 -> followed P Q e2 -> followed P Q (e1 ++ e2).
Proof.
  intros H1 H2. induction e1 as [| ev e1 IH]; [exact H2 |].
  destruct H1 as [Hev H1]. cbn [app followed]. split; [| now apply IH].
  intros HP. rewrite existsb_app, (Hev HP). reflexivity.
Qed.

(** The events that satisfy [P] in front are all answered by one that
    satisfies [Q] behind. *)
Lemma followed_by (P Q : event -> bool) (e1 e2 : list event) :
  existsb Q e2 = true -> followed P Q e2 -> followed P Q (e1 ++ e2).
Proof.
  intros HQ H2. induction e1 as [| ev e1 IH]; [exact H2 |].
  cbn [app followed]. split; [| exact IH].
  intros _. rewrite existsb_app, HQ. apply orb_true_r.
Qed.

Lemma followed_lookup (P Q : event -> bool) (evs : list event) (i : nat) (ev : event) :
  followed P Q evs -> evs !! i = Some ev -> P ev = true ->
  exists j ev', (i < j)%nat /\ evs !! j = Some ev' /\ Q ev' = true.
Proof.
  revert i. induction evs as [| x evs IH]; intros i H Hi HP; [discriminate |].
  destruct H as [Hx H]. destruct i as [| i].
  - cbn in Hi. inversion Hi; subst x. specialize (Hx HP).
    apply existsb_exists in Hx as (ev' & Hin & HQ).
    apply list_elem_of_In, list_elem_of_lookup in Hin as [j Hj].
    exists (S j), ev'. split; [lia | split; [exact Hj | exact HQ]].
  - cbn in Hi. destruct (IH i H Hi HP) as (j & ev' & Hlt & Hj & HQ).
    exists (S j), ev'. split; [lia | split; [exact Hj | exact HQ]].
Qed.




Section Settled.
Context (h : host) {C : Calendar}.



End Settled.

Section NoNext.
Context (h : host).


Variables (table projectSlug timeRange dtFrom dtTo : string) (calcDt : GoTime.Time).
Variables (nColumns : nat) (l : Z) (colNames : list string).



End NoNext.


Section WholeSettled.
Context (h : host) {C : Calendar}.



End WholeSettled.



(** A row stream that breaks after its first row: [rows.Next()] returns
    false on the error, the row read so far is still written in a last
    batch, then [rows.Err()] hands the error over and the run ends with
    exit code 1. The calls of the run, each with its site and whether it
    failed (the first failure is the missing table at the freshness
    check). *)
Example broken_stream_is_flushed :
  let r := run (Samples.host_at 2024 3 15 Samples.broken_rows 1 "") spec_calendar Samples.environ in
  (fun ev => (ev_site ev, failed ev)) <$> r.2
  = [ (SMain, false); (SOpen, false); (STimeRange, false); (SFreshness, true); (SFile, false);
      (SSource, false); (SSource, false); (SCreate, false); (SCalcDt, false); (SSource, false);
      (SSource, true); (SBatch, false); (SBatch, false); (SSource, true); (SMain, false) ]
  /\ r.2 !! 10%nat = Some (next_event SSource Samples.broken_rows)
  /\ r.2 !! 13%nat = Some (rows_err_event SSource Samples.broken_rows)
  /\ r.1 = 1.
Proof. cbv zeta. repeat split; vm_compute; reflexivity. Qed.
(** ** The freshness check repeated after a delete *)

Lemma dropped_failure_failed (evs : list event) :
  existsb dropped_failure evs = true -> existsb failed evs = true.
Proof.
  intros H. apply existsb_exists in H as (ev & Hin & Hd). apply existsb_exists. exists ev.
  split; [exact Hin |]. unfold dropped_failure in Hd.
  apply andb_prop in Hd as [Hd _]. now apply andb_prop in Hd as [_ Hd].
Qed.

Lemma not_rechecking_not_dropped (evs : list event) :
  Forall (fun ev => ev_site ev <> SRecheck) evs ->
  Forall (fun ev => dropped_failure ev = false) evs.
Proof.
  intros H. eapply Forall_impl; [exact H |]. intros ev N.
  cbv beta in N. unfold dropped_failure, rechecking.
  destruct (ev_site ev); try reflexivity. exfalso. now apply N.
Qed.

Lemma none_dropped (evs : list event) :
  existsb dropped_failure evs = false -> Forall (fun ev => dropped_failure ev = false) evs.
Proof.
  intros H. apply Forall_forall. intros ev Hin.
  destruct (dropped_failure ev) eqn:E; [| reflexivity].
  apply list_elem_of_In in Hin.
  assert (existsb dropped_failure evs = true) by (apply existsb_exists; eauto). congruence.
Qed.

Section Recheck.
Context (h : host) {C : Calendar}.

(** When a call of [isCalculated] fails, its answer is "not computed". *)
Lemma isCalculated_failed (s : site) (table projectSlug timeRange : string)
    (env : gmap string string) (dtf dtt : GoTime.Time) (g : Z) (hist : list event) :
  let '(res, _, evs) := isCalculated h s table projectSlug timeRange env dtf dtt g hist in
  existsb failed evs = true -> fst res = false.
Proof.
  rewrite isCalculated_run. cbv zeta.
  destruct (db_Query h hist _ _) as [e | rows]; [reflexivity |].
  destruct (list_find _ _) as [[i row] |] eqn:Hfind; [reflexivity |].
  destruct (r_err rows) as [e |] eqn:He; [reflexivity |].
  cbn [fst]. intros Hf. exfalso.
  cbn [existsb] in Hf. rewrite existsb_app in Hf.
  unfold failed, query_event, next_event, rows_err_event in Hf. cbn [ev_err err_of existsb] in Hf.
  rewrite He in Hf. cbn [orb] in Hf. rewrite orb_false_r in Hf.
  apply existsb_exists in Hf as (ev & Hin & Hev).
  apply list_elem_of_In, list_elem_of_fmap in Hin as (row & -> & Hrow).
  eapply list_find_None in Hfind. rewrite Forall_forall in Hfind.
  apply (Hfind row Hrow). unfold scan_event in Hev. cbn [ev_err] in Hev.
  destruct (err_of row); [eauto | discriminate].
Qed.

(** So a failure in the repeated check makes [needsCalculation] answer
    that the metric has to be computed. *)
Lemma needsCalculation_failed (s : site) (table projectSlug timeRange : string)
    (env : gmap string string) (g : Z) (hist : list event) :
  let '(res, _, evs) := needsCalculation h s table projectSlug timeRange env g hist in
  existsb failed evs = true -> fst (fst (fst res)) = true.
Proof.
  unfold needsCalculation.
  destruct (one_of timeRange _).
  - unfold currentTimeRange. rewrite !run_bind, run_Now, run_ret. cbn [app].
    destruct (timeRangeAt _ timeRange env) as [dtf dtt]. rewrite run_bind.
    match goal with
    | |- context [isCalculated h s ?a ?b ?c ?d ?e ?f ?g0 ?hist0] =>
        pose proof (isCalculated_failed s a b c d e f g0 hist0) as Hf;
        destruct (isCalculated h s a b c d e f g0 hist0) as [[[isCalc err] g'] evs]
    end.
    cbn [fst] in Hf.
    destruct err as [e |]; rewrite run_ret; cbn [app fst snd]; rewrite app_nil_r; [reflexivity |].
    cbn [existsb]. change (failed _ || existsb failed evs) with (existsb failed evs).
    intros H. now rewrite (Hf H).
  - destruct (one_of timeRange ["c"]).
    + destruct (env !! "DATE_FROM") as [dtFrom |]; [| rewrite run_ret; reflexivity].
      destruct (env !! "DATE_TO") as [dtTo |]; [| rewrite run_ret; reflexivity].
      destruct (lib.TimeParseAny dtFrom) as [f |]; [| rewrite run_ret; reflexivity].
      destruct (lib.TimeParseAny dtTo) as [t |]; [| rewrite run_ret; reflexivity].
      rewrite run_bind.
      match goal with
      | |- context [isCalculated h s ?a ?b ?c ?d ?e ?f ?g0 ?hist0] =>
          pose proof (isCalculated_failed s a b c d e f g0 hist0) as Hf;
          destruct (isCalculated h s a b c d e f g0 hist0) as [[[isCalc err] g'] evs]
      end.
      cbn [fst] in Hf.
      destruct err as [e |]; rewrite run_ret; cbn [fst snd]; rewrite app_nil_r; [reflexivity |].
      intros H. now rewrite (Hf H).
    + rewrite run_ret. reflexivity.
Qed.

Lemma goes_on_after (A : Type) (m : M A) (g : Z) (hist : list event) (e1 : list event) :
  Forall (fun ev => ev_site ev <> SRecheck) e1 ->
  wp m g hist (fun _ _ evs => followed dropped_failure reads_query_file evs) ->
  wp m g hist (fun _ _ evs => followed dropped_failure reads_query_file (e1 ++ evs)).
Proof.
  intros H1 H. eapply wp_mono; [exact H |]. intros a g' evs H2.
  apply followed_app; [| exact H2]. apply followed_none. now apply not_rechecking_not_dropped.
Qed.

(** In a whole run, a failure of the repeated freshness check is followed
    by the reading of the query file. *)
Lemma calcMetric_goes_on (environ : list string) (g : Z) (hist : list event) :
  wp (calcMetric h environ) g hist
     (fun _ _ evs => followed dropped_failure reads_query_file evs).
Proof.
  unfold calcMetric.
  set (env := parse_environ environ).
  destruct (missing_required env); [apply wp_ret; exact I |].
  (* sql.Open *)
  apply wp_bind. unfold wp at 1. rewrite run_Open.
  apply goes_on_after; [repeat constructor; discriminate |].
  destruct (sql_Open h hist _) as [err |]; [apply wp_ret; exact I |].
  (* drop table *)
  apply wp_bind.
  apply (wp_mono _ _ _ (fun _ _ e1 => Forall (fun ev => ev_site ev <> SRecheck) e1)).
  { destruct (has_key env "DROP").
    - apply wp_bind. unfold wp at 1. rewrite run_Exec. apply wp_ret. rewrite app_nil_r.
      repeat constructor; discriminate.
    - apply wp_ret. constructor. }
  intros e g1 e1 Hs1. apply goes_on_after; [exact Hs1 |].
  destruct e as [err |]; [apply wp_ret; exact I |].
  (* needsCalculation *)
  apply wp_bind.
  match goal with
  | |- wp (needsCalculation h SFreshness ?a ?b ?c ?d) ?g0 ?hist0 _ =>
      pose proof (needsCalculation_sites h SFreshness a b c d g0 hist0) as Hs2;
      unfold wp at 1;
      destruct (needsCalculation h SFreshness a b c d g0 hist0) as [[[[[needsCalc dtf] dtt] err] g2] e2]
  end.
  cbn [snd] in Hs2. apply goes_on_after.
  { eapply Forall_impl; [exact Hs2 |]. intros ev [E | [E | []]] N; congruence. }
  destruct err as [e |]; [apply wp_ret; exact I |].
  (* supportDelete *)
  apply wp_bind.
  match goal with
  | |- wp (supportDelete h ?a ?b ?c ?d ?e ?v) ?g0 ?hist0 _ =>
      pose proof (supportDelete_sites h a b c d e v g0 hist0) as Hs3;
      unfold wp at 1;
      destruct (supportDelete h a b c d e v g0 hist0) as [[deleted g3] e3]
  end.
  cbn [snd] in Hs3. apply goes_on_after.
  { eapply Forall_impl; [exact Hs3 |]. intros ev [E | []] N; congruence. }
  (* the freshness check again *)
  apply wp_bind.
  apply (wp_mono _ _ _ (fun r _ e4 => existsb dropped_failure e4 = true -> fst (fst r) = true)).
  { destruct deleted.
    - apply wp_bind.
      match goal with
      | |- wp (needsCalculation h SRecheck ?a ?b ?c ?d) ?g0 ?hist0 _ =>
          pose proof (needsCalculation_failed SRecheck a b c d g0 hist0) as Hs4;
          unfold wp at 1;
          destruct (needsCalculation h SRecheck a b c d g0 hist0) as [[[[[n f] t] e] g4] e4]
      end.
      cbn [fst] in Hs4. apply wp_ret. rewrite app_nil_r. cbn [fst].
      intros Hd. apply Hs4. now apply dropped_failure_failed.
    - apply wp_ret. discriminate. }
  intros [[needsCalc' dtf'] dtt'] g4 e4 Hs4. cbn [fst] in Hs4.
  destruct (negb (if negb needsCalc' then has_key env "FORCE_CALC" else needsCalc')) eqn:Hneeds.
  { apply wp_ret. rewrite app_nil_r. apply followed_none, none_dropped.
    destruct (existsb dropped_failure e4); [| reflexivity].
    rewrite (Hs4 eq_refl) in Hneeds. discriminate. }
  (* the query file is read *)
  apply wp_bind. unfold wp at 1. rewrite run_ReadFile.
  apply (wp_mono _ _ _ (fun _ _ evs => Forall (fun ev => ev_site ev <> SRecheck) evs)).
  2:{ intros a g' evs H. apply followed_by; [reflexivity |].
      apply followed_none, not_rechecking_not_dropped. constructor; [discriminate | exact H]. }
  destruct (ioutil_ReadFile h _ _) as [err | contents]; [apply wp_ret; constructor |].
  (* calculate *)
  apply wp_bind.
  match goal with
  | |- wp (calculate h ?a ?b ?c ?d ?e ?f ?p ?v) ?g0 ?hist0 _ =>
      pose proof (calculate_sites h a b c d e f p v g0 hist0) as Hs5;
      unfold wp at 1;
      destruct (calculate h a b c d e f p v g0 hist0) as [[err g5] e5]
  end.
  cbn [snd] in Hs5.
  assert (Hs5' : Forall (fun ev => ev_site ev <> SRecheck) e5).
  { eapply Forall_impl; [exact Hs5 |]. intros ev Hin E. cbv beta in Hin. rewrite E in Hin.
    cbn in Hin. intuition discriminate. }
  destruct err as [e |]; [apply wp_ret; now rewrite app_nil_r |].
  (* supportCleanup *)
  apply wp_bind.
  match goal with
  | |- wp (supportCleanup h ?a ?b ?c ?d ?e ?v) ?g0 ?hist0 _ =>
      pose proof (supportCleanup_sites h a b c d e v g0 hist0) as Hs6;
      unfold wp at 1;
      destruct (supportCleanup h a b c d e v g0 hist0) as [[u g6] e6]
  end.
  cbn [snd] in Hs6. apply wp_ret. rewrite app_nil_r. apply Forall_app. split; [exact Hs5' |].
  eapply Forall_impl; [exact Hs6 |]. intros ev E. cbv beta in E. rewrite E. discriminate.
Qed.

End Recheck.

(** C5, where the code departs from it. A failure of the freshness check
    repeated after a delete, other than the missing table, does not end
    the run: later in the run the query file is read, so the run goes on
    to compute the metric. [isCalculated] returns the error
    ([isCalculated_failures]); [calcMetric] assigns it and never reads
    it. *)
Theorem recheck_failure_is_dropped (h : host) (C : Calendar) (environ : list string)
    (i : nat) (ev : event) :
  (run h C environ).2 !! i = Some ev -> dropped_failure ev = true ->
  exists j ev', (i < j)%nat /\ (run h C environ).2 !! j = Some ev' /\ reads_query_file ev' = true.
Proof.
  pose proof (run_calcMetric h C environ) as H.
  pose proof (calcMetric_goes_on h environ 0 [clock_event SMain]) as Hgo. unfold wp in Hgo.
  destruct (calcMetric h environ 0 [clock_event SMain]) as [[err g1] evs].
  destruct H as [-> _]. cbn [snd]. intros Hi Hd.
  apply (followed_lookup dropped_failure reads_query_file _ i ev); [| exact Hi | exact Hd].
  apply (followed_app _ _ [_]); [split; [discriminate | exact I] |].
  apply followed_app; [exact Hgo |]. split; [discriminate | exact I].
Qed.

(** The theorem applies, at the input where the code departs from C5:
    the first check finds the metric computed, DELETE=tr removes a row,
    and the database loses the connection at the query of the second
    check, the eleventh call of the run. The query file is read after it, the metric is
    computed, and the exit code is 0. *)
Lemma recheck_failure_is_dropped_witness :
  let r := run Samples.host_losing_recheck spec_calendar ("V3_DELETE=tr" :: Samples.environ) in
  (exists j ev', (10 < j)%nat /\ r.2 !! j = Some ev' /\ reads_query_file ev' = true)
  /\ existsb failed_in_recheck r.2 = true /\ computation_performed r.2 = true /\ r.1 = 0.
Proof.
  cbv zeta. split.
  - eapply (recheck_failure_is_dropped Samples.host_losing_recheck spec_calendar
              ("V3_DELETE=tr" :: Samples.environ) 10).
    + vm_compute. reflexivity.
    + reflexivity.
  - repeat split; vm_compute; reflexivity.
Defined.
